(** * Kiro MCP Manager: the recommendation loader, the configuration
      writer, the group/toggle commands and the hook initializer

    A shallow embedding of [src/serverLoader.ts], of [src/extension.ts]
    (the configuration functions, the server view, the commands, the
    environment file and the check of [.gitignore]) and of
    [src/hookManager.ts], followed by the properties the design document
    states about them and by further properties of the code.

    Conventions of the embedding.
    - A JavaScript string is a [string]; its 8-bit characters are read as the
      code units U+0000..U+00FF.
    - A JSON object used as a dictionary ([Record<string, T>]) is a
      [gmap string T] of its own properties. The names the bundled catalog
      and the groups give are taken not to be names every object inherits
      ([constructor], [toString], ...); where a name comes from outside (the
      identifiers of a recommendation) the inherited members are part of the
      lookup ([Js.inherited]).
    - A file is described by what reading and parsing it yields ([File]);
      [JSON.parse (JSON.stringify v)] is [v].
    - Functions that touch the file system or the IDE run in the monad [M]
      over a [World]; an exception is the result [Thrown].
    - Values the TypeScript signatures exclude (a catalog entry that is not an
      object, a non-string environment value) are outside the model; the
      guards that only such values can trigger are named in comments. The
      module [Unchecked] has the two merges of environment variables without
      this restriction on the workspace values. *)

From Stdlib Require Import Ascii ZArith.
From Stdlib Require String.
From stdpp Require Import base option list gmap fin_maps strings.

Local Open Scope Z_scope.
Local Open Scope nat_scope.

(** ** JavaScript strings *)

Module JsString.

(** The characters [String.prototype.trim] removes and the regular
    expression class [\s] matches, as far as they are below U+0100:
    TAB, LF, VT, FF, CR, SPACE and NBSP. *)
Definition isWhiteSpace (c : ascii) : bool :=
  let n := nat_of_ascii c in
  (Nat.leb 9 n && Nat.leb n 13) || Nat.eqb n 32 || Nat.eqb n 160.

Fixpoint trimStart (s : string) : string :=
  match s with
  | EmptyString => EmptyString
  | String c rest => if isWhiteSpace c then trimStart rest else s
  end.

Fixpoint trimEnd (s : string) : string :=
  match s with
  | EmptyString => EmptyString
  | String c rest =>
      match trimEnd rest with
      | EmptyString => if isWhiteSpace c then EmptyString else String c EmptyString
      | kept => String c kept
      end
  end.

(** [s.trim()] *)
Definition trim (s : string) : string := trimEnd (trimStart s).

(** [s === ''] *)
Definition isEmpty (s : string) : bool := String.eqb s "".

(** [s.trim() === ''] *)
Definition isBlank (s : string) : bool := isEmpty (trim s).

(** [Some rest] when [s] is [prefix] followed by [rest]. *)
Fixpoint dropPrefix (prefix s : string) : option string :=
  match prefix, s with
  | EmptyString, _ => Some s
  | String a prefix', String b s' =>
      if Ascii.eqb a b then dropPrefix prefix' s' else None
  | String _ _, EmptyString => None
  end.

(** [s.replace(/^Default:\s*/, '')]: the label and every white-space
    character that follows it. *)
Definition replaceDefaultLabel (s : string) : string :=
  match dropPrefix "Default:" s with
  | Some rest => trimStart rest
  | None => s
  end.

(** [s.replace(/\r$/, '')]: one carriage return, at the very end ([$]
    without the [m] flag). *)
Fixpoint replaceFinalCR (s : string) : string :=
  match s with
  | EmptyString => EmptyString
  | String c EmptyString => if Ascii.eqb c "013" then EmptyString else s
  | String c rest => String c (replaceFinalCR rest)
  end.

(** [c.toLowerCase()] of one code unit below U+0100: the letters A-Z and
    the capitals U+00C0..U+00DE (the sign U+00D7 apart) move up by 32. *)
Definition toLowerCaseChar (c : ascii) : ascii :=
  let n := nat_of_ascii c in
  if (Nat.leb 65 n && Nat.leb n 90)
     || (Nat.leb 192 n && Nat.leb n 222 && negb (Nat.eqb n 215))
  then ascii_of_nat (n + 32)
  else c.

(** [s.toLowerCase()] *)
Fixpoint toLowerCase (s : string) : string :=
  match s with
  | EmptyString => EmptyString
  | String c rest => String (toLowerCaseChar c) (toLowerCase rest)
  end.

(** [s.startsWith(prefix)] *)
Definition startsWith (prefix s : string) : bool :=
  match JsString.dropPrefix prefix s with
  | Some _ => true
  | None => false
  end.

(** [s.includes(part)] *)
Fixpoint includes (part s : string) : bool :=
  startsWith part s
  || match s with
     | EmptyString => false
     | String _ rest => includes part rest
     end.

(** [s.endsWith(suffix)] *)
Fixpoint endsWith (suffix s : string) : bool :=
  String.eqb s suffix
  || match s with
     | EmptyString => false
     | String _ rest => endsWith suffix rest
     end.

(** [s.split(separator)] for a separator of one character. *)
Fixpoint split (separator : ascii) (s : string) : list string :=
  match s with
  | EmptyString => [EmptyString]
  | String c rest =>
      if Ascii.eqb c separator then EmptyString :: split separator rest
      else match split separator rest with
           | first :: others => String c first :: others
           | [] => [String c EmptyString]
           end
  end.

End JsString.

(** ** JSON values *)

#[local] Set Warnings "-register-all".

(** What [JSON.parse] returns for text that is not under a TypeScript
    interface of the extension. Numbers are only ever tested for truthiness
    here. An object is the list of its members. *)
Inductive Json : Type :=
| JNull
| JBool (b : bool)
| JNum (n : Z)
| JStr (s : string)
| JArr (items : list Json)
| JObj (members : list (string * Json)).

Module Js.

(** [!!v] *)
Definition truthy (v : Json) : bool :=
  match v with
  | JNull => false
  | JBool b => b
  | JNum n => negb (Z.eqb n 0)
  | JStr s => negb (JsString.isEmpty s)
  | JArr _ | JObj _ => true
  end.

(** [typeof v === 'object'] ([null] and arrays included) *)
Definition typeofObject (v : Json) : bool :=
  match v with
  | JNull | JArr _ | JObj _ => true
  | _ => false
  end.

Fixpoint assoc (name : string) (members : list (string * Json)) : option Json :=
  match members with
  | [] => None
  | (k, v) :: rest => if String.eqb k name then Some v else assoc name rest
  end.

(** [v.name] for the member names read by the extension ([serverId],
    [reason], [name], [when], [then]), none of which a string, number,
    boolean or array has; [None] is [undefined]. Reading a member of
    [null] throws, so callers test for [JNull] first. *)
Definition member (v : Json) (name : string) : option Json :=
  match v with
  | JObj members => assoc name members
  | _ => None
  end.

(** [!!v.name] *)
Definition memberTruthy (v : Json) (name : string) : bool :=
  match member v name with
  | Some x => truthy x
  | None => false
  end.

(** The names every object inherits from [Object.prototype]. For an object
    [o] that has no member of its own of such a name, [o[name]] is a function
    and, for [__proto__], the prototype object: a truthy value that is not a
    string. *)
Definition objectPrototypeMembers : list string :=
  ["constructor"; "__defineGetter__"; "__defineSetter__"; "hasOwnProperty";
   "__lookupGetter__"; "__lookupSetter__"; "isPrototypeOf";
   "propertyIsEnumerable"; "toString"; "valueOf"; "__proto__";
   "toLocaleString"].

Definition inherited (name : string) : bool :=
  bool_decide (name ∈ objectPrototypeMembers).

End Js.

(** ** The shared interfaces of [serverLoader.ts] and [extension.ts] *)

Record McpServer := {
  command : option string;
  args : option (list string);
  env : option (gmap string string);
  description : option string;
  tags : option (list string);
  httpUrl : option string;
  headers : option (gmap string string)
}.

(** [{ ...server, env: e }] *)
Definition withEnv (server : McpServer) (e : gmap string string) : McpServer :=
  {| command := command server; args := args server; env := Some e;
     description := description server; tags := tags server;
     httpUrl := httpUrl server; headers := headers server |}.

(** The parsed [mcp.json]. [mcpServers] is [None] when the member is missing
    or is not an object; [otherMembers] are the remaining top-level members. *)
Record McpConfig := {
  mcpServers : option (gmap string McpServer);
  otherMembers : gmap string Json
}.

(** [{ mcpServers: m }] *)
Definition mcpConfigOf (m : gmap string McpServer) : McpConfig :=
  {| mcpServers := Some m; otherMembers := ∅ |}.

(** The parsed [env-vars.json]. *)
Record EnvVarsConfig := {
  version : string;
  envDescription : string;
  variables : option (gmap string string);
  notes : option (gmap string string)
}.

(** The parsed [master-servers.json]; [servers] is [None] when the member is
    missing or is not an object. *)
Record MasterServers := {
  servers : option (gmap string McpServer)
}.

Record ServerGroup := {
  groupName : string;
  groupDescription : string;
  groupServers : list string;
  icon : string
}.

(** The cleaned catalog default of both [mergeEnvironmentVariables]:
    [defaultValue.replace(/^Default:\s*/, '').replace(/\r$/, '')]. *)
Definition cleanedDefault (defaultValue : string) : string :=
  JsString.replaceFinalCR (JsString.replaceDefaultLabel defaultValue).

(** ** The host: workspace files, the IDE and the console *)

(** A file as its readers see it: [Absent] (the [access] check or the read
    fails), [Corrupt] (it is read, [JSON.parse] throws; an empty or truncated
    file is of this kind) or [Holds v] (it parses to [v]). *)
Inductive File (A : Type) : Type :=
| Absent
| Corrupt
| Holds (content : A).

Arguments Absent {A}.
Arguments Corrupt {A}.
Arguments Holds {A} content.

Inductive Level := LInfo | LWarning | LError.

(** The texts handed to [vscode.window.show...Message], by template. *)
Inductive Message :=
| NoServersRecommended
| AgentAnalysisFailed (details : string)
| NoValidServersFound
| FileReadFailed (fileName details : string)
| ConfigWriteFailed (details : string)
| LoadedServers (count : nat) (serverIds : list string).

(** What a [writeFile] of [mcp.json] does. [LandsAs] is a write that resolves
    while the file afterwards reads differently (a damaged write, or another
    writer in between); [Rejects] is a write that throws, after truncating the
    file when [truncated] (flag ['w'] truncates on open). *)
Inductive WriteOutcome :=
| Lands
| LandsAs (found : File McpConfig)
| Rejects (reason : string) (truncated : bool).

Inductive Event :=
| Notify (level : Level) (message : Message)
| Console (level : Level) (text : string)
| MkdirSettings
| WriteMcp (config : McpConfig).

(** [mkdirScript] and [writeScript] say how the coming calls of [mkdir] and
    [writeFile] end, one entry per call ([None]: the directory is ensured);
    past the end of a script every call succeeds. [events] is the trace,
    latest first. *)
Record World := {
  workspaceFolder : bool;
  envVarsFile : File EnvVarsConfig;
  mcpFile : File McpConfig;
  mkdirScript : list (option string);
  writeScript : list WriteOutcome;
  events : list Event
}.

(** The part of [vscode.ExtensionContext] that is read: the bundled catalog
    under [extensionPath]. *)
Record ExtensionContext := {
  masterServersFile : File MasterServers
}.

Definition setMcpFile (f : File McpConfig) (w : World) : World :=
  {| workspaceFolder := workspaceFolder w; envVarsFile := envVarsFile w;
     mcpFile := f; mkdirScript := mkdirScript w; writeScript := writeScript w;
     events := events w |}.

Definition setEnvVarsFile (f : File EnvVarsConfig) (w : World) : World :=
  {| workspaceFolder := workspaceFolder w; envVarsFile := f;
     mcpFile := mcpFile w; mkdirScript := mkdirScript w;
     writeScript := writeScript w; events := events w |}.

Definition setMkdirScript (s : list (option string)) (w : World) : World :=
  {| workspaceFolder := workspaceFolder w; envVarsFile := envVarsFile w;
     mcpFile := mcpFile w; mkdirScript := s; writeScript := writeScript w;
     events := events w |}.

Definition setWriteScript (s : list WriteOutcome) (w : World) : World :=
  {| workspaceFolder := workspaceFolder w; envVarsFile := envVarsFile w;
     mcpFile := mcpFile w; mkdirScript := mkdirScript w; writeScript := s;
     events := events w |}.

Definition record (e : Event) (w : World) : World :=
  {| workspaceFolder := workspaceFolder w; envVarsFile := envVarsFile w;
     mcpFile := mcpFile w; mkdirScript := mkdirScript w;
     writeScript := writeScript w; events := e :: events w |}.

(** *** Computations that may throw *)

Inductive Result (A : Type) : Type :=
| Ok (value : A)
| Thrown (errorMsg : string).

Arguments Ok {A} value.
Arguments Thrown {A} errorMsg.

(** A computation over a world [W]: it ends with a value or an exception,
    and with the world it leaves. *)
Definition Run (W A : Type) : Type := W → Result A * W.

Definition ret {W A} (a : A) : Run W A := λ w, (Ok a, w).

Definition bind {W A B} (m : Run W A) (k : A → Run W B) : Run W B :=
  λ w, match m w with
       | (Ok a, w') => k a w'
       | (Thrown e, w') => (Thrown e, w')
       end.

Definition throw {W A} (errorMsg : string) : Run W A := λ w, (Thrown errorMsg, w).

(** [try { m } catch (error) { handler(error.message) }] *)
Definition tryCatch {W A} (m : Run W A) (handler : string → Run W A) : Run W A :=
  λ w, match m w with
       | (Ok a, w') => (Ok a, w')
       | (Thrown e, w') => handler e w'
       end.

Definition getWorld {W} : Run W W := λ w, (Ok w, w).

Definition M (A : Type) : Type := Run World A.

Definition emit (e : Event) : M unit := λ w, (Ok tt, record e w).

Notation "'let*' x ':=' m 'in' k" := (bind m (λ x, k))
  (at level 10, x name, m at level 100, k at level 200).
Notation "m ;; k" := (bind m (λ _, k))
  (at level 100, k at level 200, right associativity).

(** [fs.promises.mkdir(dir, { recursive: true })] for [.kiro/settings] *)
Definition fsMkdir : M unit :=
  λ w, match mkdirScript w with
       | [] => (Ok tt, record MkdirSettings w)
       | None :: script => (Ok tt, record MkdirSettings (setMkdirScript script w))
       | Some reason :: script => (Thrown reason, setMkdirScript script w)
       end.

(** [fs.promises.writeFile(mcpPath, JSON.stringify(config, null, 2), ...)] *)
Definition fsWriteMcp (config : McpConfig) : M unit :=
  λ w, let w := record (WriteMcp config) w in
       match writeScript w with
       | [] => (Ok tt, setMcpFile (Holds config) w)
       | Lands :: script =>
           (Ok tt, setMcpFile (Holds config) (setWriteScript script w))
       | LandsAs found :: script =>
           (Ok tt, setMcpFile found (setWriteScript script w))
       | Rejects reason truncated :: script =>
           (Thrown reason,
            if truncated then setMcpFile Corrupt (setWriteScript script w)
            else setWriteScript script w)
       end.

(** [JSON.parse(await fs.promises.readFile(mcpPath, 'utf8'))] *)
Definition fsReadMcp : M McpConfig :=
  λ w, match mcpFile w with
       | Absent => (Thrown "ENOENT: no such file or directory", w)
       | Corrupt => (Thrown "Unexpected end of JSON input", w)
       | Holds config => (Ok config, w)
       end.

(** [JSON.parse(await fs.promises.readFile(envPath, 'utf8'))] *)
Definition fsReadEnvVars : M EnvVarsConfig :=
  λ w, match envVarsFile w with
       | Absent => (Thrown "ENOENT: no such file or directory", w)
       | Corrupt => (Thrown "Unexpected end of JSON input", w)
       | Holds config => (Ok config, w)
       end.

(** The configuration the extension falls back to when [env-vars.json] is
    unavailable. *)
Definition defaultEnvVarsConfig : EnvVarsConfig :=
  {| version := "1.0.0";
     envDescription := "Centralized environment variables for MCP servers";
     variables := Some ∅;
     notes := Some ∅ |}.

(** ** [serverLoader.ts] *)

Module ServerLoader.

Definition showFileReadError (fileName errorDetails : string) : M unit :=
  emit (Notify LError (FileReadFailed fileName errorDetails)).

Definition showAgentAnalysisError (errorDetails : string) : M unit :=
  emit (Notify LError (AgentAnalysisFailed errorDetails)).

Definition showConfigWriteError (errorDetails : string) : M unit :=
  emit (Notify LError (ConfigWriteFailed errorDetails)).

(** The callback of [recommendations.filter] (lines 66-80); its
    [console.warn] calls are not traced. *)
Definition isValidRecommendation (r : Json) : bool :=
  if negb (Js.truthy r) || negb (Js.typeofObject r) then false
  else match Js.member r "serverId" with
       | Some (JStr serverId) =>
           if JsString.isEmpty serverId || JsString.isBlank serverId then false
           else match Js.member r "reason" with
                | Some (JStr reason) => negb (JsString.isEmpty reason)
                | _ => false
                end
       | _ => false
       end.

(** [rec.serverId] of a record that passed the filter. *)
Definition serverIdOf (r : Json) : string :=
  match Js.member r "serverId" with
  | Some (JStr serverId) => serverId
  | _ => ""
  end.

(** [validateServerIds]: the pair of [validIds] and [invalidIds] at the end
    of the loop. The test of line 249, [masterServers[serverId]], is one for
    truthiness: a key of the catalog passes it, and so does a name every
    object inherits, which the identifiers of a recommendation, pasted by the
    user, may well be. The guards on the argument types cannot fire for the
    typed call of line 111. *)
Definition validateServerIds (serverIds : list string)
    (masterServers : gmap string McpServer) : list string * list string :=
  foldl (λ '(validIds, invalidIds) serverId,
           if JsString.isEmpty serverId || JsString.isBlank serverId
           then (validIds, invalidIds ++ [serverId])
           else match masterServers !! serverId with
                | Some _ => (validIds ++ [serverId], invalidIds)
                | None =>
                    if Js.inherited serverId
                    then (validIds ++ [serverId], invalidIds)
                    else (validIds, invalidIds ++ [serverId])
                end)
        ([], []) serverIds.

(** [loadMasterServers]; the thrown texts are shortened (no path, no inner
    message). *)
Definition loadMasterServers (context : ExtensionContext)
    : M (gmap string McpServer) :=
  tryCatch
    (match masterServersFile context with
     | Absent => throw "Master servers file not found or not readable"
     | Corrupt => throw "Failed to parse master servers JSON"
     | Holds parsed =>
         match servers parsed with
         | None => throw "Master servers file missing servers object"
         | Some found =>
             (if Nat.eqb (size found) 0
              then emit (Console LWarning "Master servers configuration is empty")
              else ret tt) ;;
             ret found
         end
     end)
    (λ errorMsg,
       emit (Console LError "Failed to load master-servers.json:") ;;
       showFileReadError "master-servers.json" errorMsg ;;
       throw ("Failed to load master servers configuration: " +:+ errorMsg)).

(** [loadWorkspaceEnvVars]: never throws; every failure yields the default. *)
Definition loadWorkspaceEnvVars : M EnvVarsConfig :=
  let* w := getWorld in
  if negb (workspaceFolder w) then
    emit (Console LInfo "No workspace folder found, using default environment variables") ;;
    ret defaultEnvVarsConfig
  else
    match envVarsFile w with
    | Absent =>
        emit (Console LInfo "Environment variables file not found, using defaults") ;;
        ret defaultEnvVarsConfig
    | Corrupt =>
        emit (Console LError "Failed to parse environment variables JSON:") ;;
        ret defaultEnvVarsConfig
    | Holds parsed =>
        ret {| version := if JsString.isEmpty (version parsed)
                          then version defaultEnvVarsConfig else version parsed;
               envDescription := if JsString.isEmpty (envDescription parsed)
                                 then envDescription defaultEnvVarsConfig
                                 else envDescription parsed;
               variables := Some (default ∅ (variables parsed));
               notes := Some (default ∅ (notes parsed)) |}
    end.

(** The value stored for one declared variable (lines 659-666), for
    workspace values under [Record<string, string>]; [Unchecked.loaderValue]
    is the same test on values of any type. *)
Definition mergedValue (envVars : gmap string string)
    (key defaultValue : string) : string :=
  match envVars !! key with
  | Some provided =>
      if negb (JsString.isEmpty provided) && negb (JsString.isBlank provided)
      then provided
      else cleanedDefault defaultValue
  | None => cleanedDefault defaultValue
  end.

(** [mergeEnvironmentVariables]. An entry with the empty key is skipped
    ([!key]); the branch for a non-string default is outside the model. *)
Definition mergeEnvironmentVariables (server : McpServer)
    (envVars : gmap string string) : McpServer :=
  match env server with
  | None => server
  | Some declared =>
      if Nat.eqb (size declared) 0 then server
      else
        withEnv server
          (foldl (λ mergedEnv '(key, defaultValue),
                    if JsString.isEmpty key then mergedEnv
                    else <[key := mergedValue envVars key defaultValue]> mergedEnv)
                 declared (map_to_list declared))
  end.

(** [loadWorkspaceMcpConfig]: the [mcpServers] member of the document, or
    the empty default. *)
Definition loadWorkspaceMcpConfig : M McpConfig :=
  let* w := getWorld in
  if negb (workspaceFolder w) then ret (mcpConfigOf ∅)
  else
    match mcpFile w with
    | Absent => ret (mcpConfigOf ∅)
    | Corrupt =>
        emit (Console LError "Error loading workspace MCP config:") ;;
        ret (mcpConfigOf ∅)
    | Holds parsed => ret (mcpConfigOf (default ∅ (mcpServers parsed)))
    end.

(** The read-back of lines 783-796; it throws on a mismatch. *)
Definition verifyWritten (expected : gmap string McpServer) : M unit :=
  let* parsedConfig := fsReadMcp in
  match mcpServers parsedConfig with
  | None => throw "MCP configuration verification failed: invalid structure"
  | Some written =>
      if negb (Nat.eqb (size written) (size expected))
      then throw "MCP configuration verification failed: server count differs"
      else ret tt
  end.

(** [saveWorkspaceMcpConfig] *)
Definition saveWorkspaceMcpConfig (config : McpConfig) : M unit :=
  tryCatch
    (match mcpServers config with
     | None => throw "MCP configuration missing mcpServers object"
     | Some expected =>
         let* w := getWorld in
         if negb (workspaceFolder w) then
           showConfigWriteError
             "No workspace folder found. Please open a workspace to save MCP configuration." ;;
           throw "No workspace folder found"
         else
           tryCatch fsMkdir
             (λ errorMsg, throw ("Failed to create settings directory: " +:+ errorMsg)) ;;
           tryCatch (fsWriteMcp config)
             (λ errorMsg, throw ("Failed to write MCP configuration file: " +:+ errorMsg)) ;;
           tryCatch (verifyWritten expected)
             (λ _, emit (Console LError "Failed to verify written MCP configuration:"))
     end)
    (λ errorMsg,
       emit (Console LError "Failed to save MCP config:") ;;
       showConfigWriteError
         ("Failed to write mcp.json: " +:+ errorMsg
          +:+ ". Check file permissions and disk space.") ;;
       throw ("Failed to write mcp.json: " +:+ errorMsg)).

(** The loop of lines 154-175 over [validServerIds]; its [console.error]
    calls are not traced. An identifier that is no key of the catalog is in
    [validServerIds] by an inherited name, and adds nothing: its value is a
    function, which the test of line 159 skips, or, for [__proto__], the
    prototype object, which has no [env] and comes back from the merge as it
    is; assigning it to [newConfig.mcpServers['__proto__']] sets the prototype
    of that object to what it already is and creates no member. *)
Definition buildConfig (validServerIds : list string)
    (masterServers : gmap string McpServer) (envVars : gmap string string)
    : gmap string McpServer :=
  foldl (λ newServers serverId,
           match masterServers !! serverId with
           | None => newServers
           | Some server =>
               <[serverId := mergeEnvironmentVariables server envVars]> newServers
           end)
        ∅ validServerIds.

Definition showSuccessNotification (serverIds : list string)
    (recommendations : list Json) : M unit :=
  if Nat.eqb (length serverIds) 0
  then emit (Console LError "Invalid serverIds provided to showSuccessNotification")
  else emit (Notify LInfo (LoadedServers (length serverIds) serverIds)).

(** Lines 184-198: the write of the new configuration with the attempt to
    restore the snapshot; [true] when the write went through. *)
Definition saveWithRollback (newConfig : McpConfig) : M bool :=
  let* originalConfig := loadWorkspaceMcpConfig in
  tryCatch
    (saveWorkspaceMcpConfig newConfig ;; ret true)
    (λ _,
       tryCatch
         (saveWorkspaceMcpConfig originalConfig ;;
          emit (Console LInfo "Restored original configuration after save failure"))
         (λ _, emit (Console LError "Failed to rollback configuration:")) ;;
       ret false).

(** Lines 92-107: the catalog, or [None] when it cannot be used. *)
Definition loadUsableMasterServers (context : ExtensionContext)
    : M (option (gmap string McpServer)) :=
  tryCatch
    (let* masterServers := loadMasterServers context in
     if Nat.eqb (size masterServers) 0
     then throw "Master servers configuration is empty"
     else ret (Some masterServers))
    (λ _, ret None).

(** [loadRecommendedServers]. [context] is never missing for the typed
    caller, so the guard of lines 40-44 is left out; [recommendations] is the
    parsed, unchecked input. *)
Definition loadRecommendedServers (recommendations : Json)
    (context : ExtensionContext) : M nat :=
  tryCatch
    (if negb (Js.truthy recommendations) then
       emit (Console LError "Recommendations parameter is null or undefined") ;;
       emit (Notify LInfo NoServersRecommended) ;;
       ret 0
     else
       match recommendations with
       | JArr items =>
           if Nat.eqb (length items) 0 then
             emit (Console LInfo "Empty recommendations array received") ;;
             emit (Notify LInfo NoServersRecommended) ;;
             ret 0
           else
             let validRecommendations := List.filter isValidRecommendation items in
             if Nat.eqb (length validRecommendations) 0 then
               emit (Console LError "No valid recommendations after validation") ;;
               showAgentAnalysisError "All recommendations were invalid or malformed" ;;
               ret 0
             else
               (if Nat.ltb (length validRecommendations) (length items)
                then emit (Console LWarning "Filtered out invalid recommendations")
                else ret tt) ;;
               let* loaded := loadUsableMasterServers context in
               match loaded with
               | None => ret 0
               | Some masterServers =>
                   let serverIds := map serverIdOf validRecommendations in
                   let '(validServerIds, invalidIds) :=
                     validateServerIds serverIds masterServers in
                   (if Nat.ltb 0 (length invalidIds)
                    then emit (Console LWarning "Invalid server IDs recommended")
                    else ret tt) ;;
                   if Nat.eqb (length validServerIds) 0 then
                     emit (Console LWarning "No valid server IDs found after validation") ;;
                     emit (Notify LWarning NoValidServersFound) ;;
                     ret 0
                   else
                     let finalRecommendations :=
                       List.filter
                         (λ r, bool_decide (serverIdOf r ∈ validServerIds))
                         validRecommendations in
                     let* envVars :=
                       tryCatch loadWorkspaceEnvVars
                         (λ _,
                            emit (Console LError "Failed to load environment variables:") ;;
                            ret defaultEnvVarsConfig) in
                     let newServers :=
                       buildConfig validServerIds masterServers
                         (default ∅ (variables envVars)) in
                     if Nat.eqb (size newServers) 0 then
                       emit (Console LError "No servers successfully configured") ;;
                       showAgentAnalysisError "Failed to configure any recommended servers" ;;
                       ret 0
                     else
                       let* saved := saveWithRollback (mcpConfigOf newServers) in
                       if saved then
                         showSuccessNotification validServerIds finalRecommendations ;;
                         ret (length validServerIds)
                       else ret 0
               end
       | _ =>
           emit (Console LError "Recommendations is not an array:") ;;
           showAgentAnalysisError "Invalid recommendations format received from agent" ;;
           ret 0
       end)
    (λ errorMsg,
       emit (Console LError "Unexpected error in loadRecommendedServers:") ;;
       showAgentAnalysisError errorMsg ;;
       ret 0).

End ServerLoader.

(** ** The configuration functions of [extension.ts] *)

Module Extension.

(** [JSON.parse] of the catalog file, unchecked. *)
Definition loadMasterServers (context : ExtensionContext) : M MasterServers :=
  match masterServersFile context with
  | Absent => throw "ENOENT: no such file or directory"
  | Corrupt => throw "Unexpected end of JSON input"
  | Holds parsed => ret parsed
  end.

Definition loadWorkspaceEnvVars : M EnvVarsConfig :=
  let* w := getWorld in
  if negb (workspaceFolder w) then ret defaultEnvVarsConfig
  else tryCatch fsReadEnvVars (λ _, ret defaultEnvVarsConfig).

(** The value stored for one declared variable (lines 559-564), for
    workspace values under [Record<string, string>]; [Unchecked.extensionValue]
    is the same test on values of any type, where it may throw. *)
Definition mergedValue (envVars : gmap string string)
    (key defaultValue : string) : string :=
  match envVars !! key with
  | Some provided =>
      if negb (JsString.isEmpty provided) && negb (JsString.isBlank provided)
      then provided
      else cleanedDefault defaultValue
  | None => cleanedDefault defaultValue
  end.

(** [mergeEnvironmentVariables]. [envVars] is [None] when the caller's
    [envVars.variables] is [undefined]; indexing it then throws. *)
Definition mergeEnvironmentVariables (server : McpServer)
    (envVars : option (gmap string string)) : Result McpServer :=
  match env server with
  | None => Ok server
  | Some declared =>
      if Nat.eqb (size declared) 0 then Ok server
      else
        match envVars with
        | None => Thrown "Cannot read properties of undefined"
        | Some provided =>
            Ok (withEnv server
                  (foldl (λ mergedEnv '(key, defaultValue),
                            <[key := mergedValue provided key defaultValue]> mergedEnv)
                         declared (map_to_list declared)))
        end
  end.

Definition loadWorkspaceMcpConfig : M McpConfig :=
  let* w := getWorld in
  if negb (workspaceFolder w) then ret (mcpConfigOf ∅)
  else tryCatch fsReadMcp (λ _, ret (mcpConfigOf ∅)).

Definition saveWorkspaceMcpConfig (config : McpConfig) : M unit :=
  let* w := getWorld in
  if negb (workspaceFolder w) then throw "No workspace folder found"
  else
    tryCatch (fsMkdir ;; fsWriteMcp config)
      (λ errorMsg,
         emit (Console LError "Failed to save MCP config:") ;;
         throw errorMsg).

(** A pure computation run inside [M]. *)
Definition liftResult {A} (r : Result A) : M A :=
  match r with
  | Ok a => ret a
  | Thrown errorMsg => throw errorMsg
  end.

(** The loop of lines 612-617: [newConfig.mcpServers] at its end, or the
    exception that leaves it. *)
Definition groupLoop (serverIds : list string) (masterServers : MasterServers)
    (envVars : EnvVarsConfig) : Result (gmap string McpServer) :=
  foldl (λ state serverId,
           match state with
           | Thrown errorMsg => Thrown errorMsg
           | Ok newServers =>
               match servers masterServers with
               | None => Thrown "Cannot read properties of undefined"
               | Some catalog =>
                   match catalog !! serverId with
                   | None => Ok newServers
                   | Some server =>
                       match mergeEnvironmentVariables server (variables envVars) with
                       | Thrown errorMsg => Thrown errorMsg
                       | Ok serverWithEnv =>
                           Ok (<[serverId := serverWithEnv]> newServers)
                       end
                   end
               end
           end)
        (Ok ∅) serverIds.

Definition loadServerGroup (group : ServerGroup) (context : ExtensionContext)
    : M unit :=
  let* masterServers := loadMasterServers context in
  let* envVars := loadWorkspaceEnvVars in
  let* newServers := liftResult (groupLoop (groupServers group) masterServers envVars) in
  saveWorkspaceMcpConfig (mcpConfigOf newServers).

Definition toggleServer (serverId : string) (server : McpServer) : M unit :=
  let* currentConfig := loadWorkspaceMcpConfig in
  match mcpServers currentConfig with
  | None => throw "Cannot use 'in' operator to search for a key in undefined"
  | Some active =>
      let* updated :=
        match active !! serverId with
        | Some _ => ret (delete serverId active)
        | None =>
            let* envVars := loadWorkspaceEnvVars in
            let* serverWithEnv :=
              liftResult (mergeEnvironmentVariables server (variables envVars)) in
            ret (<[serverId := serverWithEnv]> active)
        end in
      saveWorkspaceMcpConfig
        {| mcpServers := Some updated;
           otherMembers := otherMembers currentConfig |}
  end.

End Extension.

(** ** [hookManager.ts] *)

Module HookManager.

Record KiroHookConfig := {
  enabled : bool;
  name : string;
  hookDescription : string;
  hookVersion : string;
  whenType : string;
  whenPatterns : list string;
  thenType : string;
  thenPrompt : string
}.

(** The document [JSON.stringify] makes of a hook configuration. *)
Definition toJson (config : KiroHookConfig) : Json :=
  JObj [("enabled", JBool (enabled config));
        ("name", JStr (name config));
        ("description", JStr (hookDescription config));
        ("version", JStr (hookVersion config));
        ("when", JObj [("type", JStr (whenType config));
                       ("patterns", JArr (map JStr (whenPatterns config)))]);
        ("then", JObj [("type", JStr (thenType config));
                       ("prompt", JStr (thenPrompt config))])].

Inductive HookWriteOutcome (A : Type) : Type :=
| HookLands
| HookLandsAs (found : File A)
| HookRejects (reason : string) (truncated : bool).

Arguments HookLands {A}.
Arguments HookLandsAs {A} found.
Arguments HookRejects {A} reason truncated.

Inductive HookEvent :=
| HookNotify (level : Level) (text : string)
| HookConsole (level : Level) (text : string)
| HookMkdir
| WriteReference
| WriteHook (config : Json).

(** The workspace as the hook manager sees it: the hook document, the copy
    of the catalog for the agent, and the scripts of the coming [mkdir] and
    [writeFile] calls (one script per written file). *)
Record HookWorld := {
  hookWorkspaceFolder : bool;
  hookFile : File Json;
  referenceFile : File MasterServers;
  hookMkdirScript : list (option string);
  referenceWriteScript : list (HookWriteOutcome MasterServers);
  hookWriteScript : list (HookWriteOutcome Json);
  hookEvents : list HookEvent
}.

Definition H (A : Type) : Type := Run HookWorld A.

Definition hrecord (e : HookEvent) (w : HookWorld) : HookWorld :=
  {| hookWorkspaceFolder := hookWorkspaceFolder w; hookFile := hookFile w;
     referenceFile := referenceFile w; hookMkdirScript := hookMkdirScript w;
     referenceWriteScript := referenceWriteScript w;
     hookWriteScript := hookWriteScript w; hookEvents := e :: hookEvents w |}.

Definition hemit (e : HookEvent) : H unit := λ w, (Ok tt, hrecord e w).

Definition setHookFile (f : File Json) (w : HookWorld) : HookWorld :=
  {| hookWorkspaceFolder := hookWorkspaceFolder w; hookFile := f;
     referenceFile := referenceFile w; hookMkdirScript := hookMkdirScript w;
     referenceWriteScript := referenceWriteScript w;
     hookWriteScript := hookWriteScript w; hookEvents := hookEvents w |}.

Definition setReferenceFile (f : File MasterServers) (w : HookWorld) : HookWorld :=
  {| hookWorkspaceFolder := hookWorkspaceFolder w; hookFile := hookFile w;
     referenceFile := f; hookMkdirScript := hookMkdirScript w;
     referenceWriteScript := referenceWriteScript w;
     hookWriteScript := hookWriteScript w; hookEvents := hookEvents w |}.

Definition setHookMkdirScript (s : list (option string)) (w : HookWorld) : HookWorld :=
  {| hookWorkspaceFolder := hookWorkspaceFolder w; hookFile := hookFile w;
     referenceFile := referenceFile w; hookMkdirScript := s;
     referenceWriteScript := referenceWriteScript w;
     hookWriteScript := hookWriteScript w; hookEvents := hookEvents w |}.

Definition setReferenceWriteScript (s : list (HookWriteOutcome MasterServers))
    (w : HookWorld) : HookWorld :=
  {| hookWorkspaceFolder := hookWorkspaceFolder w; hookFile := hookFile w;
     referenceFile := referenceFile w; hookMkdirScript := hookMkdirScript w;
     referenceWriteScript := s;
     hookWriteScript := hookWriteScript w; hookEvents := hookEvents w |}.

Definition setHookWriteScript (s : list (HookWriteOutcome Json))
    (w : HookWorld) : HookWorld :=
  {| hookWorkspaceFolder := hookWorkspaceFolder w; hookFile := hookFile w;
     referenceFile := referenceFile w; hookMkdirScript := hookMkdirScript w;
     referenceWriteScript := referenceWriteScript w;
     hookWriteScript := s; hookEvents := hookEvents w |}.

(** [fs.promises.mkdir(dir, { recursive: true })] *)
Definition fsMkdir : H unit :=
  λ w, match hookMkdirScript w with
       | [] => (Ok tt, hrecord HookMkdir w)
       | None :: script => (Ok tt, hrecord HookMkdir (setHookMkdirScript script w))
       | Some reason :: script => (Thrown reason, setHookMkdirScript script w)
       end.

(** [fs.promises.writeFile(hookPath, configJson, ...)] *)
Definition fsWriteHook (config : Json) : H unit :=
  λ w, let w := hrecord (WriteHook config) w in
       match hookWriteScript w with
       | [] => (Ok tt, setHookFile (Holds config) w)
       | HookLands :: script =>
           (Ok tt, setHookFile (Holds config) (setHookWriteScript script w))
       | HookLandsAs found :: script =>
           (Ok tt, setHookFile found (setHookWriteScript script w))
       | HookRejects reason truncated :: script =>
           (Thrown reason,
            if truncated then setHookFile Corrupt (setHookWriteScript script w)
            else setHookWriteScript script w)
       end.

(** [fs.promises.writeFile(destPath, content, 'utf8')] of the catalog copy;
    [content] is what the bundled file holds. *)
Definition fsWriteReference (content : File MasterServers) : H unit :=
  λ w, let w := hrecord WriteReference w in
       match referenceWriteScript w with
       | [] => (Ok tt, setReferenceFile content w)
       | HookLands :: script =>
           (Ok tt, setReferenceFile content (setReferenceWriteScript script w))
       | HookLandsAs found :: script =>
           (Ok tt, setReferenceFile found (setReferenceWriteScript script w))
       | HookRejects reason truncated :: script =>
           (Thrown reason,
            if truncated
            then setReferenceFile Corrupt (setReferenceWriteScript script w)
            else setReferenceWriteScript script w)
       end.

(** [JSON.parse(await fs.promises.readFile(hookPath, 'utf8'))] *)
Definition fsReadHook : H Json :=
  λ w, match hookFile w with
       | Absent => (Thrown "ENOENT: no such file or directory", w)
       | Corrupt => (Thrown "Unexpected end of JSON input", w)
       | Holds parsed => (Ok parsed, w)
       end.

(** [fs.promises.access(hookPath)] *)
Definition fsAccessHook : H unit :=
  λ w, match hookFile w with
       | Absent => (Thrown "ENOENT: no such file or directory", w)
       | _ => (Ok tt, w)
       end.

Definition dq : string := String (ascii_of_nat 34) EmptyString.

(** [generatePrompt]: the template literal of lines 240-301. *)
Definition generatePrompt : string :=
  "You are analyzing ALL design documents in this project to generate a COMPLETE MCP server configuration.

CURRENT DESIGN FILE:
{FILE_CONTENT}

IMPORTANT INSTRUCTIONS:
1. Search the workspace for ALL design.md files in .kiro/specs/*/design.md patterns
2. Read EVERY design.md file you find to understand the complete project scope
3. Read #[file:.kiro/settings/mcp.json] to see currently loaded MCP servers (if file exists)
4. Read #[file:.kiro/mcp-servers-reference.json] to see all available MCP servers

TASK:
1. Analyze ALL design documents to identify:
   - Technologies and frameworks mentioned (React, Vue, Python, Node.js, etc.)
   - External services and APIs referenced (AWS, GitHub, Slack, etc.)
   - Data storage requirements (PostgreSQL, MongoDB, Redis, etc.)
   - Cloud platforms mentioned (AWS, Azure, GCP)
   - Development tools needed (Git, Docker, testing frameworks)

2. Review currently loaded servers from mcp.json (if it exists)

3. Generate a COMPLETE configuration that includes:
   - All currently loaded servers that are still relevant
   - Any NEW servers needed based on all design documents
   - Remove servers that are no longer needed for any design
   - Include context7 mcp server if this projects design is using a programming langauge in it such as needing node or python etc   

4. Return your recommendations in this format:

Here is your COMPLETE MCP server configuration for this project (analyzed X design files, kept Y existing servers, added Z new servers):

```json
[
  {
    " +:+ dq +:+
  "serverId" +:+ dq +:+
  ": " +:+ dq +:+
  "server-name" +:+ dq +:+
  ",
    " +:+ dq +:+
  "reason" +:+ dq +:+
  ": " +:+ dq +:+
  "Brief explanation of why this server is relevant" +:+ dq +:+
  "
  }
]
```

To load this configuration, copy the JSON array and run the command: " +:+ dq +:+
  "MCP Manager: Load Recommended Servers" +:+ dq +:+
  " from the command palette (CTRL+SHIFT+P).

RULES:
- Return a COMPLETE list including both existing and new servers
- Only recommend servers that exist in mcp-servers-reference.json
- Only recommend servers that are clearly relevant to at least one design
- Provide specific reasons based on actual design content
- If no servers are relevant, return an empty array: []
- Prioritize servers that provide the most value across all designs
- Base recommendations on actual content across ALL design documents
- If mcp.json does not exist, generate a fresh configuration from scratch

EXAMPLE OUTPUT:
Here is your COMPLETE MCP server configuration for this project (analyzed 3 design files, kept 2 existing servers, added 1 new server):

```json
[
  {" +:+ dq +:+
  "serverId" +:+ dq +:+
  ": " +:+ dq +:+
  "github" +:+ dq +:+
  ", " +:+ dq +:+
  "reason" +:+ dq +:+
  ": " +:+ dq +:+
  "Existing - Project uses GitHub for version control across all features" +:+ dq +:+
  "},
  {" +:+ dq +:+
  "serverId" +:+ dq +:+
  ": " +:+ dq +:+
  "postgres" +:+ dq +:+
  ", " +:+ dq +:+
  "reason" +:+ dq +:+
  ": " +:+ dq +:+
  "Existing - Database used in user-auth and data-sync designs" +:+ dq +:+
  "},
  {" +:+ dq +:+
  "serverId" +:+ dq +:+
  ": " +:+ dq +:+
  "aws-kb-retrieval" +:+ dq +:+
  ", " +:+ dq +:+
  "reason" +:+ dq +:+
  ": " +:+ dq +:+
  "NEW - Added for AWS Lambda and DynamoDB mentioned in new serverless-api design" +:+ dq +:+
  "}
]
```".

Definition createHookConfig : KiroHookConfig :=
  {| enabled := false;
     name := "MCP Server Recommendations for Project";
     hookDescription := "Analyzes all design documents in the project and generates a complete MCP server configuration based on technologies, services, and requirements across all specs. This hook is disabled by default - enable it in the Agent Hooks view to run manually.";
     hookVersion := "1";
     whenType := "userTriggered";
     whenPatterns := [".kiro/specs/*/design.md"];
     thenType := "askAgent";
     thenPrompt := generatePrompt |}.

Definition validWhenTypes : list string :=
  ["fileCreated"; "fileEdited"; "fileSaved"; "fileDeleted"; "userTriggered"].

(** [validateHookConfig]; the [typeof] tests hold for a typed record, and
    the [console.error] calls are not traced. *)
Definition validateHookConfig (config : KiroHookConfig) : bool :=
  if JsString.isEmpty (name config) || JsString.isBlank (name config) then false
  else if JsString.isEmpty (hookDescription config) then false
  else if JsString.isEmpty (hookVersion config) then false
  else if JsString.isEmpty (whenType config) then false
  else if negb (existsb (String.eqb (whenType config)) validWhenTypes) then false
  else if Nat.eqb (length (whenPatterns config)) 0 then false
  else if JsString.isEmpty (thenType config) then false
  else if negb (String.eqb (thenType config) "askAgent") then false
  else if JsString.isEmpty (thenPrompt config) || JsString.isBlank (thenPrompt config)
       then false
  else true.

(** The read-back of lines 186-192 of [createHook]; it throws on a
    mismatch. *)
Definition verifyHook (config : KiroHookConfig) : H unit :=
  let* parsedConfig := fsReadHook in
  match parsedConfig with
  | JNull => throw "Cannot read properties of null"
  | _ =>
      match Js.member parsedConfig "name" with
      | Some (JStr written) =>
          if JsString.isEmpty written || negb (String.eqb written (name config))
          then throw "Hook configuration verification failed: content mismatch"
          else ret tt
      | _ => throw "Hook configuration verification failed: content mismatch"
      end
  end.

(** [createHook]; [hookPath] is the fixed, non-empty path. *)
Definition createHook (config : KiroHookConfig) : H unit :=
  tryCatch
    (tryCatch fsMkdir
       (λ errorMsg, throw ("Failed to create hooks directory: " +:+ errorMsg)) ;;
     tryCatch (fsWriteHook (toJson config))
       (λ errorMsg, throw ("Failed to write hook configuration file: " +:+ errorMsg)) ;;
     tryCatch (verifyHook config)
       (λ _, hemit (HookConsole LWarning "Failed to verify written hook configuration:")))
    (λ errorMsg,
       hemit (HookConsole LError "Failed to create hook configuration:") ;;
       throw ("Failed to create hook configuration: " +:+ errorMsg)).

(** [copyMasterServersToWorkspace]: nothing it throws leaves it. *)
Definition copyMasterServersToWorkspace (context : ExtensionContext) : H unit :=
  tryCatch
    (fsMkdir ;;
     match masterServersFile context with
     | Absent => throw "ENOENT: no such file or directory"
     | content =>
         fsWriteReference content ;;
         hemit (HookConsole LInfo "Copied master-servers.json to workspace at:")
     end)
    (λ _, hemit (HookConsole LError "Failed to copy master-servers.json to workspace:")).

(** The shallow check of an existing hook (lines 58-69). *)
Definition checkExistingHook : H unit :=
  tryCatch
    (let* existingConfig := fsReadHook in
     match existingConfig with
     | JNull => throw "Cannot read properties of null"
     | _ =>
         if negb (Js.memberTruthy existingConfig "name")
            || negb (Js.memberTruthy existingConfig "when")
            || negb (Js.memberTruthy existingConfig "then")
         then hemit (HookConsole LWarning "Existing hook configuration is invalid or incomplete")
         else ret tt
     end)
    (λ _, hemit (HookConsole LError "Failed to validate existing hook configuration:")).

(** [ensureHook] *)
Definition ensureHook (context : ExtensionContext) : H unit :=
  tryCatch
    (let* w := getWorld in
     if negb (hookWorkspaceFolder w) then
       hemit (HookConsole LInfo "No workspace folder found, skipping hook creation")
     else
       tryCatch
         (fsAccessHook ;;
          hemit (HookConsole LInfo "Agent hook already exists, skipping creation") ;;
          checkExistingHook)
         (λ _,
            tryCatch
              (hemit (HookConsole LInfo "Creating agent hook configuration") ;;
               copyMasterServersToWorkspace context ;;
               let hookConfig := createHookConfig in
               if negb (validateHookConfig hookConfig) then
                 hemit (HookConsole LError "Generated hook configuration is invalid") ;;
                 hemit (HookNotify LError "Failed to create MCP hook: Generated hook configuration is invalid. Check the output console for details.")
               else
                 createHook hookConfig ;;
                 hemit (HookConsole LInfo "Agent hook created successfully at:") ;;
                 hemit (HookNotify LInfo "MCP Design Analyzer hook created! Please reload the window to activate the hook."))
              (λ _, hemit (HookConsole LError "Failed to create agent hook:"))))
    (λ _, hemit (HookConsole LError "Unexpected error in ensureHook:")).

End HookManager.

(** ** The server view of [extension.ts] *)

Module McpServersProvider.

(** [ServerItem]: the fields the provider and the commands read. The label,
    the icon and the description shown in the tree are functions of these. *)
Record ServerItem := {
  serverId : string;
  server : McpServer;
  isActive : bool
}.

(** [this.tooltip = server.description || serverId] *)
Definition tooltip (item : ServerItem) : string :=
  match description (server item) with
  | Some text => if JsString.isEmpty text then serverId item else text
  | None => serverId item
  end.

(** The two filters of the provider. *)
Record State := {
  filterText : string;
  showActiveOnly : bool
}.

(** The provider as constructed. *)
Definition initial : State := {| filterText := ""; showActiveOnly := false |}.

Definition setFilter (text : string) (this : State) : State :=
  {| filterText := JsString.toLowerCase text; showActiveOnly := showActiveOnly this |}.

Definition setActiveOnlyFilter (activeOnly : bool) (this : State) : State :=
  {| filterText := filterText this; showActiveOnly := activeOnly |}.

(** The callback of the text filter (lines 419-423). *)
Definition matchesText (filterText : string) (item : ServerItem) : bool :=
  JsString.includes filterText (JsString.toLowerCase (serverId item))
  || match description (server item) with
     | Some text =>
         negb (JsString.isEmpty text)
         && JsString.includes filterText (JsString.toLowerCase text)
     | None => false
     end
  || match tags (server item) with
     | Some labels =>
         existsb (λ tag, JsString.includes filterText (JsString.toLowerCase tag)) labels
     | None => false
     end.

(** The callback of lines 408-410, for a document whose [mcpServers] is
    [active]: [new ServerItem(serverId, server, serverId in active)]. *)
Definition itemOf (active : gmap string McpServer)
    (entry : string * McpServer) : ServerItem :=
  {| serverId := entry.1; server := entry.2;
     isActive := bool_decide (entry.1 ∈ dom active) |}.

(** [getChildren]. The entries of the catalog are taken in the order of
    [map_to_list] (the order of [Object.entries] is not modelled).
    [serverId in currentConfig.mcpServers] throws when the document has no
    [mcpServers] object; it is evaluated once per catalog entry, so an empty
    catalog does not reach it. As everywhere, an object is the map of its own
    members: identifiers that name a member every object inherits
    ([constructor], [toString], ...) are outside the model. *)
Definition getChildren (this : State) (context : ExtensionContext)
    : M (list ServerItem) :=
  tryCatch
    (let* masterServers := Extension.loadMasterServers context in
     let* currentConfig := Extension.loadWorkspaceMcpConfig in
     match servers masterServers with
     | None => throw "Cannot convert undefined or null to object"
     | Some catalog =>
         let* items :=
           match mcpServers currentConfig with
           | Some active => ret (map (itemOf active) (map_to_list catalog))
           | None =>
               if Nat.eqb (size catalog) 0 then ret []
               else throw "Cannot use 'in' operator to search for a key in undefined"
           end in
         let activeItems :=
           if showActiveOnly this then List.filter isActive items else items in
         ret (if JsString.isEmpty (filterText this) then activeItems
              else List.filter (matchesText (filterText this)) activeItems)
     end)
    (λ _, emit (Console LError "Error loading servers:") ;; ret []).

End McpServersProvider.

(** ** The commands registered by [activate] ([extension.ts]) *)

Module Commands.

(** The modal questions of the commands, by their text. *)
Inductive Question :=
| AskLoadGroup (groupName : string) (serverIds : list string)
| AskLoadRecommended (count : nat).

(** The messages of the commands, by their text. *)
Inductive Told :=
| Refreshed
| GroupLoaded (groupName : string)
| ServerToggled (serverId action : string)
| NoneRecommended
| ServersLoaded (count : nat)
| LoadFailed (error : string).

Inductive CommandEvent :=
| Asked (question : Question)
| Shown (level : Level) (message : Told)
| RefreshGrouped
| RefreshServers.

(** The host of the commands: the workspace of the configuration functions,
    what the user answers to the coming modal questions ([None]: dismissed;
    past the end of the list every question is dismissed), and the trace of
    the commands. *)
Record CommandWorld := {
  host : World;
  replies : list (option string);
  shown : list CommandEvent
}.

Definition C (A : Type) : Type := Run CommandWorld A.

Definition crecord (e : CommandEvent) (w : CommandWorld) : CommandWorld :=
  {| host := host w; replies := replies w; shown := e :: shown w |}.

Definition cemit (e : CommandEvent) : C unit := λ w, (Ok tt, crecord e w).

(** A configuration function run by a command. *)
Definition onHost {A} (m : M A) : C A :=
  λ w, let '(r, h) := m (host w) in
       (r, {| host := h; replies := replies w; shown := shown w |}).

(** [await vscode.window.showWarningMessage(text, { modal: true }, ...)] *)
Definition ask (question : Question) : C (option string) :=
  λ w, match replies w with
       | [] => (Ok None, crecord (Asked question) w)
       | reply :: rest =>
           (Ok reply,
            {| host := host w; replies := rest;
               shown := Asked question :: shown w |})
       end.

(** [groupedProvider.refresh(); serversProvider.refresh();] *)
Definition refreshViews : C unit := cemit RefreshGrouped ;; cemit RefreshServers.

(** [zenMcp.refresh] *)
Definition refreshCommand : C unit :=
  refreshViews ;; cemit (Shown LInfo Refreshed).

(** [zenMcp.loadGroup], for [item.group] *)
Definition loadGroupCommand (group : ServerGroup) (context : ExtensionContext)
    : C unit :=
  let* result := ask (AskLoadGroup (groupName group) (groupServers group)) in
  match result with
  | Some button =>
      if String.eqb button "Yes, Load Group" then
        onHost (Extension.loadServerGroup group context) ;;
        refreshViews ;;
        cemit (Shown LInfo (GroupLoaded (groupName group)))
      else ret tt
  | None => ret tt
  end.

(** [zenMcp.toggleServer] *)
Definition toggleServerCommand (item : McpServersProvider.ServerItem) : C unit :=
  onHost (Extension.toggleServer (McpServersProvider.serverId item)
            (McpServersProvider.server item)) ;;
  refreshViews ;;
  cemit (Shown LInfo
           (ServerToggled (McpServersProvider.serverId item)
              (if McpServersProvider.isActive item then "removed" else "added"))).


End Commands.

(** ** The environment file of the workspace ([extension.ts]) *)

(** What a [writeFile] of a text or template file does: it resolves, or it
    throws, after truncating the file when [truncated]. *)
Inductive PlainWrite :=
| Written
| Refused (reason : string) (truncated : bool).

Module EnvVarsFile.

Inductive EnvEvent :=
| EnvConsole (level : Level) (text : string)
| EnvNotify (level : Level) (text : string)
| EnvMkdir
| WriteEnvVars (config : EnvVarsConfig)
| OpenDocument.

(** The workspace as these functions see it: [env-vars.json], the template
    bundled under [extensionPath], and the scripts of the coming [mkdir] and
    [writeFile] calls. *)
Record EnvWorld := {
  envWorkspaceFolder : bool;
  workspaceEnvVars : File EnvVarsConfig;
  templateFile : File EnvVarsConfig;
  envMkdirScript : list (option string);
  envWriteScript : list PlainWrite;
  envEvents : list EnvEvent
}.

Definition E (A : Type) : Type := Run EnvWorld A.

Definition erecord (e : EnvEvent) (w : EnvWorld) : EnvWorld :=
  {| envWorkspaceFolder := envWorkspaceFolder w;
     workspaceEnvVars := workspaceEnvVars w; templateFile := templateFile w;
     envMkdirScript := envMkdirScript w; envWriteScript := envWriteScript w;
     envEvents := e :: envEvents w |}.

Definition eemit (e : EnvEvent) : E unit := λ w, (Ok tt, erecord e w).

Definition setWorkspaceEnvVars (f : File EnvVarsConfig) (w : EnvWorld) : EnvWorld :=
  {| envWorkspaceFolder := envWorkspaceFolder w;
     workspaceEnvVars := f; templateFile := templateFile w;
     envMkdirScript := envMkdirScript w; envWriteScript := envWriteScript w;
     envEvents := envEvents w |}.

Definition setEnvMkdirScript (s : list (option string)) (w : EnvWorld) : EnvWorld :=
  {| envWorkspaceFolder := envWorkspaceFolder w;
     workspaceEnvVars := workspaceEnvVars w; templateFile := templateFile w;
     envMkdirScript := s; envWriteScript := envWriteScript w;
     envEvents := envEvents w |}.

Definition setEnvWriteScript (s : list PlainWrite) (w : EnvWorld) : EnvWorld :=
  {| envWorkspaceFolder := envWorkspaceFolder w;
     workspaceEnvVars := workspaceEnvVars w; templateFile := templateFile w;
     envMkdirScript := envMkdirScript w; envWriteScript := s;
     envEvents := envEvents w |}.

(** [fs.promises.mkdir(dir, { recursive: true })] *)
Definition fsMkdir : E unit :=
  λ w, match envMkdirScript w with
       | [] => (Ok tt, erecord EnvMkdir w)
       | None :: script => (Ok tt, erecord EnvMkdir (setEnvMkdirScript script w))
       | Some reason :: script => (Thrown reason, setEnvMkdirScript script w)
       end.

(** [fs.promises.writeFile(envPath, JSON.stringify(config, null, 2))] *)
Definition fsWriteEnvVars (config : EnvVarsConfig) : E unit :=
  λ w, let w := erecord (WriteEnvVars config) w in
       match envWriteScript w with
       | [] => (Ok tt, setWorkspaceEnvVars (Holds config) w)
       | Written :: script =>
           (Ok tt, setWorkspaceEnvVars (Holds config) (setEnvWriteScript script w))
       | Refused reason truncated :: script =>
           (Thrown reason,
            if truncated then setWorkspaceEnvVars Corrupt (setEnvWriteScript script w)
            else setEnvWriteScript script w)
       end.

(** [fs.promises.access(envPath)] *)
Definition fsAccessEnvVars : E unit :=
  λ w, match workspaceEnvVars w with
       | Absent => (Thrown "ENOENT: no such file or directory", w)
       | _ => (Ok tt, w)
       end.

(** [loadEnvVarsTemplate] *)
Definition loadEnvVarsTemplate : E EnvVarsConfig :=
  λ w, match templateFile w with
       | Absent => (Thrown "ENOENT: no such file or directory", w)
       | Corrupt => (Thrown "Unexpected end of JSON input", w)
       | Holds template => (Ok template, w)
       end.

(** [saveWorkspaceEnvVars] *)
Definition saveWorkspaceEnvVars (config : EnvVarsConfig) : E unit :=
  let* w := getWorld in
  if negb (envWorkspaceFolder w) then throw "No workspace folder found"
  else
    tryCatch (fsMkdir ;; fsWriteEnvVars config)
      (λ errorMsg,
         eemit (EnvConsole LError "Failed to save env vars config:") ;;
         throw errorMsg).

(** [ensureEnvVarsConfig] *)
Definition ensureEnvVarsConfig : E unit :=
  let* w := getWorld in
  if negb (envWorkspaceFolder w) then ret tt
  else
    tryCatch fsAccessEnvVars
      (λ _,
         tryCatch
           (let* template := loadEnvVarsTemplate in
            saveWorkspaceEnvVars template ;;
            eemit (EnvConsole LInfo "Created env-vars.json from template"))
           (λ _, eemit (EnvConsole LError "Failed to create env-vars.json:"))).

(** [vscode.workspace.openTextDocument(envPath)] followed by
    [vscode.window.showTextDocument(document)]; the editor opens any file
    that exists, whatever its text. *)
Definition openEnvVars : E unit :=
  λ w, match workspaceEnvVars w with
       | Absent => (Thrown "cannot open env-vars.json: file not found", w)
       | _ => (Ok tt, erecord OpenDocument w)
       end.

(** The command [zenMcp.manageEnvVars]. The text of the error message ends
    with the error, which is left out. *)
Definition manageEnvVarsCommand : E unit :=
  let* w := getWorld in
  if negb (envWorkspaceFolder w) then
    eemit (EnvNotify LError "No workspace folder found")
  else
    tryCatch
      (tryCatch fsAccessEnvVars
         (λ _,
            let* template := loadEnvVarsTemplate in
            saveWorkspaceEnvVars template) ;;
       openEnvVars ;;
       eemit (EnvNotify LInfo "Edit your environment variables and save the file. Changes will be applied when servers are loaded."))
      (λ _, eemit (EnvNotify LError "Failed to open env-vars.json: ")).

End EnvVarsFile.

(** ** The check of [.gitignore] ([extension.ts]) *)

Module Gitignore.

Definition LF : string := String "010" EmptyString.

(** The notifications of the check, by their text. *)
Inductive Notice :=
| SettingsNotIgnored
| NoGitignoreFound
| AddedToGitignore
| CreatedGitignore.

Inductive GitEvent :=
| GitNotify (level : Level) (notice : Notice)
| WriteGitignore (content : string).

(** The workspace as the check sees it: the text of [.gitignore] ([None]
    when there is no such file), the script of the coming [writeFile] calls,
    and what the user answers to the coming warnings ([None]: the warning is
    dismissed); past its end every warning is dismissed. *)
Record GitWorld := {
  gitWorkspaceFolder : bool;
  gitignoreFile : option string;
  gitWriteScript : list PlainWrite;
  answers : list (option string);
  gitEvents : list GitEvent
}.

Definition G (A : Type) : Type := Run GitWorld A.

Definition grecord (e : GitEvent) (w : GitWorld) : GitWorld :=
  {| gitWorkspaceFolder := gitWorkspaceFolder w; gitignoreFile := gitignoreFile w;
     gitWriteScript := gitWriteScript w; answers := answers w;
     gitEvents := e :: gitEvents w |}.

Definition setGitignoreFile (f : option string) (w : GitWorld) : GitWorld :=
  {| gitWorkspaceFolder := gitWorkspaceFolder w; gitignoreFile := f;
     gitWriteScript := gitWriteScript w; answers := answers w;
     gitEvents := gitEvents w |}.

Definition setGitWriteScript (s : list PlainWrite) (w : GitWorld) : GitWorld :=
  {| gitWorkspaceFolder := gitWorkspaceFolder w; gitignoreFile := gitignoreFile w;
     gitWriteScript := s; answers := answers w;
     gitEvents := gitEvents w |}.

Definition setAnswers (a : list (option string)) (w : GitWorld) : GitWorld :=
  {| gitWorkspaceFolder := gitWorkspaceFolder w; gitignoreFile := gitignoreFile w;
     gitWriteScript := gitWriteScript w; answers := a;
     gitEvents := gitEvents w |}.

(** [await vscode.window.showWarningMessage(...)]: the chosen button. *)
Definition showWarningMessage (notice : Notice) : G (option string) :=
  λ w, let w := grecord (GitNotify LWarning notice) w in
       match answers w with
       | [] => (Ok None, w)
       | answer :: rest => (Ok answer, setAnswers rest w)
       end.

Definition showInformationMessage (notice : Notice) : G unit :=
  λ w, (Ok tt, grecord (GitNotify LInfo notice) w).

(** [fs.promises.access(gitignorePath)] *)
Definition fsAccessGitignore : G unit :=
  λ w, match gitignoreFile w with
       | None => (Thrown "ENOENT: no such file or directory", w)
       | Some _ => (Ok tt, w)
       end.

(** [fs.promises.readFile(gitignorePath, 'utf8')] *)
Definition fsReadGitignore : G string :=
  λ w, match gitignoreFile w with
       | None => (Thrown "ENOENT: no such file or directory", w)
       | Some content => (Ok content, w)
       end.

(** [fs.promises.writeFile(gitignorePath, content, 'utf8')] *)
Definition fsWriteGitignore (content : string) : G unit :=
  λ w, let w := grecord (WriteGitignore content) w in
       match gitWriteScript w with
       | [] => (Ok tt, setGitignoreFile (Some content) w)
       | Written :: script =>
           (Ok tt, setGitignoreFile (Some content) (setGitWriteScript script w))
       | Refused reason truncated :: script =>
           (Thrown reason,
            if truncated then setGitignoreFile (Some "") (setGitWriteScript script w)
            else setGitWriteScript script w)
       end.

Definition envVarsPath : string := ".kiro/settings/env-vars.json".
Definition mcpPath : string := ".kiro/settings/mcp.json".
Definition settingsFolder : string := ".kiro/settings".

(** [gitignoreContent.split('\n').map(line => line.trim())] *)
Definition linesOf (gitignoreContent : string) : list string :=
  map JsString.trim (JsString.split "010" gitignoreContent).

(** The tests of lines 658-672. *)
Definition hasEnvVarsIgnore (lines : list string) : bool :=
  existsb (λ line,
             String.eqb line envVarsPath
             || String.eqb line settingsFolder
             || String.eqb line ".kiro/settings/"
             || String.eqb line ".kiro/settings/*"
             || JsString.includes "env-vars.json" line)
          lines.

Definition hasMcpIgnore (lines : list string) : bool :=
  existsb (λ line,
             String.eqb line mcpPath
             || String.eqb line settingsFolder
             || String.eqb line ".kiro/settings/"
             || String.eqb line ".kiro/settings/*"
             || JsString.includes "mcp.json" line)
          lines.

(** The text [createGitignore] writes. *)
Definition createdContent : string :=
  "# Kiro MCP Manager - Sensitive configuration files" +:+ LF +:+
  ".kiro/settings/" +:+ LF.

(** [createGitignore] *)
Definition createGitignore : G unit := fsWriteGitignore createdContent.

(** The text [addToGitignore] makes of the text it read (lines 712-718). *)
Definition appendedContent (content entry : string) : string :=
  (if JsString.endsWith LF content then content else content +:+ LF)
  +:+ LF +:+ "# Kiro MCP Manager - Sensitive configuration files" +:+ LF
  +:+ entry +:+ "/" +:+ LF.

(** [addToGitignore] *)
Definition addToGitignore (entry : string) : G unit :=
  let* content := fsReadGitignore in
  fsWriteGitignore (appendedContent content entry).

(** The handler of the outer [catch] (lines 686-698). *)
Definition offerToCreate : G unit :=
  let* result := showWarningMessage NoGitignoreFound in
  match result with
  | Some button =>
      if String.eqb button "Create .gitignore" then
        createGitignore ;;
        showInformationMessage CreatedGitignore
      else ret tt
  | None => ret tt
  end.

(** [checkGitignoreSecurity]. The handler also runs for what the [try]
    block throws after the file was read. *)
Definition checkGitignoreSecurity : G unit :=
  let* w := getWorld in
  if negb (gitWorkspaceFolder w) then ret tt
  else
    tryCatch
      (fsAccessGitignore ;;
       let* gitignoreContent := fsReadGitignore in
       let lines := linesOf gitignoreContent in
       if negb (hasEnvVarsIgnore lines) || negb (hasMcpIgnore lines) then
         let* result := showWarningMessage SettingsNotIgnored in
         match result with
         | Some button =>
             if String.eqb button "Add to .gitignore" then
               addToGitignore settingsFolder ;;
               showInformationMessage AddedToGitignore
             else ret tt
         | None => ret tt
         end
       else ret tt)
      (λ _, offerToCreate).

End Gitignore.

(** ** The merges over an unchecked [variables] object *)

(** [env-vars.json] is edited by hand, and neither reader checks the values
    of its [variables] object before it is passed to
    [mergeEnvironmentVariables] as a [Record<string, string>]. Here that
    object is what [JSON.parse] returned: its values are of any JSON type, and
    a name that is not among its members may still be one every object
    inherits. The catalog, bundled with the extension, stays under its
    interface. *)
Module Unchecked.

(** [envVars[key]] *)
Inductive Lookup :=
| Member (value : Json)
| InheritedMember
| Undefined.

Definition lookup (envVars : gmap string Json) (key : string) : Lookup :=
  match envVars !! key with
  | Some value => Member value
  | None => if Js.inherited key then InheritedMember else Undefined
  end.

(** [serverLoader.ts], lines 659-666: the workspace value is used when it
    is truthy, is a string and is not blank. *)
Definition loaderValue (envVars : gmap string Json)
    (key defaultValue : string) : string :=
  match lookup envVars key with
  | Member (JStr provided) =>
      if negb (JsString.isEmpty provided) && negb (JsString.isBlank provided)
      then provided
      else cleanedDefault defaultValue
  | _ => cleanedDefault defaultValue
  end.

(** [ServerLoader.mergeEnvironmentVariables] *)
Definition loaderMerge (server : McpServer) (envVars : gmap string Json)
    : McpServer :=
  match env server with
  | None => server
  | Some declared =>
      if Nat.eqb (size declared) 0 then server
      else
        withEnv server
          (foldl (λ mergedEnv '(key, defaultValue),
                    if JsString.isEmpty key then mergedEnv
                    else <[key := loaderValue envVars key defaultValue]> mergedEnv)
                 declared (map_to_list declared))
  end.

(** [extension.ts], lines 559-564: [envVars[key] && envVars[key].trim() !== '']
    calls [trim] on every truthy value, and only a string has it. *)
Definition extensionValue (envVars : gmap string Json)
    (key defaultValue : string) : Result string :=
  match lookup envVars key with
  | Member (JStr provided) =>
      Ok (if negb (JsString.isEmpty provided) && negb (JsString.isBlank provided)
          then provided
          else cleanedDefault defaultValue)
  | Member value =>
      if Js.truthy value then Thrown "envVars[key].trim is not a function"
      else Ok (cleanedDefault defaultValue)
  | InheritedMember => Thrown "envVars[key].trim is not a function"
  | Undefined => Ok (cleanedDefault defaultValue)
  end.

(** One round of the loop of [extension.ts]; an exception ends the loop. *)
Definition extensionStep (envVars : gmap string Json)
    (state : Result (gmap string string)) (entry : string * string)
    : Result (gmap string string) :=
  match state with
  | Thrown errorMsg => Thrown errorMsg
  | Ok mergedEnv =>
      match extensionValue envVars entry.1 entry.2 with
      | Ok value => Ok (<[entry.1 := value]> mergedEnv)
      | Thrown errorMsg => Thrown errorMsg
      end
  end.

(** [mergeEnvironmentVariables] of [extension.ts] *)
Definition extensionMerge (server : McpServer) (envVars : gmap string Json)
    : Result McpServer :=
  match env server with
  | None => Ok server
  | Some declared =>
      if Nat.eqb (size declared) 0 then Ok server
      else
        match foldl (extensionStep envVars) (Ok declared) (map_to_list declared) with
        | Ok mergedEnv => Ok (withEnv server mergedEnv)
        | Thrown errorMsg => Thrown errorMsg
        end
  end.

End Unchecked.

(** * Vocabulary of the statements *)

Definition CR : string := String "013" EmptyString.

(** One round of the loops over [Object.entries(server.env)]: the entry is
    left alone when [skip key], and set to [f key d] otherwise. *)
Definition mergeStep {V : Type} (f : string → V → V) (skip : string → bool)
    (acc : gmap string V) (entry : string * V) : gmap string V :=
  let '(key, d) := entry in
  if skip key then acc else <[key := f key d]> acc.

(** The fallback value in the words of the design document: the prefix
    [Default: ] (label and one space) and the trailing carriage returns are
    removed. *)
Fixpoint dropTrailingCRs (s : string) : string :=
  match s with
  | EmptyString => EmptyString
  | String c rest =>
      match dropTrailingCRs rest with
      | EmptyString => if Ascii.eqb c "013" then EmptyString else String c EmptyString
      | kept => String c kept
      end
  end.

Definition claimedDefault (defaultValue : string) : string :=
  dropTrailingCRs
    (match JsString.dropPrefix "Default: " defaultValue with
     | Some rest => rest
     | None => defaultValue
     end).

Definition claimedValue (envVars : gmap string string)
    (key defaultValue : string) : string :=
  match envVars !! key with
  | Some provided =>
      if JsString.isBlank provided then claimedDefault defaultValue else provided
  | None => claimedDefault defaultValue
  end.

(** The value the merge stores for a declared variable with catalog default
    [defaultValue]: the workspace value when there is one that is not blank,
    and else the default after the two replacements of the code. *)
Definition effectiveValue (envVars : gmap string string)
    (key defaultValue : string) : string :=
  match envVars !! key with
  | Some provided =>
      if JsString.isBlank provided then cleanedDefault defaultValue else provided
  | None => cleanedDefault defaultValue
  end.

(** A server that declares variables [declared] and nothing else. *)
Definition serverDeclaring (declared : gmap string string) : McpServer :=
  {| command := Some "uvx"; args := None; env := Some declared;
     description := None; tags := None; httpUrl := None; headers := None |}.

(** *** Observations on a run *)

Definition addEvents (evs : list Event) (w : World) : World := foldr record w evs.

(** The documents handed to [writeFile], latest first. *)
Definition mcpWrites (evs : list Event) : list McpConfig :=
  omap (λ e, match e with WriteMcp config => Some config | _ => None end) evs.

Definition isSuccessNotice (e : Event) : bool :=
  match e with
  | Notify _ (LoadedServers _ _) => true
  | _ => false
  end.

Definition isFailureNotice (e : Event) : bool :=
  match e with
  | Notify LError _ | Notify LWarning _ => true
  | _ => false
  end.

Definition isThrown {A} (r : Result A) : Prop :=
  match r with
  | Thrown _ => True
  | Ok _ => False
  end.

(** The server keys of a configuration and of the persisted document. *)
Definition configKeys (config : McpConfig) : gset string :=
  dom (default ∅ (mcpServers config)).

Definition persistedKeys (f : File McpConfig) : gset string :=
  match f with
  | Holds config => configKeys config
  | _ => ∅
  end.

(** The catalog a context provides; empty when the file cannot be used. *)
Definition catalogOf (context : ExtensionContext) : gmap string McpServer :=
  match masterServersFile context with
  | Holds parsed => default ∅ (servers parsed)
  | _ => ∅
  end.

(** The workspace variables the loader merges with. *)
Definition loaderVariables (w : World) : gmap string string :=
  if workspaceFolder w then
    match envVarsFile w with
    | Holds parsed => default ∅ (variables parsed)
    | _ => ∅
    end
  else ∅.

(** What the loader reads as the current configuration before it writes
    (the snapshot of the rollback). *)
Definition snapshotOf (w : World) : McpConfig :=
  mcpConfigOf
    (if workspaceFolder w then
       match mcpFile w with
       | Holds parsed => default ∅ (mcpServers parsed)
       | _ => ∅
       end
     else ∅).

(** The next [mkdir] succeeds; the next [writeFile] leaves the text it was
    given. *)
Definition mkdirSucceeds (script : list (option string)) : bool :=
  match script with
  | Some _ :: _ => false
  | _ => true
  end.

Definition writeLands (script : list WriteOutcome) : bool :=
  match script with
  | [] | Lands :: _ => true
  | _ => false
  end.

Definition writeRejected (script : list WriteOutcome) : bool :=
  match script with
  | Rejects _ _ :: _ => true
  | _ => false
  end.

(** No coming write is overtaken by foreign content. *)
Definition honest (script : list WriteOutcome) : Prop :=
  ∀ found, LandsAs found ∉ script.

(** The read-back of the writer disagrees with what was written: the file
    is missing or does not parse, has no [mcpServers] object, or has another
    number of entries. *)
Definition readBackMismatch (found : File McpConfig)
    (expected : gmap string McpServer) : bool :=
  match found with
  | Absent | Corrupt => true
  | Holds parsed =>
      match mcpServers parsed with
      | None => true
      | Some written => negb (Nat.eqb (size written) (size expected))
      end
  end.

(** *** Recommendations *)

(** The test [validateServerIds] applies to one identifier. *)
Definition passesId (catalog : gmap string McpServer) (id : string) : bool :=
  negb (JsString.isEmpty id || JsString.isBlank id)
  && match catalog !! id with Some _ => true | None => Js.inherited id end.

Definition itemsOf (recommendations : Json) : list Json :=
  match recommendations with
  | JArr items => items
  | _ => []
  end.

(** The identifiers that reach the build loop: [validServerIds] of line 111
    for a usable catalog. *)
Definition validIdsOf (recommendations : Json)
    (catalog : gmap string McpServer) : list string :=
  (ServerLoader.validateServerIds
     (map ServerLoader.serverIdOf
        (List.filter ServerLoader.isValidRecommendation (itemsOf recommendations)))
     catalog).1.

(** The identifiers in the words of the claim: those of the records whose
    [serverId] is a non-empty string, looked up in the catalog. *)
Definition claimedIds (recommendations : Json)
    (catalog : gmap string McpServer) (id : string) : Prop :=
  ∃ r, r ∈ itemsOf recommendations ∧
       Js.member r "serverId" = Some (JStr id) ∧ id ≠ "" ∧
       is_Some (catalog !! id).

(** The identifiers the loader accepts: those of the records that carry a
    string [serverId] that is not blank and a non-empty string [reason], looked
    up in the catalog. *)
Definition accepted (recommendations : Json)
    (catalog : gmap string McpServer) (id : string) : Prop :=
  ∃ r reason, r ∈ itemsOf recommendations ∧
              Js.member r "serverId" = Some (JStr id) ∧
              JsString.trim id ≠ "" ∧
              Js.member r "reason" = Some (JStr reason) ∧ reason ≠ "" ∧
              is_Some (catalog !! id).

(** The catalog file parses to an empty [servers] object. *)
Definition emptyCatalog (context : ExtensionContext) : bool :=
  match masterServersFile context with
  | Holds parsed =>
      match servers parsed with
      | Some catalog => Nat.eqb (size catalog) 0
      | None => false
      end
  | _ => false
  end.

(** The write of the new configuration throws: there is no workspace
    folder, or [mkdir] fails, or [writeFile] rejects. *)
Definition writeStepFails (w : World) : bool :=
  negb (workspaceFolder w) || negb (mkdirSucceeds (mkdirScript w))
  || writeRejected (writeScript w).

(** After such a failure the write of the snapshot goes through and leaves
    the text it was given. *)
Definition rollbackLands (w : World) : bool :=
  workspaceFolder w && mkdirSucceeds (tail (mkdirScript w))
  && writeLands (if mkdirSucceeds (mkdirScript w) then tail (writeScript w)
                 else writeScript w).

(** *** Sample data *)

Definition awsDocs : McpServer :=
  {| command := Some "uvx";
     args := Some ["awslabs.aws-documentation-mcp-server@latest"];
     env := Some {["FASTMCP_LOG_LEVEL" := "Default: ERROR" +:+ CR]};
     description := Some "AWS documentation search";
     tags := Some ["aws"; "docs"];
     httpUrl := None; headers := None |}.

Definition github : McpServer :=
  {| command := Some "npx";
     args := Some ["-y"; "@modelcontextprotocol/server-github"];
     env := Some {["GITHUB_PERSONAL_ACCESS_TOKEN" := "Default: "]};
     description := Some "GitHub repositories";
     tags := Some ["git"];
     httpUrl := None; headers := None |}.

(** A server someone added to [mcp.json] by hand. *)
Definition handMade : McpServer :=
  {| command := Some "node"; args := Some ["./tools/server.js"]; env := None;
     description := None; tags := None; httpUrl := None; headers := None |}.

Definition sampleCatalog : gmap string McpServer :=
  {["aws-docs" := awsDocs; "github" := github]}.

Definition sampleContext : ExtensionContext :=
  {| masterServersFile := Holds {| servers := Some sampleCatalog |} |}.

(** [{ "serverId": serverId, "reason": reason }] *)
Definition recommend (serverId reason : string) : Json :=
  JObj [("serverId", JStr serverId); ("reason", JStr reason)].

(** A workspace whose [mcp.json] is [f], with no [env-vars.json], where the
    coming writes go as [script] says. *)
Definition workspaceWith (f : File McpConfig) (script : list WriteOutcome) : World :=
  {| workspaceFolder := true; envVarsFile := Absent; mcpFile := f;
     mkdirScript := []; writeScript := script; events := [] |}.

(** *** The commands of [extension.ts] *)

(** What [loadWorkspaceEnvVars] of [extension.ts] returns. *)
Definition extensionEnvVars (w : World) : EnvVarsConfig :=
  if workspaceFolder w then
    match envVarsFile w with
    | Holds parsed => parsed
    | _ => defaultEnvVarsConfig
    end
  else defaultEnvVarsConfig.

(** What [loadWorkspaceMcpConfig] of [extension.ts] returns. *)
Definition currentConfigOf (w : World) : McpConfig :=
  if workspaceFolder w then
    match mcpFile w with
    | Holds parsed => parsed
    | _ => mcpConfigOf ∅
    end
  else mcpConfigOf ∅.

(** The effective definition of a server: each declared variable is given
    its [effectiveValue]. *)
Definition effectiveServer (server : McpServer) (envVars : gmap string string) : McpServer :=
  match env server with
  | Some declared =>
      withEnv server (map_imap (λ key d, Some (effectiveValue envVars key d)) declared)
  | None => server
  end.

(** A fresh build from a list of identifiers: the catalog entries of the
    listed identifiers, each in its effective definition. *)
Definition freshBuild (serverIds : list string) (catalog : gmap string McpServer)
    (envVars : gmap string string) : gmap string McpServer :=
  (λ server, effectiveServer server envVars)
    <$> filter (λ entry, entry.1 ∈ serverIds) catalog.

(** *** The hook initializer *)

(** The documents handed to [writeFile] for the hook, latest first. *)
Definition hookWrites (evs : list HookManager.HookEvent) : list Json :=
  omap (λ e, match e with HookManager.WriteHook config => Some config | _ => None end) evs.

Definition addHookEvents (evs : list HookManager.HookEvent)
    (w : HookManager.HookWorld) : HookManager.HookWorld :=
  foldr HookManager.hrecord w evs.

(** A workspace without hook document where every coming call succeeds. *)
Definition freshHookWorld : HookManager.HookWorld :=
  {| HookManager.hookWorkspaceFolder := true;
     HookManager.hookFile := Absent;
     HookManager.referenceFile := Absent;
     HookManager.hookMkdirScript := [];
     HookManager.referenceWriteScript := [];
     HookManager.hookWriteScript := [];
     HookManager.hookEvents := [] |}.

Definition coreGroup : ServerGroup :=
  {| groupName := "Core"; groupDescription := "Core servers";
     groupServers := ["aws-docs"; "github"]; icon := "package" |}.

(** *** What the user is shown *)

(** The notifications among the events of the workspace, latest first. *)
Definition notices (evs : list Event) : list (Level * Message) :=
  omap (λ e, match e with Notify level message => Some (level, message) | _ => None end) evs.

(** The notifications of the hook manager, latest first. *)
Definition hookNotices (evs : list HookManager.HookEvent) : list (Level * string) :=
  omap (λ e, match e with
             | HookManager.HookNotify level text => Some (level, text)
             | _ => None
             end) evs.

(** The notification of a created hook. *)
Definition hookCreatedNotice : Level * string :=
  (LInfo, "MCP Design Analyzer hook created! Please reload the window to activate the hook.").

(** The next [writeFile] of the hook document resolves and leaves the text
    it was given. *)
Definition hookWriteLands (script : list (HookManager.HookWriteOutcome Json)) : bool :=
  match script with
  | [] | HookManager.HookLands :: _ => true
  | _ => false
  end.

(** *** Server definitions *)

(** [merged] is [server] up to the values of its environment variables. *)
Definition sameShape (merged server : McpServer) : Prop :=
  command merged = command server ∧
  args merged = args server ∧
  description merged = description server ∧
  tags merged = tags server ∧
  httpUrl merged = httpUrl server ∧
  headers merged = headers server ∧
  dom <$> env merged = dom <$> env server.

(** *** The command handlers *)

(** A host of the commands over the workspace [h], where the user answers
    the coming questions as listed. *)
Definition commandHost (h : World) (answers : list (option string))
    : Commands.CommandWorld :=
  {| Commands.host := h; Commands.replies := answers; Commands.shown := [] |}.

(** *** The server view *)

(** [part] occurs in [s]. *)
Definition occursIn (part s : string) : Prop :=
  ∃ before after, s = before +:+ part +:+ after.

(** The filter text is found, whatever the case of the letters, in the
    identifier of a server, in its description or in one of its tags. *)
Definition mentions (text id : string) (definition : McpServer) : Prop :=
  occursIn (JsString.toLowerCase text) (JsString.toLowerCase id)
  ∨ (∃ about, description definition = Some about ∧
              occursIn (JsString.toLowerCase text) (JsString.toLowerCase about))
  ∨ (∃ labels tag, tags definition = Some labels ∧ tag ∈ labels ∧
                   occursIn (JsString.toLowerCase text) (JsString.toLowerCase tag)).

(** *** The environment file *)

(** The configurations handed to [writeFile] for [env-vars.json], latest
    first. *)
Definition envWrites (evs : list EnvVarsFile.EnvEvent) : list EnvVarsConfig :=
  omap (λ e, match e with EnvVarsFile.WriteEnvVars config => Some config | _ => None end) evs.

(** The number of directories made. *)
Definition envMkdirs (evs : list EnvVarsFile.EnvEvent) : nat :=
  length (List.filter (λ e, match e with EnvVarsFile.EnvMkdir => true | _ => false end) evs).

(** What the functions of the environment file show to the user, latest
    first. *)
Definition envNotices (evs : list EnvVarsFile.EnvEvent) : list (Level * string) :=
  omap (λ e, match e with
             | EnvVarsFile.EnvNotify level text => Some (level, text)
             | _ => None
             end) evs.

(** The number of times the file was opened in the editor. *)
Definition envOpened (evs : list EnvVarsFile.EnvEvent) : nat :=
  length (List.filter (λ e, match e with EnvVarsFile.OpenDocument => true | _ => false end) evs).

(** The next [writeFile] of a text or template file resolves. *)
Definition plainWriteLands (script : list PlainWrite) : bool :=
  match script with
  | Refused _ _ :: _ => false
  | _ => true
  end.

(** A workspace without [env-vars.json], with the bundled template
    [template], where every coming call succeeds. *)
Definition freshEnvWorld (template : File EnvVarsConfig) : EnvVarsFile.EnvWorld :=
  {| EnvVarsFile.envWorkspaceFolder := true;
     EnvVarsFile.workspaceEnvVars := Absent;
     EnvVarsFile.templateFile := template;
     EnvVarsFile.envMkdirScript := [];
     EnvVarsFile.envWriteScript := [];
     EnvVarsFile.envEvents := [] |}.

(** *** The check of [.gitignore] *)

(** The texts handed to [writeFile] for [.gitignore], latest first. *)
Definition gitWrites (evs : list Gitignore.GitEvent) : list string :=
  omap (λ e, match e with Gitignore.WriteGitignore content => Some content | _ => None end) evs.

(** Both tests of the check pass on the text: no warning is due. *)
Definition protected (content : string) : bool :=
  Gitignore.hasEnvVarsIgnore (Gitignore.linesOf content)
  && Gitignore.hasMcpIgnore (Gitignore.linesOf content).

(** The button that accepts the offer the check makes in a workspace. *)
Definition acceptingButton (w : Gitignore.GitWorld) : string :=
  match Gitignore.gitignoreFile w with
  | Some _ => "Add to .gitignore"
  | None => "Create .gitignore"
  end.

(** A workspace with the given [.gitignore], where the user answers the
    coming warnings as listed and the coming writes go as [script] says. *)
Definition gitWorkspace (file : option string) (replies : list (option string))
    (script : list PlainWrite) : Gitignore.GitWorld :=
  {| Gitignore.gitWorkspaceFolder := true; Gitignore.gitignoreFile := file;
     Gitignore.gitWriteScript := script; Gitignore.answers := replies;
     Gitignore.gitEvents := [] |}.

(** *** Unchecked variables *)

(** What is left of an unchecked [variables] object under
    [Record<string, string>]: its members that are strings. *)
Definition stringsOf (envVars : gmap string Json) : gmap string string :=
  omap (λ value, match value with JStr text => Some text | _ => None end) envVars.

(** [envVars[key]] is truthy and is no string: the test before [trim]
    passes, and [trim] cannot be called. *)
Definition untrimmable (envVars : gmap string Json) (key : string) : bool :=
  match Unchecked.lookup envVars key with
  | Unchecked.Member (JStr _) => false
  | Unchecked.Member value => Js.truthy value
  | Unchecked.InheritedMember => true
  | Unchecked.Undefined => false
  end.

(** The server declares the variable [key]. *)
Definition declares (server : McpServer) (key : string) : Prop :=
  ∃ declared, env server = Some declared ∧ is_Some (declared !! key).

(** * Properties *)

(** ** The scenarios of the design document, run on the embedding *)

Example trim_both_ends : JsString.trim "  a b  " = "a b".
Proof. reflexivity. Qed.

Example label_without_space :
  JsString.replaceDefaultLabel "Default:eu-west-1" = "eu-west-1".
Proof. reflexivity. Qed.

Example one_final_CR :
  JsString.replaceFinalCR ("x" +:+ CR +:+ CR) = "x" +:+ CR.
Proof. reflexivity. Qed.

Example catalog_default_cleaned :
  env (ServerLoader.mergeEnvironmentVariables awsDocs ∅)
  = Some {["FASTMCP_LOG_LEVEL" := "ERROR"]}.
Proof. vm_compute. reflexivity. Qed.

Example known_and_unknown_recommendation :
  let run := ServerLoader.loadRecommendedServers
               (JArr [recommend "aws-docs" "r1"; recommend "unknown-x" "r2"])
               sampleContext (workspaceWith Absent []) in
  run.1 = Ok 1 ∧
  persistedKeys (mcpFile run.2) = {["aws-docs"]} ∧
  head (events run.2) = Some (Notify LInfo (LoadedServers 1 ["aws-docs"])).
Proof. cbv zeta. repeat split; vm_compute; reflexivity. Qed.

Example group_loaded_over_other_servers :
  persistedKeys
    (mcpFile (Extension.loadServerGroup coreGroup sampleContext
                (workspaceWith (Holds (mcpConfigOf {["legacy" := github]})) [])).2)
  = {["aws-docs"; "github"]}.
Proof. vm_compute. reflexivity. Qed.

Example hook_created_on_first_use :
  hookWrites (HookManager.hookEvents
                (HookManager.ensureHook sampleContext freshHookWorld).2)
  = [HookManager.toJson HookManager.createHookConfig].
Proof. vm_compute. reflexivity. Qed.

(** ** Strings *)

Lemma isEmpty_true (s : string) : JsString.isEmpty s = true ↔ s = "".
Proof. unfold JsString.isEmpty. apply String.eqb_eq. Qed.

Lemma isEmpty_false (s : string) : JsString.isEmpty s = false ↔ s ≠ "".
Proof. unfold JsString.isEmpty. apply String.eqb_neq. Qed.

Lemma isBlank_true (s : string) : JsString.isBlank s = true ↔ JsString.trim s = "".
Proof. unfold JsString.isBlank. apply isEmpty_true. Qed.

Lemma isBlank_false (s : string) : JsString.isBlank s = false ↔ JsString.trim s ≠ "".
Proof. unfold JsString.isBlank. apply isEmpty_false. Qed.

(** An empty string is blank, so the test [v && v.trim() !== ''] of the
    merge is the test [v.trim() !== '']. *)
Lemma isBlank_empty (s : string) : JsString.isEmpty s = true → JsString.isBlank s = true.
Proof. intros ->%isEmpty_true. reflexivity. Qed.

Lemma provided_test (v : string) :
  negb (JsString.isEmpty v) && negb (JsString.isBlank v) = negb (JsString.isBlank v).
Proof.
  destruct (JsString.isEmpty v) eqn:He; [|reflexivity].
  by rewrite (isBlank_empty _ He).
Qed.

(** ** The merge loop *)

Section merge_loop.
Context {V : Type} (f : string → V → V) (skip : string → bool).

Lemma mergeStep_other (l : list (string * V)) (m : gmap string V) (k : string) :
  k ∉ l.*1 → foldl (mergeStep f skip) m l !! k = m !! k.
Proof.
  revert m. induction l as [|[k' d'] l IH]; intros m Hk; [done|].
  cbn in Hk. apply not_elem_of_cons in Hk as [Hne Hk].
  cbn. rewrite IH by done.
  destruct (skip k'); [done|]. by rewrite lookup_insert_ne.
Qed.

Lemma mergeStep_skipped (l : list (string * V)) (m : gmap string V) (k : string) :
  skip k = true → foldl (mergeStep f skip) m l !! k = m !! k.
Proof.
  intros Hs. revert m. induction l as [|[k' d'] l IH]; intros m; [done|].
  cbn. rewrite IH.
  destruct (skip k') eqn:Hk'; [done|].
  rewrite lookup_insert_ne; [done|]. intros ->. congruence.
Qed.

Lemma mergeStep_entry (l : list (string * V)) (m : gmap string V) (k : string) (d : V) :
  NoDup l.*1 → (k, d) ∈ l → skip k = false →
  foldl (mergeStep f skip) m l !! k = Some (f k d).
Proof.
  revert m. induction l as [|[k' d'] l IH]; intros m Hnd Hin Hs.
  - by apply elem_of_nil in Hin.
  - cbn in Hnd. apply NoDup_cons in Hnd as [Hfresh Hnd].
    apply elem_of_cons in Hin as [Heq|Hin].
    + injection Heq as <- <-. cbn. rewrite Hs.
      rewrite mergeStep_other by done. by rewrite lookup_insert_eq.
    + cbn. by apply IH.
Qed.

Lemma mergeStep_dom (l : list (string * V)) (m : gmap string V) :
  (∀ k d, (k, d) ∈ l → is_Some (m !! k)) →
  dom (foldl (mergeStep f skip) m l) = dom m.
Proof.
  revert m. induction l as [|[k' d'] l IH]; intros m Hl; [done|].
  cbn. destruct (skip k').
  - apply IH. intros k d Hin. apply (Hl k d). by right.
  - rewrite IH.
    + rewrite dom_insert_L.
      apply subseteq_union_1_L, singleton_subseteq_l.
      apply elem_of_dom, (Hl k' d'). left.
    + intros k d Hin. destruct (decide (k = k')) as [->|Hne].
      * rewrite lookup_insert_eq. eauto.
      * rewrite lookup_insert_ne by done. apply (Hl k d). by right.
Qed.

(** The loop over [Object.entries(m)], started from a copy of [m]. *)
Lemma merge_entries_lookup (m : gmap string V) (k : string) :
  foldl (mergeStep f skip) m (map_to_list m) !! k =
  match m !! k with
  | Some d => Some (if skip k then d else f k d)
  | None => None
  end.
Proof.
  destruct (m !! k) as [d|] eqn:Hk.
  - destruct (skip k) eqn:Hs.
    + by rewrite mergeStep_skipped.
    + apply mergeStep_entry; [apply NoDup_fst_map_to_list| |done].
      by apply elem_of_map_to_list.
  - rewrite mergeStep_other; [done|].
    intros Hin. apply list_elem_of_fmap in Hin as [[k' d'] [-> Hin]].
    apply elem_of_map_to_list in Hin. cbn in Hk. congruence.
Qed.

Lemma merge_entries_dom (m : gmap string V) :
  dom (foldl (mergeStep f skip) m (map_to_list m)) = dom m.
Proof.
  apply mergeStep_dom. intros k d Hin.
  apply elem_of_map_to_list in Hin. eauto.
Qed.

End merge_loop.

(** ** Environment variables (C3) *)

Lemma loader_merge_env (server : McpServer) (envVars declared : gmap string string) :
  env server = Some declared →
  ∃ merged,
    env (ServerLoader.mergeEnvironmentVariables server envVars) = Some merged ∧
    dom merged = dom declared ∧
    ∀ key d, declared !! key = Some d →
      merged !! key =
        Some (if JsString.isEmpty key then d
              else ServerLoader.mergedValue envVars key d).
Proof.
  intros Henv. unfold ServerLoader.mergeEnvironmentVariables. rewrite Henv.
  destruct (Nat.eqb (size declared) 0) eqn:Hsz.
  - exists declared. split; [done|]. split; [done|].
    apply Nat.eqb_eq, map_size_empty_inv in Hsz. subst declared.
    intros key d Hk. by rewrite lookup_empty in Hk.
  - eexists. split; [reflexivity|].
    change (foldl _ declared (map_to_list declared))
      with (foldl (mergeStep (ServerLoader.mergedValue envVars) JsString.isEmpty)
              declared (map_to_list declared)).
    split; [apply merge_entries_dom|].
    intros key d Hk. by rewrite merge_entries_lookup, Hk.
Qed.

Lemma extension_merge_env (server : McpServer) (envVars declared : gmap string string) :
  env server = Some declared →
  ∃ merged,
    Extension.mergeEnvironmentVariables server (Some envVars)
      = Ok (if Nat.eqb (size declared) 0 then server else withEnv server merged) ∧
    dom merged = dom declared ∧
    ∀ key d, declared !! key = Some d →
      merged !! key = Some (Extension.mergedValue envVars key d).
Proof.
  intros Henv. unfold Extension.mergeEnvironmentVariables. rewrite Henv.
  exists (foldl (mergeStep (Extension.mergedValue envVars) (λ _, false))
            declared (map_to_list declared)).
  split; [by destruct (Nat.eqb (size declared) 0)|].
  split; [apply merge_entries_dom|].
  intros key d Hk. by rewrite merge_entries_lookup, Hk.
Qed.

Lemma loader_mergedValue (envVars : gmap string string) (key d : string) :
  ServerLoader.mergedValue envVars key d = effectiveValue envVars key d.
Proof.
  unfold ServerLoader.mergedValue, effectiveValue.
  destruct (envVars !! key) as [v|]; [|done].
  rewrite provided_test. by destruct (JsString.isBlank v).
Qed.

Lemma extension_mergedValue (envVars : gmap string string) (key d : string) :
  Extension.mergedValue envVars key d = effectiveValue envVars key d.
Proof.
  unfold Extension.mergedValue, effectiveValue.
  destruct (envVars !! key) as [v|]; [|done].
  rewrite provided_test. by destruct (JsString.isBlank v).
Qed.

(** What the two replacements remove: the label with all the white space
    after it, and one final carriage return. *)
Lemma replaceDefaultLabel_labelled (rest : string) :
  JsString.replaceDefaultLabel ("Default:" +:+ rest) = JsString.trimStart rest.
Proof. reflexivity. Qed.

Lemma replaceFinalCR_snoc (s : string) :
  JsString.replaceFinalCR (s +:+ CR) = s.
Proof.
  induction s as [|c s IH]; [reflexivity|].
  destruct s as [|c' s']; [reflexivity|].
  change (String c (JsString.replaceFinalCR (String c' s' +:+ CR)) = String c (String c' s')).
  by rewrite IH.
Qed.

(** C3, as amended. For every server that declares environment variables,
    every workspace mapping and every declared key, the merged definition
    holds under that key the workspace value, verbatim, when the mapping has
    one that is not blank after trimming; otherwise it holds the catalog
    default from which a leading [Default:] label with all the white space
    that follows it, and then one final carriage return, were removed
    ([effectiveValue]). This is so for the merge of [extension.ts] and, for
    every key but the empty string, for the merge of [serverLoader.ts]. *)
Theorem C3_merged_env_values (server : McpServer)
    (envVars declared : gmap string string) (key d : string) :
  env server = Some declared →
  declared !! key = Some d →
  (key ≠ "" →
   env (ServerLoader.mergeEnvironmentVariables server envVars) ≫= (.!! key)
     = Some (effectiveValue envVars key d))
  ∧ (∃ merged,
       Extension.mergeEnvironmentVariables server (Some envVars) = Ok merged ∧
       env merged ≫= (.!! key) = Some (effectiveValue envVars key d)).
Proof.
  intros Henv Hkey. split.
  - intros Hne.
    destruct (loader_merge_env server envVars declared Henv) as (m & -> & _ & Hm).
    cbn. rewrite (Hm key d Hkey), loader_mergedValue.
    by apply isEmpty_false in Hne as ->.
  - destruct (extension_merge_env server envVars declared Henv) as (m & -> & _ & Hm).
    eexists. split; [reflexivity|].
    destruct (Nat.eqb (size declared) 0) eqn:Hsz.
    + apply Nat.eqb_eq, map_size_empty_inv in Hsz. subst declared.
      by rewrite lookup_empty in Hkey.
    + cbn. by rewrite (Hm key d Hkey), extension_mergedValue.
Qed.

Lemma C3_merged_env_values_witness :
  (env (ServerLoader.mergeEnvironmentVariables
          (serverDeclaring {["AWS_REGION" := "Default: us-east-1" +:+ CR]})
          {["AWS_REGION" := "  "]})
     ≫= (.!! "AWS_REGION") = Some "us-east-1")
  ∧ (∃ merged,
       Extension.mergeEnvironmentVariables
         (serverDeclaring {["AWS_REGION" := "Default: us-east-1" +:+ CR]})
         (Some {["AWS_REGION" := "  "]}) = Ok merged ∧
       env merged ≫= (.!! "AWS_REGION") = Some "us-east-1").
Proof.
  assert (Hdeclared :
    ({["AWS_REGION" := "Default: us-east-1" +:+ CR]} : gmap string string)
      !! "AWS_REGION" = Some ("Default: us-east-1" +:+ CR))
    by (vm_compute; reflexivity).
  destruct (C3_merged_env_values
              (serverDeclaring {["AWS_REGION" := "Default: us-east-1" +:+ CR]})
              {["AWS_REGION" := "  "]} _ _ _ eq_refl Hdeclared)
    as [Hloader Hextension].
  split.
  - assert (Hne : "AWS_REGION" ≠ "") by discriminate.
    specialize (Hloader Hne). vm_compute in Hloader. vm_compute. exact Hloader.
  - vm_compute in Hextension. vm_compute. exact Hextension.
Defined.

(** C3, as the design document words it, fails: for the declared default
    [Default:us-east-1] followed by two carriage returns and no workspace
    value, both merges store [us-east-1] followed by one carriage return,
    where the wording asks for [Default:us-east-1]. *)
Lemma C3_counterexample :
  let d := "Default:us-east-1" +:+ CR +:+ CR in
  let server := serverDeclaring {["AWS_REGION" := d]} in
  env (ServerLoader.mergeEnvironmentVariables server ∅) ≫= (.!! "AWS_REGION")
    = Some ("us-east-1" +:+ CR)
  ∧ Extension.mergeEnvironmentVariables server (Some ∅)
    = Ok (serverDeclaring {["AWS_REGION" := "us-east-1" +:+ CR]})
  ∧ claimedValue ∅ "AWS_REGION" d = "Default:us-east-1"
  ∧ env (ServerLoader.mergeEnvironmentVariables server ∅) ≫= (.!! "AWS_REGION")
    ≠ Some (claimedValue ∅ "AWS_REGION" d).
Proof.
  cbv zeta. split; [|split; [|split]].
  - vm_compute. reflexivity.
  - vm_compute. reflexivity.
  - vm_compute. reflexivity.
  - vm_compute. discriminate.
Qed.

(** ** The configuration writer *)

Lemma addEvents_fields (evs : list Event) (w : World) :
  workspaceFolder (addEvents evs w) = workspaceFolder w ∧
  envVarsFile (addEvents evs w) = envVarsFile w ∧
  mcpFile (addEvents evs w) = mcpFile w ∧
  mkdirScript (addEvents evs w) = mkdirScript w ∧
  writeScript (addEvents evs w) = writeScript w ∧
  events (addEvents evs w) = evs ++ events w.
Proof.
  induction evs as [|e evs IH]; [done|].
  destruct IH as (? & ? & ? & ? & ? & ?). cbn. repeat split; try done.
  by f_equal.
Qed.

Lemma mcpWrites_app (evs1 evs2 : list Event) :
  mcpWrites (evs1 ++ evs2) = mcpWrites evs1 ++ mcpWrites evs2.
Proof. unfold mcpWrites. apply omap_app. Qed.

Ltac run_monad :=
  unfold bind, tryCatch, ret, throw, emit, getWorld,
    fsMkdir, fsWriteMcp, fsReadMcp, fsReadEnvVars; cbn.

Ltac new_events_of evs := exists evs; split; [reflexivity|].

Ltac new_events :=
  first [ new_events_of (@nil Event)
        | eexists [_]; split; [reflexivity|]
        | eexists [_; _]; split; [reflexivity|]
        | eexists [_; _; _]; split; [reflexivity|]
        | eexists [_; _; _; _]; split; [reflexivity|]
        | eexists [_; _; _; _; _]; split; [reflexivity|]
        | eexists [_; _; _; _; _; _]; split; [reflexivity|]
        | eexists [_; _; _; _; _; _; _]; split; [reflexivity|] ].

(** What one call of the writer does to the files and the scripts, by the
    state of the host. *)
Lemma loader_save_fields (config : McpConfig) (expected : gmap string McpServer)
    (w : World) (r : Result unit) (w' : World) :
  mcpServers config = Some expected →
  ServerLoader.saveWorkspaceMcpConfig config w = (r, w') →
  workspaceFolder w' = workspaceFolder w ∧
  envVarsFile w' = envVarsFile w ∧
  ∃ evs, events w' = evs ++ events w ∧ existsb isSuccessNotice evs = false ∧
    if negb (workspaceFolder w) then
      isThrown r ∧ mcpFile w' = mcpFile w ∧ mkdirScript w' = mkdirScript w ∧
      writeScript w' = writeScript w ∧ mcpWrites evs = []
    else if negb (mkdirSucceeds (mkdirScript w)) then
      isThrown r ∧ mcpFile w' = mcpFile w ∧ mkdirScript w' = tail (mkdirScript w) ∧
      writeScript w' = writeScript w ∧ mcpWrites evs = []
    else
      mkdirScript w' = tail (mkdirScript w) ∧
      writeScript w' = tail (writeScript w) ∧
      mcpWrites evs = [config] ∧
      match writeScript w with
      | [] | Lands :: _ => r = Ok tt ∧ mcpFile w' = Holds config
      | LandsAs found :: _ => r = Ok tt ∧ mcpFile w' = found
      | Rejects _ truncated :: _ =>
          isThrown r ∧ mcpFile w' = if truncated then Corrupt else mcpFile w
      end.
Proof.
  intros Hm Hsave.
  unfold ServerLoader.saveWorkspaceMcpConfig, ServerLoader.verifyWritten,
    ServerLoader.showConfigWriteError in Hsave.
  rewrite Hm in Hsave. revert Hsave. run_monad.
  destruct (workspaceFolder w) eqn:Hws; cbn.
  - destruct (mkdirScript w) as [|[reason|] ms] eqn:Hmk; cbn.
    + destruct (writeScript w) as [|[|found|reason truncated] ws] eqn:Hwr; cbn.
      * rewrite Hm; cbn. rewrite Nat.eqb_refl; cbn.
        intros [= <- <-]; cbn. repeat split; try done. by new_events.
      * rewrite Hm; cbn. rewrite Nat.eqb_refl; cbn.
        intros [= <- <-]; cbn. repeat split; try done. by new_events.
      * destruct found as [| |parsed]; cbn;
          [| |destruct (mcpServers parsed) as [written|]; cbn;
              [destruct (Nat.eqb (size written) (size expected)); cbn|]];
          intros [= <- <-]; cbn; repeat split; try done; by new_events.
      * destruct truncated; cbn; intros [= <- <-]; cbn;
          repeat split; try done; by new_events.
    + intros [= <- <-]; cbn. repeat split; try done. by new_events.
    + destruct (writeScript w) as [|[|found|reason truncated] ws] eqn:Hwr; cbn.
      * rewrite Hm; cbn. rewrite Nat.eqb_refl; cbn.
        intros [= <- <-]; cbn. repeat split; try done. by new_events.
      * rewrite Hm; cbn. rewrite Nat.eqb_refl; cbn.
        intros [= <- <-]; cbn. repeat split; try done. by new_events.
      * destruct found as [| |parsed]; cbn;
          [| |destruct (mcpServers parsed) as [written|]; cbn;
              [destruct (Nat.eqb (size written) (size expected)); cbn|]];
          intros [= <- <-]; cbn; repeat split; try done; by new_events.
      * destruct truncated; cbn; intros [= <- <-]; cbn;
          repeat split; try done; by new_events.
  - intros [= <- <-]; cbn. repeat split; try done. by new_events.
Qed.

(** C9. For every configuration of the right shape handed to the writer of
    [serverLoader.ts] in a workspace where the directory is ensured and
    [writeFile] resolves: whatever the read-back finds in the file afterwards,
    the writer returns normally. When the read-back disagrees with what was
    written (unparseable or missing content, no [mcpServers] object, another
    number of entries) the only trace is one console entry; nothing is shown
    to the user and nothing is thrown. *)
Theorem C9_verification_mismatch_only_logged (config : McpConfig)
    (expected : gmap string McpServer) (found : File McpConfig)
    (rest : list WriteOutcome) (w : World) :
  mcpServers config = Some expected →
  workspaceFolder w = true →
  mkdirSucceeds (mkdirScript w) = true →
  writeScript w = LandsAs found :: rest →
  ∃ w',
    ServerLoader.saveWorkspaceMcpConfig config w = (Ok tt, w') ∧
    mcpFile w' = found ∧
    events w' =
      (if readBackMismatch found expected
       then [Console LError "Failed to verify written MCP configuration:"]
       else [])
      ++ WriteMcp config :: MkdirSettings :: events w.
Proof.
  intros Hm Hws Hmk Hwr.
  unfold ServerLoader.saveWorkspaceMcpConfig, ServerLoader.verifyWritten,
    ServerLoader.showConfigWriteError.
  rewrite Hm. run_monad. rewrite Hws; cbn.
  destruct (mkdirScript w) as [|[reason|] ms]; [|done|]; cbn; rewrite Hwr; cbn.
  all: destruct found as [| |parsed]; cbn;
    [| |destruct (mcpServers parsed) as [written|]; cbn;
        [destruct (Nat.eqb (size written) (size expected)); cbn|]];
    eexists; (split; [reflexivity|]); done.
Qed.

Lemma C9_verification_mismatch_only_logged_witness :
  let config := mcpConfigOf {["aws-docs" := awsDocs]} in
  let w := workspaceWith Absent [LandsAs Corrupt] in
  ∃ w',
    ServerLoader.saveWorkspaceMcpConfig config w = (Ok tt, w') ∧
    mcpFile w' = Corrupt ∧
    events w' =
      (if readBackMismatch Corrupt {["aws-docs" := awsDocs]}
       then [Console LError "Failed to verify written MCP configuration:"]
       else [])
      ++ WriteMcp config :: MkdirSettings :: events w.
Proof.
  exact (C9_verification_mismatch_only_logged
           (mcpConfigOf {["aws-docs" := awsDocs]}) {["aws-docs" := awsDocs]}
           Corrupt [] (workspaceWith Absent [LandsAs Corrupt])
           eq_refl eq_refl eq_refl eq_refl).
Defined.

(** ** Validation of the recommendations *)

Lemma isValidRecommendation_spec (r : Json) :
  ServerLoader.isValidRecommendation r = true ↔
  ∃ id reason,
    Js.member r "serverId" = Some (JStr id) ∧ JsString.trim id ≠ "" ∧
    Js.member r "reason" = Some (JStr reason) ∧ reason ≠ "".
Proof.
  unfold ServerLoader.isValidRecommendation. split.
  - destruct (negb (Js.truthy r) || negb (Js.typeofObject r)); [done|].
    destruct (Js.member r "serverId") as [[| | |id| |]|]; try done.
    destruct (JsString.isEmpty id || JsString.isBlank id) eqn:Hid; [done|].
    apply orb_false_iff in Hid as [_ Hblank].
    destruct (Js.member r "reason") as [[| | |reason| |]|]; try done.
    intros Hr%negb_true_iff. exists id, reason.
    by rewrite <-isBlank_false, <-isEmpty_false.
  - intros (id & reason & Hid & Htrim & Hreason & Hne).
    destruct r as [| | | | |members]; try done. cbn.
    cbn in Hid, Hreason. rewrite Hid, Hreason.
    apply isBlank_false in Htrim as Hblank. rewrite Hblank.
    destruct (JsString.isEmpty id) eqn:He.
    + apply isBlank_empty in He. congruence.
    + cbn. by apply negb_true_iff, isEmpty_false.
Qed.

Lemma length_eqb_nil {A} (l : list A) : Nat.eqb (length l) 0 = true ↔ l = [].
Proof.
  rewrite Nat.eqb_eq. split; [apply nil_length_inv|by intros ->].
Qed.

Lemma validateServerIds_valid (ids : list string) (catalog : gmap string McpServer) :
  (ServerLoader.validateServerIds ids catalog).1 = List.filter (passesId catalog) ids.
Proof.
  unfold ServerLoader.validateServerIds.
  change (List.filter (passesId catalog) ids)
    with (([] : list string, [] : list string).1 ++ List.filter (passesId catalog) ids).
  generalize (([] : list string), ([] : list string)).
  induction ids as [|id ids IH]; intros [valid invalid].
  - cbn. by rewrite app_nil_r.
  - cbn [foldl List.filter fst]. unfold passesId at 1.
    destruct (JsString.isEmpty id || JsString.isBlank id); cbn [negb andb].
    + by rewrite IH.
    + destruct (catalog !! id); [|destruct (Js.inherited id)]; rewrite IH; cbn;
        try done; by rewrite <-app_assoc.
Qed.

(** What passes the validation is the identifier of a well-formed record,
    and a key of the catalog or a name every object inherits. *)
Lemma validIdsOf_passes (recommendations : Json)
    (catalog : gmap string McpServer) (id : string) :
  id ∈ validIdsOf recommendations catalog ↔
  (∃ r reason, r ∈ itemsOf recommendations ∧
               Js.member r "serverId" = Some (JStr id) ∧
               JsString.trim id ≠ "" ∧
               Js.member r "reason" = Some (JStr reason) ∧ reason ≠ "") ∧
  (is_Some (catalog !! id) ∨ Js.inherited id = true).
Proof.
  unfold validIdsOf. rewrite validateServerIds_valid.
  rewrite list_elem_of_In, filter_In, in_map_iff. split.
  - intros [(r & Hid & Hr) Hpass].
    apply filter_In in Hr as [Hin Hvalid].
    apply isValidRecommendation_spec in Hvalid
      as (id' & reason & Hmember & Htrim & Hreason & Hne).
    unfold ServerLoader.serverIdOf in Hid. rewrite Hmember in Hid. subst id'.
    split.
    + exists r, reason. rewrite list_elem_of_In. by repeat split.
    + unfold passesId in Hpass. apply andb_true_iff in Hpass as [_ Hcat].
      destruct (catalog !! id); eauto.
  - intros [(r & reason & Hin & Hmember & Htrim & Hreason & Hne) Hcat].
    split.
    + exists r. split.
      * unfold ServerLoader.serverIdOf. by rewrite Hmember.
      * apply filter_In. split; [by apply list_elem_of_In|].
        apply isValidRecommendation_spec. eauto 8.
    + unfold passesId.
      apply isBlank_false in Htrim as Hblank. rewrite Hblank.
      destruct (JsString.isEmpty id) eqn:He.
      { apply isBlank_empty in He. congruence. }
      cbn. destruct (catalog !! id); [done|].
      destruct Hcat as [[? [=]]|Hcat]. done.
Qed.

(** The accepted identifiers are those that pass the validation and are
    keys of the catalog. *)
Lemma validIdsOf_accepted (recommendations : Json)
    (catalog : gmap string McpServer) (id : string) :
  id ∈ validIdsOf recommendations catalog ∧ is_Some (catalog !! id)
  ↔ accepted recommendations catalog id.
Proof.
  rewrite validIdsOf_passes. unfold accepted. split.
  - intros [[(r & reason & H) _] Hcat]. exists r, reason. tauto.
  - intros (r & reason & Hin & Hmember & Htrim & Hreason & Hne & Hcat).
    split; [|done]. split; [|by left]. exists r, reason. tauto.
Qed.

(** ** The build loop of the loader *)

Lemma loader_buildConfig_dom (ids : list string)
    (catalog : gmap string McpServer) (envVars : gmap string string) (id : string) :
  id ∈ dom (ServerLoader.buildConfig ids catalog envVars) ↔
  id ∈ ids ∧ is_Some (catalog !! id).
Proof.
  unfold ServerLoader.buildConfig.
  assert (∀ acc : gmap string McpServer,
    id ∈ dom (foldl (λ newServers serverId,
                       match catalog !! serverId with
                       | None => newServers
                       | Some server =>
                           <[serverId :=
                               ServerLoader.mergeEnvironmentVariables server envVars]>
                             newServers
                       end) acc ids)
    ↔ id ∈ dom acc ∨ (id ∈ ids ∧ is_Some (catalog !! id))) as Hgen.
  { induction ids as [|x ids IH]; intros acc.
    - cbn. rewrite elem_of_nil. tauto.
    - cbn [foldl]. rewrite IH, elem_of_cons.
      destruct (catalog !! x) as [server|] eqn:Hx.
      + rewrite dom_insert, elem_of_union, elem_of_singleton.
        split; [intros [[->|?]|[? ?]]|intros [?|[[->|?] ?]]]; eauto.
      + split; [intros [?|[? ?]]|intros [?|[[->|?] Hs]]]; eauto.
        rewrite Hx in Hs. by destruct Hs. }
  rewrite Hgen, dom_empty, elem_of_empty. tauto.
Qed.

(** The keys of the configuration built from the identifiers that passed
    the validation are the accepted identifiers. *)
Lemma built_dom (recs : Json) (catalog : gmap string McpServer)
    (envVars : gmap string string) (id : string) :
  id ∈ dom (ServerLoader.buildConfig (validIdsOf recs catalog) catalog envVars)
  ↔ accepted recs catalog id.
Proof. rewrite loader_buildConfig_dom. apply validIdsOf_accepted. Qed.

Lemma built_empty_iff (recs : Json) (catalog : gmap string McpServer)
    (envVars : gmap string string) :
  Nat.eqb (size (ServerLoader.buildConfig (validIdsOf recs catalog) catalog envVars)) 0
    = true
  ↔ ∀ id, ¬ accepted recs catalog id.
Proof.
  rewrite Nat.eqb_eq. split.
  - intros Hsize%map_size_empty_inv id Hacc%(built_dom _ _ envVars).
    rewrite Hsize, dom_empty in Hacc. by apply elem_of_empty in Hacc.
  - intros Hnone. apply map_size_empty_iff, map_empty. intros id.
    apply not_elem_of_dom. intros Hd%built_dom. by apply (Hnone id).
Qed.

Lemma loader_buildConfig_none (ids : list string)
    (catalog : gmap string McpServer) (envVars : gmap string string) :
  (∀ id, id ∈ ids → catalog !! id = None) →
  ServerLoader.buildConfig ids catalog envVars = ∅.
Proof.
  intros Hnone. apply map_empty. intros id. apply not_elem_of_dom.
  intros [Hin [server Hid]]%loader_buildConfig_dom.
  rewrite (Hnone id Hin) in Hid. discriminate.
Qed.

(** ** The recommendation load as a pipeline *)

Lemma validIdsOf_not_array (recs : Json) :
  itemsOf recs = [] → ∀ cat, validIdsOf recs cat = [].
Proof. intros H cat. unfold validIdsOf. by rewrite H. Qed.

Ltac events_of w1 w :=
  lazymatch w1 with
  | w => constr:(@nil Event)
  | record ?e ?w' => let r := events_of w' w in constr:(e :: r)
  end.

Ltac solve_events w :=
  lazymatch goal with
  | |- ∃ evs, _ ∧ _ ∧ _ ∧ (_, ?w1) = _ =>
      let evs := events_of w1 w in
      exists evs; repeat split; try done; try (intros; congruence)
  end.

#[local] Arguments Nat.ltb : simpl never.
#[local] Arguments Nat.eqb : simpl never.

Lemma load_pipeline (recs : Json) (ctx : ExtensionContext) (w : World) :
  let ids := validIdsOf recs (catalogOf ctx) in
  let built := ServerLoader.buildConfig ids (catalogOf ctx) (loaderVariables w) in
  ∃ evs, mcpWrites evs = [] ∧ existsb isSuccessNotice evs = false ∧
    (Nat.eqb (size built) 0 = true → itemsOf recs ≠ [] → emptyCatalog ctx = false →
     existsb isFailureNotice evs = true) ∧
    ServerLoader.loadRecommendedServers recs ctx w =
    if Nat.eqb (size built) 0 then (Ok 0, addEvents evs w)
    else
      match ServerLoader.saveWithRollback (mcpConfigOf built) (addEvents evs w) with
      | (Ok true, w2) =>
          (Ok (length ids), record (Notify LInfo (LoadedServers (length ids) ids)) w2)
      | (Ok false, w2) => (Ok 0, w2)
      | (Thrown errorMsg, w2) =>
          (Ok 0, record (Notify LError (AgentAnalysisFailed errorMsg))
                   (record (Console LError "Unexpected error in loadRecommendedServers:") w2))
      end.
Proof.
  intros ids built. subst ids built.
  unfold ServerLoader.loadRecommendedServers, ServerLoader.loadUsableMasterServers,
    ServerLoader.loadMasterServers, ServerLoader.loadWorkspaceEnvVars,
    ServerLoader.showFileReadError, ServerLoader.showAgentAnalysisError,
    ServerLoader.showSuccessNotification.
  cbv zeta.
  destruct recs as [|[]|n|s|items|members];
    try (rewrite validIdsOf_not_array by done; run_monad; by solve_events w).
  - cbn [Js.truthy]. destruct (negb (Z.eqb n 0));
      rewrite validIdsOf_not_array by done; run_monad; by solve_events w.
  - cbn [Js.truthy]. destruct (negb (JsString.isEmpty s));
      rewrite validIdsOf_not_array by done; run_monad; by solve_events w.
  - unfold validIdsOf, catalogOf, loaderVariables, emptyCatalog.
    cbn [itemsOf Js.truthy negb].
    destruct (Nat.eqb (length items) 0) eqn:Hitems.
    { apply Nat.eqb_eq, nil_length_inv in Hitems. subst items.
      run_monad. by solve_events w. }
    set (valid := List.filter ServerLoader.isValidRecommendation items) in *.
    destruct (Nat.eqb (length valid) 0) eqn:Hvalid.
    { apply Nat.eqb_eq, nil_length_inv in Hvalid. rewrite Hvalid.
      run_monad. by solve_events w. }
    destruct (Nat.ltb (length valid) (length items)) eqn:Hlt.
    all: destruct (masterServersFile ctx) as [| |[[catalog|]]] eqn:Hfile;
      cbn [default from_option servers id].
    all: try (rewrite (loader_buildConfig_none _ ∅) by (intros; apply lookup_empty);
              run_monad; by solve_events w).
    all: destruct (Nat.eqb (size catalog) 0) eqn:Hsize.
    all: try (rewrite (loader_buildConfig_none _ catalog)
                by (intros;
                    apply Nat.eqb_eq, map_size_empty_inv in Hsize;
                    rewrite Hsize; apply lookup_empty);
              run_monad; rewrite Hsize; cbn; by solve_events w).
    all: run_monad; rewrite Hsize; cbn.
    all: destruct (ServerLoader.validateServerIds _ catalog)
           as [validIds invalidIds] eqn:Hval.
    all: cbn [fst].
    all: destruct (Nat.ltb 0 (length invalidIds)) eqn:Hinv.
    all: destruct (Nat.eqb (length validIds) 0) eqn:Hids.
    all: try (apply length_eqb_nil in Hids; subst validIds; cbn; by solve_events w).
    all: cbn.
    all: destruct (workspaceFolder w) eqn:Hws;
           [destruct (envVarsFile w) as [| |parsedEnv] eqn:Henv|].
    all: cbn.
    all: lazymatch goal with
         | |- context [ServerLoader.saveWithRollback (mcpConfigOf ?b) _] =>
             destruct (Nat.eqb (size b) 0) eqn:Hbuilt
         end.
    all: cbn.
    all: try by solve_events w.
    all: lazymatch goal with
         | |- context [ServerLoader.saveWithRollback _ ?w1] =>
             let evs := events_of w1 w in
             exists evs; split; [done|]; split; [done|];
             split; [intros; congruence|];
             change (addEvents evs w) with w1;
             by destruct (ServerLoader.saveWithRollback _ w1) as [[[]|?] ?]
         end.
Qed.

#[local] Arguments ServerLoader.saveWorkspaceMcpConfig : simpl never.
#[local] Arguments ServerLoader.saveWithRollback : simpl never.

Lemma rollback_unfold (nc : McpConfig) (w : World) :
  ∃ pre, mcpWrites pre = [] ∧ existsb isSuccessNotice pre = false ∧
    ServerLoader.saveWithRollback nc w =
      match ServerLoader.saveWorkspaceMcpConfig nc (addEvents pre w) with
      | (Ok _, w1) => (Ok true, w1)
      | (Thrown _, w1) =>
          match ServerLoader.saveWorkspaceMcpConfig (snapshotOf w) w1 with
          | (Ok _, w2) =>
              (Ok false,
               record (Console LInfo "Restored original configuration after save failure") w2)
          | (Thrown _, w2) =>
              (Ok false, record (Console LError "Failed to rollback configuration:") w2)
          end
      end.
Proof.
  unfold ServerLoader.saveWithRollback, ServerLoader.loadWorkspaceMcpConfig, snapshotOf.
  unfold bind, tryCatch, ret, emit, getWorld; cbn.
  destruct (workspaceFolder w) eqn:Hws; cbn [negb];
    [destruct (mcpFile w) as [| |parsed] eqn:Hfile|].
  all: cbn.
  all: lazymatch goal with
       | |- context [ServerLoader.saveWorkspaceMcpConfig ?c ?w0] =>
           let pre := events_of w0 w in
           exists pre; repeat split; change (addEvents pre w) with w0;
           destruct (ServerLoader.saveWorkspaceMcpConfig c w0) as [[[]|?] w1];
             [reflexivity|];
           by destruct (ServerLoader.saveWorkspaceMcpConfig _ w1) as [[[]|?] w2]
       end.
Qed.

Lemma rollback_spec (nc : McpConfig) (m : gmap string McpServer) (w : World) :
  mcpServers nc = Some m →
  ∃ b w2 evs,
    ServerLoader.saveWithRollback nc w = (Ok b, w2) ∧
    workspaceFolder w2 = workspaceFolder w ∧
    envVarsFile w2 = envVarsFile w ∧
    events w2 = evs ++ events w ∧
    existsb isSuccessNotice evs = false ∧
    (if b then mcpWrites evs = [nc]
     else mcpWrites evs = [] ∨ mcpWrites evs = [nc] ∨ mcpWrites evs = [snapshotOf w]
          ∨ mcpWrites evs = [snapshotOf w; nc]) ∧
    (b = negb (negb (workspaceFolder w) || negb (mkdirSucceeds (mkdirScript w))
               || writeRejected (writeScript w))) ∧
    (b = true → writeLands (writeScript w) = true → mcpFile w2 = Holds nc) ∧
    (b = false →
     workspaceFolder w = true →
     mkdirSucceeds (tail (mkdirScript w)) = true →
     writeLands (if mkdirSucceeds (mkdirScript w) then tail (writeScript w)
                 else writeScript w) = true →
     mcpFile w2 = Holds (snapshotOf w)) ∧
    (honest (writeScript w) →
     mcpFile w2 = mcpFile w ∨ mcpFile w2 = Corrupt ∨ mcpFile w2 = Holds nc
     ∨ mcpFile w2 = Holds (snapshotOf w)).
Proof.
  intros Hm.
  destruct (rollback_unfold nc w) as (pre & Hpre & Hquiet & ->).
  pose proof (addEvents_fields pre w) as (Hws0 & Henv0 & Hfile0 & Hmk0 & Hwr0 & Hev0).
  destruct (ServerLoader.saveWorkspaceMcpConfig nc (addEvents pre w))
    as [r1 w1] eqn:Hsave1.
  pose proof (loader_save_fields _ _ _ _ _ Hm Hsave1)
    as (Hws1 & Henv1 & evs1 & Hev1 & Hq1 & Hcase1).
  rewrite Hws0, Hmk0, Hwr0, Hfile0 in Hcase1.
  rewrite Hws0 in Hws1. rewrite Henv0 in Henv1. rewrite Hev0 in Hev1.
  clear Hws0 Henv0 Hfile0 Hmk0 Hwr0 Hev0 Hsave1.
  destruct r1 as [[]|e1].
  - (* the write of the new configuration went through *)
    exists true, w1, (evs1 ++ pre).
    rewrite existsb_app, mcpWrites_app, Hq1, Hquiet, Hpre, app_nil_r, <-app_assoc.
    destruct (workspaceFolder w); cbn [negb orb] in *; [|by destruct Hcase1].
    destruct (mkdirSucceeds (mkdirScript w)); cbn [negb orb] in *;
      [|by destruct Hcase1].
    destruct Hcase1 as (_ & _ & Hw1 & Hcase1).
    repeat split; try done.
    + destruct (writeScript w) as [|[|found|reason truncated] rest]; try done.
      by destruct Hcase1 as [[] _].
    + intros _ Hlands.
      by destruct (writeScript w) as [|[|found|reason truncated] rest];
        destruct Hcase1.
    + intros Hhonest.
      destruct (writeScript w) as [|[|found|reason truncated] rest];
        destruct Hcase1 as [Hr ->]; eauto.
      * exfalso. apply (Hhonest found). left.
      * destruct Hr.
  - (* it threw: the snapshot is written back *)
    destruct (ServerLoader.saveWorkspaceMcpConfig (snapshotOf w) w1)
      as [r2 w2] eqn:Hsave2.
    pose proof (loader_save_fields (snapshotOf w) _ _ _ _ eq_refl Hsave2)
      as (Hws2 & Henv2 & evs2 & Hev2 & Hq2 & Hcase2).
    rewrite Hws1 in Hws2, Hcase2. rewrite Henv1 in Henv2. rewrite Hev1 in Hev2.
    clear Hsave2.
    set (note := match r2 with
                 | Ok _ => Console LInfo "Restored original configuration after save failure"
                 | Thrown _ => Console LError "Failed to rollback configuration:"
                 end).
    assert (isSuccessNotice note = false ∧ mcpWrites [note] = []) as [Hn1 Hn2]
      by (by destruct r2).
    exists false, (record note w2), (note :: evs2 ++ evs1 ++ pre).
    split; [by destruct r2|].
    cbn [record workspaceFolder envVarsFile events mcpFile existsb].
    change (note :: evs2 ++ evs1 ++ pre) with ([note] ++ evs2 ++ evs1 ++ pre).
    rewrite !existsb_app, Hq1, Hq2, Hquiet, Hn1, Hev2.
    rewrite !mcpWrites_app, Hn2, Hpre, app_nil_r, <-!app_assoc.
    cbn [app orb].
    do 4 (split; [done|]).
    destruct (workspaceFolder w) eqn:Hws; cbn [negb orb] in *.
    2:{ destruct Hcase1 as (_ & Hf1 & _ & _ & Hw1), Hcase2 as (_ & Hf2 & _ & _ & Hw2).
        rewrite Hw1, Hw2, Hf2, Hf1. repeat split; auto; done. }
    destruct (mkdirSucceeds (mkdirScript w)) eqn:Hmk; cbn [negb orb] in *.
    2:{ destruct Hcase1 as (_ & Hf1 & Hmk1 & Hwr1 & Hw1).
        rewrite Hmk1, Hwr1 in Hcase2. rewrite Hw1.
        destruct (mkdirSucceeds (tail (mkdirScript w))) eqn:Hmk2; cbn [negb] in Hcase2.
        - destruct Hcase2 as (_ & _ & Hw2 & Hcase2). rewrite Hw2.
          repeat split; auto; try done.
          + intros _ _ _ Hlands.
            by destruct (writeScript w) as [|[|found|reason truncated] rest];
              destruct Hcase2.
          + intros Hhonest.
            destruct (writeScript w) as [|[|found|reason truncated] rest];
              destruct Hcase2 as [Hr ->]; rewrite ?Hf1; eauto.
            * exfalso. apply (Hhonest found). left.
            * destruct truncated; eauto.
        - destruct Hcase2 as (_ & Hf2 & _ & _ & Hw2). rewrite Hw2, Hf2, Hf1.
          repeat split; auto; done. }
    destruct Hcase1 as (Hmk1 & Hwr1 & Hw1 & Hcase1).
    destruct (writeScript w) as [|[|found|reason truncated] rest] eqn:Hwr;
      try (by destruct Hcase1).
    destruct Hcase1 as [_ Hf1]. rewrite Hmk1, Hwr1 in Hcase2.
    cbn [tail writeRejected] in *. rewrite Hw1.
    assert (mcpFile w1 = mcpFile w ∨ mcpFile w1 = Corrupt) as Hleft
      by (destruct truncated; auto).
    destruct (mkdirSucceeds (tail (mkdirScript w))) eqn:Hmk2; cbn [negb] in Hcase2.
    + destruct Hcase2 as (_ & _ & Hw2 & Hcase2). rewrite Hw2.
      repeat split; auto; try done.
      * intros _ _ _ Hlands.
        by destruct rest as [|[|found'|reason' truncated'] rest']; destruct Hcase2.
      * intros Hhonest.
        destruct rest as [|[|found'|reason' truncated'] rest'];
          destruct Hcase2 as [Hr ->]; eauto.
        -- exfalso. apply (Hhonest found'). right. left.
        -- destruct truncated'; [eauto|]. destruct Hleft as [-> | ->]; eauto.
    + destruct Hcase2 as (_ & Hf2 & _ & _ & Hw2). rewrite Hw2, Hf2.
      repeat split; auto; try done. intros _. destruct Hleft as [-> | ->]; eauto.
Qed.

(** ** The recommendation load (C1, C2, C5, C6) *)

(** C1, as amended. In a workspace where the directory is ensured and the
    write leaves the text it is given, for every recommendation input and
    every catalog file: when no identifier is accepted, nothing is written and
    the document is as before; otherwise exactly one document is written, it
    is the document on disk afterwards, and its server keys are exactly the
    accepted identifiers, i.e. the [serverId]s of the records that carry a
    string [serverId] that is not blank after trimming and a non-empty string
    [reason], and that are keys of the catalog. *)
Theorem C1_written_keys (recs : Json) (ctx : ExtensionContext) (w : World) :
  workspaceFolder w = true →
  mkdirSucceeds (mkdirScript w) = true →
  writeLands (writeScript w) = true →
  ∃ n w' evs,
    ServerLoader.loadRecommendedServers recs ctx w = (Ok n, w') ∧
    events w' = evs ++ events w ∧
    ((∀ id, ¬ accepted recs (catalogOf ctx) id) →
     mcpWrites evs = [] ∧ mcpFile w' = mcpFile w) ∧
    ((∃ id, accepted recs (catalogOf ctx) id) →
     ∃ m, mcpWrites evs = [mcpConfigOf m] ∧
          mcpFile w' = Holds (mcpConfigOf m) ∧
          ∀ id, id ∈ dom m ↔ accepted recs (catalogOf ctx) id).
Proof.
  intros Hws Hmk Hwr.
  destruct (load_pipeline recs ctx w) as (pre & Hw & Hq & _ & Hload).
  pose proof (addEvents_fields pre w) as (Hws0 & _ & Hfile0 & Hmk0 & Hwr0 & Hev0).
  set (ids := validIdsOf recs (catalogOf ctx)) in *.
  set (built := ServerLoader.buildConfig ids (catalogOf ctx) (loaderVariables w)) in *.
  destruct (Nat.eqb (size built) 0) eqn:Hsize.
  - pose proof (proj1 (built_empty_iff recs (catalogOf ctx) (loaderVariables w)) Hsize)
      as Hnone.
    exists 0, (addEvents pre w), pre. repeat split; try done.
    intros [id Hacc]. by destruct (Hnone id).
  - set (nc := mcpConfigOf built) in *.
    destruct (rollback_spec nc _ (addEvents pre w) eq_refl)
      as (b & w2 & evs & Hroll & _ & _ & Hev & _ & Hwrites & Hb & Hlands & _).
    rewrite Hws0, Hmk0, Hwr0, Hws, Hmk in Hb.
    assert (writeRejected (writeScript w) = false) as Hrej
      by (by destruct (writeScript w) as [|[]]).
    rewrite Hrej in Hb. cbn in Hb. subst b.
    rewrite Hroll in Hload. rewrite Hwr0 in Hlands.
    eexists _, _, (Notify LInfo (LoadedServers (length ids) ids) :: evs ++ pre).
    split; [exact Hload|]. cbn [record events].
    rewrite Hev, Hev0. split; [cbn [app]; by rewrite <-app_assoc|].
    change (mcpWrites (?e :: evs ++ pre)) with (mcpWrites (evs ++ pre)).
    rewrite mcpWrites_app, Hw, Hwrites, app_nil_r. cbn [record mcpFile].
    rewrite (Hlands eq_refl Hwr).
    split.
    + intros Hnone. apply (built_empty_iff _ _ (loaderVariables w)) in Hnone.
      fold ids in Hnone. fold built in Hnone. congruence.
    + intros _. eexists. split; [done|]. split; [done|].
      intros id. apply built_dom.
Qed.

Lemma C1_written_keys_witness :
  let recs := JArr [recommend "aws-docs" "r1"; recommend "unknown-x" "r2"] in
  let w := workspaceWith Absent [] in
  ∃ n w' evs,
    ServerLoader.loadRecommendedServers recs sampleContext w = (Ok n, w') ∧
    events w' = evs ++ events w ∧
    ((∀ id, ¬ accepted recs (catalogOf sampleContext) id) →
     mcpWrites evs = [] ∧ mcpFile w' = mcpFile w) ∧
    ((∃ id, accepted recs (catalogOf sampleContext) id) →
     ∃ m, mcpWrites evs = [mcpConfigOf m] ∧
          mcpFile w' = Holds (mcpConfigOf m) ∧
          ∀ id, id ∈ dom m ↔ accepted recs (catalogOf sampleContext) id).
Proof.
  exact (C1_written_keys
           (JArr [recommend "aws-docs" "r1"; recommend "unknown-x" "r2"])
           sampleContext (workspaceWith Absent []) eq_refl eq_refl eq_refl).
Defined.

(** C1, as the design document words it, fails. The record
    [{ "serverId": "aws-docs" }] carries a non-empty string identifier that is
    a key of the catalog, yet the load writes nothing: the record has no
    [reason] and is filtered out. *)
Lemma C1_counterexample :
  let recs := JArr [JObj [("serverId", JStr "aws-docs")]] in
  let run := ServerLoader.loadRecommendedServers recs sampleContext
               (workspaceWith Absent []) in
  claimedIds recs (catalogOf sampleContext) "aws-docs" ∧
  run.1 = Ok 0 ∧
  mcpWrites (events run.2) = [] ∧
  mcpFile run.2 = Absent ∧
  "aws-docs" ∉ persistedKeys (mcpFile run.2).
Proof.
  cbv zeta. split; [|split; [|split; [|split]]].
  - eexists. split; [left|]. split; [reflexivity|]. split; [discriminate|].
    vm_compute. eauto.
  - vm_compute. reflexivity.
  - vm_compute. reflexivity.
  - vm_compute. reflexivity.
  - assert (mcpFile (ServerLoader.loadRecommendedServers
                       (JArr [JObj [("serverId", JStr "aws-docs")]]) sampleContext
                       (workspaceWith Absent [])).2 = Absent) as ->
      by (vm_compute; reflexivity).
    apply not_elem_of_empty.
Qed.

(** C2, as amended. For every recommendation load that reaches the write
    and whose write of the new configuration throws, the load returns 0 after
    one attempt to write back the snapshot it read before. When that attempt
    goes through and leaves its text, the document on disk is the snapshot:
    the [mcpServers] mapping of the prior document and nothing else (the empty
    mapping when the prior document was missing, unparseable or had no such
    mapping). It then equals the prior document whenever that document
    consisted of an [mcpServers] mapping only. *)
Theorem C2_failed_write_rollback (recs : Json) (ctx : ExtensionContext) (w : World) :
  (∃ id, accepted recs (catalogOf ctx) id) →
  writeStepFails w = true →
  ∃ w',
    ServerLoader.loadRecommendedServers recs ctx w = (Ok 0, w') ∧
    (rollbackLands w = true → mcpFile w' = Holds (snapshotOf w)) ∧
    (rollbackLands w = true →
     ∀ m, mcpFile w = Holds (mcpConfigOf m) → mcpFile w' = mcpFile w).
Proof.
  intros [id0 Hacc] Hfails.
  destruct (load_pipeline recs ctx w) as (pre & Hw & Hq & _ & Hload).
  pose proof (addEvents_fields pre w) as (Hws0 & _ & Hfile0 & Hmk0 & Hwr0 & Hev0).
  set (ids := validIdsOf recs (catalogOf ctx)) in *.
  set (built := ServerLoader.buildConfig ids (catalogOf ctx) (loaderVariables w)) in *.
  assert (Nat.eqb (size built) 0 = false) as Hsize.
  { apply not_true_iff_false. intros Hnone.
    by destruct (proj1 (built_empty_iff recs (catalogOf ctx) (loaderVariables w))
                   Hnone id0). }
  rewrite Hsize in Hload.
  set (nc := mcpConfigOf built) in *.
  destruct (rollback_spec nc _ (addEvents pre w) eq_refl)
    as (b & w2 & evs & Hroll & _ & _ & _ & _ & _ & Hb & _ & Hback & _).
  rewrite Hws0, Hmk0, Hwr0 in Hb, Hback.
  fold (writeStepFails w) in Hb. rewrite Hfails in Hb. cbn in Hb. subst b.
  rewrite Hroll in Hload. exists w2. split; [done|].
  assert (snapshotOf (addEvents pre w) = snapshotOf w) as Hsnap
    by (unfold snapshotOf; by rewrite Hws0, Hfile0).
  rewrite Hsnap in Hback.
  assert (rollbackLands w = true → mcpFile w2 = Holds (snapshotOf w)) as Hgoal.
  { unfold rollbackLands. intros [[Hws Hmk]%andb_true_iff Hl]%andb_true_iff.
    by apply Hback. }
  split; [done|].
  intros Hl m Hm. rewrite (Hgoal Hl), Hm. unfold snapshotOf. rewrite Hm.
  apply andb_true_iff in Hl as [[-> _]%andb_true_iff _]. done.
Qed.

Lemma sample_github_accepted :
  accepted (JArr [recommend "github" "The design uses pull requests"])
    (catalogOf sampleContext) "github".
Proof.
  eexists _, _. split; [left|]. split; [reflexivity|].
  split; [vm_compute; discriminate|]. split; [reflexivity|].
  split; [discriminate|]. vm_compute. eauto.
Defined.

Lemma C2_failed_write_rollback_witness :
  let recs := JArr [recommend "github" "The design uses pull requests"] in
  let w := workspaceWith (Holds (mcpConfigOf {["aws-docs" := awsDocs]}))
             [Rejects "EIO: i/o error" true] in
  ∃ w',
    ServerLoader.loadRecommendedServers recs sampleContext w = (Ok 0, w') ∧
    (rollbackLands w = true → mcpFile w' = Holds (snapshotOf w)) ∧
    (rollbackLands w = true →
     ∀ m, mcpFile w = Holds (mcpConfigOf m) → mcpFile w' = mcpFile w).
Proof.
  exact (C2_failed_write_rollback
           (JArr [recommend "github" "The design uses pull requests"])
           sampleContext
           (workspaceWith (Holds (mcpConfigOf {["aws-docs" := awsDocs]}))
              [Rejects "EIO: i/o error" true])
           (ex_intro _ "github" sample_github_accepted) eq_refl).
Defined.

(** C2, as the design document words it, fails. The workspace holds a
    configuration with [aws-docs]; the disk is full, so the write of the new
    configuration truncates the file and throws, and so does the write of the
    snapshot. The load returns 0 and leaves an unparseable file, not the
    document that was there before. *)
Lemma C2_counterexample :
  let before := Holds (mcpConfigOf {["aws-docs" := awsDocs]}) in
  let w := workspaceWith before
             [Rejects "ENOSPC: no space left on device" true;
              Rejects "ENOSPC: no space left on device" true] in
  let run := ServerLoader.loadRecommendedServers
               (JArr [recommend "github" "The design uses pull requests"])
               sampleContext w in
  run.1 = Ok 0 ∧
  length (mcpWrites (events run.2)) = 2 ∧
  mcpFile run.2 = Corrupt ∧
  mcpFile run.2 ≠ before.
Proof.
  cbv zeta. split; [|split; [|split]].
  - vm_compute. reflexivity.
  - vm_compute. reflexivity.
  - vm_compute. reflexivity.
  - vm_compute. discriminate.
Qed.




(** C6. For every call with the empty list, in every world: the load returns
    0; it adds one console entry and one informational notice and changes
    nothing else, so the document on disk is as before and no write is
    attempted; the notice is neither an error or warning nor a success. *)
Theorem C6_empty_list (ctx : ExtensionContext) (w : World) :
  let evs := [Notify LInfo NoServersRecommended;
              Console LInfo "Empty recommendations array received"] in
  ServerLoader.loadRecommendedServers (JArr []) ctx w = (Ok 0, addEvents evs w) ∧
  mcpFile (addEvents evs w) = mcpFile w ∧
  mcpWrites evs = [] ∧
  existsb isFailureNotice evs = false ∧
  existsb isSuccessNotice evs = false.
Proof. done. Qed.

(** ** The commands of [extension.ts] (C4, C7, C10) *)

Lemma extension_save_fields (config : McpConfig) (w : World)
    (r : Result unit) (w' : World) :
  Extension.saveWorkspaceMcpConfig config w = (r, w') →
  workspaceFolder w' = workspaceFolder w ∧
  envVarsFile w' = envVarsFile w ∧
  ∃ evs, events w' = evs ++ events w ∧
    if negb (workspaceFolder w) then
      isThrown r ∧ mcpFile w' = mcpFile w ∧ mkdirScript w' = mkdirScript w ∧
      writeScript w' = writeScript w ∧ mcpWrites evs = []
    else if negb (mkdirSucceeds (mkdirScript w)) then
      isThrown r ∧ mcpFile w' = mcpFile w ∧ mkdirScript w' = tail (mkdirScript w) ∧
      writeScript w' = writeScript w ∧ mcpWrites evs = []
    else
      mkdirScript w' = tail (mkdirScript w) ∧
      writeScript w' = tail (writeScript w) ∧
      mcpWrites evs = [config] ∧
      match writeScript w with
      | [] | Lands :: _ => r = Ok tt ∧ mcpFile w' = Holds config
      | LandsAs found :: _ => r = Ok tt ∧ mcpFile w' = found
      | Rejects _ truncated :: _ =>
          isThrown r ∧ mcpFile w' = if truncated then Corrupt else mcpFile w
      end.
Proof.
  unfold Extension.saveWorkspaceMcpConfig. run_monad.
  destruct (workspaceFolder w) eqn:Hws; cbn.
  - destruct (mkdirScript w) as [|[reason|] ms] eqn:Hmk; cbn.
    2: intros [= <- <-]; cbn; repeat split; try done; by new_events.
    all: destruct (writeScript w) as [|[|found|reason truncated] ws] eqn:Hwr; cbn.
    all: try destruct truncated; cbn.
    all: intros [= <- <-]; cbn; repeat split; try done; by new_events.
  - intros [= <- <-]; cbn. repeat split; try done. by new_events.
Qed.

Lemma withEnv_same (server : McpServer) (declared : gmap string string) :
  env server = Some declared → withEnv server declared = server.
Proof. destruct server. cbn. by intros ->. Qed.

Lemma extension_merge_effective (server : McpServer) (envVars : gmap string string) :
  Extension.mergeEnvironmentVariables server (Some envVars)
  = Ok (effectiveServer server envVars).
Proof.
  unfold Extension.mergeEnvironmentVariables, effectiveServer.
  destruct (env server) as [declared|] eqn:Henv; [|done].
  destruct (Nat.eqb (size declared) 0) eqn:Hsz.
  - apply Nat.eqb_eq, map_size_empty_inv in Hsz. subst declared.
    rewrite map_imap_empty. by rewrite withEnv_same.
  - do 2 f_equal. apply map_eq. intros key.
    change (foldl _ declared (map_to_list declared))
      with (foldl (mergeStep (Extension.mergedValue envVars) (λ _, false))
              declared (map_to_list declared)).
    rewrite merge_entries_lookup, map_lookup_imap.
    destruct (declared !! key) as [d|]; [|done].
    cbn. by rewrite extension_mergedValue.
Qed.

Lemma groupLoop_keys (serverIds : list string) (masterServers : MasterServers)
    (envVars : EnvVarsConfig) (built : gmap string McpServer) :
  Extension.groupLoop serverIds masterServers envVars = Ok built →
  dom built ⊆ dom (default ∅ (servers masterServers)).
Proof.
  unfold Extension.groupLoop.
  assert (∀ acc,
    dom acc ⊆ dom (default ∅ (servers masterServers)) →
    foldl (λ state serverId,
             match state with
             | Thrown errorMsg => Thrown errorMsg
             | Ok newServers =>
                 match servers masterServers with
                 | None => Thrown "Cannot read properties of undefined"
                 | Some catalog =>
                     match catalog !! serverId with
                     | None => Ok newServers
                     | Some server =>
                         match Extension.mergeEnvironmentVariables server
                                 (variables envVars) with
                         | Thrown errorMsg => Thrown errorMsg
                         | Ok serverWithEnv =>
                             Ok (<[serverId := serverWithEnv]> newServers)
                         end
                     end
                 end
             end) (Ok acc) serverIds = Ok built →
    dom built ⊆ dom (default ∅ (servers masterServers))) as Hgen.
  { induction serverIds as [|id ids IH]; intros acc Hacc.
    - cbn. by intros [= <-].
    - cbn [foldl].
      destruct (servers masterServers) as [catalog|] eqn:Hcat.
      + destruct (catalog !! id) as [server|] eqn:Hid; [|by apply IH].
        destruct (Extension.mergeEnvironmentVariables server (variables envVars)).
        * apply IH. rewrite dom_insert. cbn in Hacc |- *.
          apply union_subseteq. split; [|done].
          apply singleton_subseteq_l, elem_of_dom. eauto.
        * clear. induction ids; cbn; [done|]. done.
      + clear. induction ids; cbn; [done|]. done. }
  apply Hgen. rewrite dom_empty. apply empty_subseteq.
Qed.

Lemma groupLoop_fresh (serverIds : list string) (catalog : gmap string McpServer)
    (masterServers : MasterServers) (config : EnvVarsConfig)
    (envVars : gmap string string) :
  servers masterServers = Some catalog →
  variables config = Some envVars →
  Extension.groupLoop serverIds masterServers config
  = Ok (freshBuild serverIds catalog envVars).
Proof.
  intros Hcat Hvars. unfold Extension.groupLoop. rewrite Hcat, Hvars.
  assert (∀ acc ids,
    foldl (λ state serverId,
             match state with
             | Thrown errorMsg => Thrown errorMsg
             | Ok newServers =>
                 match catalog !! serverId with
                 | None => Ok newServers
                 | Some server =>
                     match Extension.mergeEnvironmentVariables server (Some envVars) with
                     | Thrown errorMsg => Thrown errorMsg
                     | Ok serverWithEnv =>
                         Ok (<[serverId := serverWithEnv]> newServers)
                     end
                 end
             end) (Ok acc) ids
    = Ok (freshBuild ids catalog envVars ∪ acc)) as Hgen.
  { intros acc ids. revert acc. induction ids as [|id ids IH]; intros acc.
    - cbn. f_equal. apply map_eq. intros k. unfold freshBuild.
      rewrite lookup_union, lookup_fmap, map_lookup_filter.
      destruct (catalog !! k) as [server|]; cbn; [|by destruct (acc !! k)].
      rewrite option_guard_False by apply not_elem_of_nil.
      by destruct (acc !! k).
    - cbn [foldl].
      assert (∀ acc',
        (∀ k, acc' !! k = if decide (k = id)
                          then match catalog !! id with
                               | Some server => Some (effectiveServer server envVars)
                               | None => acc !! id
                               end
                          else acc !! k) →
        freshBuild ids catalog envVars ∪ acc'
        = freshBuild (id :: ids) catalog envVars ∪ acc) as Hstep.
      { intros acc' Hacc'. apply map_eq. intros k.
        unfold freshBuild.
        rewrite !lookup_union, !lookup_fmap, !map_lookup_filter, Hacc'.
        destruct (decide (k = id)) as [->|Hne].
        - destruct (catalog !! id) as [server|] eqn:Hid; cbn.
          + rewrite (option_guard_True (id ∈ id :: ids)) by left. cbn.
            destruct (decide (id ∈ ids)).
            * rewrite option_guard_True by done. cbn. by destruct (acc !! id).
            * rewrite option_guard_False by done. cbn. by destruct (acc !! id).
          + done.
        - destruct (catalog !! k) as [server|] eqn:Hk; cbn; [|done].
          destruct (decide (k ∈ ids)).
          + rewrite !option_guard_True; [done| |done]. by right.
          + rewrite !option_guard_False; [done| |done].
            intros [?|?]%elem_of_cons; done. }
      destruct (catalog !! id) as [server|] eqn:Hid.
      + rewrite extension_merge_effective, IH. f_equal. apply Hstep.
        intros k. destruct (decide (k = id)) as [->|Hne].
        * by rewrite lookup_insert_eq.
        * rewrite lookup_insert_ne; [done|congruence].
      + rewrite IH. f_equal. apply Hstep.
        intros k. by destruct (decide (k = id)) as [->|Hne]. }
  rewrite Hgen. by rewrite (right_id_L ∅ (∪)).
Qed.

#[local] Arguments Extension.saveWorkspaceMcpConfig : simpl never.

Lemma group_load_run (group : ServerGroup) (ctx : ExtensionContext) (w : World) :
  Extension.loadServerGroup group ctx w =
  match masterServersFile ctx with
  | Holds masterServers =>
      match Extension.groupLoop (groupServers group) masterServers (extensionEnvVars w) with
      | Ok built => Extension.saveWorkspaceMcpConfig (mcpConfigOf built) w
      | Thrown errorMsg => (Thrown errorMsg, w)
      end
  | Absent => (Thrown "ENOENT: no such file or directory", w)
  | Corrupt => (Thrown "Unexpected end of JSON input", w)
  end.
Proof.
  unfold Extension.loadServerGroup, Extension.loadMasterServers,
    Extension.loadWorkspaceEnvVars, Extension.liftResult, extensionEnvVars.
  destruct (masterServersFile ctx) as [| |masterServers]; [done|done|].
  run_monad. destruct (workspaceFolder w); cbn.
  - destruct (envVarsFile w); cbn;
      by destruct (Extension.groupLoop _ _ _).
  - by destruct (Extension.groupLoop _ _ _).
Qed.

Lemma toggle_run (serverId : string) (server : McpServer) (w : World) :
  Extension.toggleServer serverId server w =
  match mcpServers (currentConfigOf w) with
  | None => (Thrown "Cannot use 'in' operator to search for a key in undefined", w)
  | Some active =>
      match active !! serverId with
      | Some _ =>
          Extension.saveWorkspaceMcpConfig
            {| mcpServers := Some (delete serverId active);
               otherMembers := otherMembers (currentConfigOf w) |} w
      | None =>
          match Extension.mergeEnvironmentVariables server
                  (variables (extensionEnvVars w)) with
          | Ok serverWithEnv =>
              Extension.saveWorkspaceMcpConfig
                {| mcpServers := Some (<[serverId := serverWithEnv]> active);
                   otherMembers := otherMembers (currentConfigOf w) |} w
          | Thrown errorMsg => (Thrown errorMsg, w)
          end
      end
  end.
Proof.
  unfold Extension.toggleServer, Extension.loadWorkspaceMcpConfig,
    Extension.loadWorkspaceEnvVars, Extension.liftResult,
    currentConfigOf, extensionEnvVars.
  run_monad.
  destruct (workspaceFolder w) eqn:Hws; cbn.
  - destruct (mcpFile w) as [| |parsed] eqn:Hfile; cbn.
    1,2: rewrite lookup_empty, Hws; cbn.
    1,2: destruct (envVarsFile w); cbn;
      by destruct (Extension.mergeEnvironmentVariables _ _).
    destruct (mcpServers parsed) as [active|]; [|done].
    destruct (active !! serverId); cbn; [done|].
    rewrite Hws; cbn.
    destruct (envVarsFile w); cbn;
      by destruct (Extension.mergeEnvironmentVariables _ _).
  - rewrite lookup_empty, Hws; cbn.
    by destruct (Extension.mergeEnvironmentVariables _ _).
Qed.

Lemma extension_save_lands (config : McpConfig) (w : World) :
  workspaceFolder w = true →
  mkdirSucceeds (mkdirScript w) = true →
  writeLands (writeScript w) = true →
  ∃ w', Extension.saveWorkspaceMcpConfig config w = (Ok tt, w') ∧
        mcpFile w' = Holds config ∧
        workspaceFolder w' = true ∧
        envVarsFile w' = envVarsFile w ∧
        mkdirScript w' = tail (mkdirScript w) ∧
        writeScript w' = tail (writeScript w).
Proof.
  intros Hws Hmk Hwr.
  destruct (Extension.saveWorkspaceMcpConfig config w) as [r w'] eqn:Hsave.
  apply extension_save_fields in Hsave as (Hws' & Henv' & evs & _ & Hcase).
  rewrite Hws, Hmk in Hcase. cbn in Hcase.
  destruct Hcase as (Hmk' & Hwr' & _ & Hcase).
  exists w'. rewrite Hws', Hws.
  destruct (writeScript w) as [|[]]; try done; by destruct Hcase as [-> ->].
Qed.

Lemma extension_save_no_workspace (config : McpConfig) (w : World) :
  workspaceFolder w = false →
  Extension.saveWorkspaceMcpConfig config w = (Thrown "No workspace folder found", w).
Proof.
  intros Hws. unfold Extension.saveWorkspaceMcpConfig. run_monad. by rewrite Hws.
Qed.

Lemma persistedKeys_current (w : World) :
  workspaceFolder w = true →
  persistedKeys (mcpFile w) = configKeys (currentConfigOf w).
Proof.
  intros Hws. unfold currentConfigOf. rewrite Hws.
  destruct (mcpFile w); cbn; try done.
  all: unfold configKeys; cbn; by rewrite dom_empty_L.
Qed.

Lemma toggle_once (serverId : string) (server : McpServer)
    (envVars : gmap string string) (w : World) :
  mkdirScript w = [] → writeScript w = [] →
  variables (extensionEnvVars w) = Some envVars →
  ∃ r w1,
    Extension.toggleServer serverId server w = (r, w1) ∧
    mkdirScript w1 = [] ∧ writeScript w1 = [] ∧
    workspaceFolder w1 = workspaceFolder w ∧
    envVarsFile w1 = envVarsFile w ∧
    if workspaceFolder w then
      match mcpServers (currentConfigOf w) with
      | None => mcpFile w1 = mcpFile w
      | Some active =>
          mcpFile w1 =
            Holds {| mcpServers :=
                       Some (match active !! serverId with
                             | Some _ => delete serverId active
                             | None => <[serverId := effectiveServer server envVars]> active
                             end);
                     otherMembers := otherMembers (currentConfigOf w) |}
      end
    else mcpFile w1 = mcpFile w.
Proof.
  intros Hmk Hwr Hvars. rewrite toggle_run, Hvars, extension_merge_effective.
  destruct (workspaceFolder w) eqn:Hws.
  - destruct (mcpServers (currentConfigOf w)) as [active|]; [|by eexists _, _].
    assert (∀ config, ∃ r w1,
      Extension.saveWorkspaceMcpConfig config w = (r, w1) ∧
      mkdirScript w1 = [] ∧ writeScript w1 = [] ∧ workspaceFolder w1 = true ∧
      envVarsFile w1 = envVarsFile w ∧ mcpFile w1 = Holds config) as Hsave.
    { intros config.
      destruct (extension_save_lands config w Hws) as (w1 & -> & ? & ? & ? & Hmk1 & Hwr1).
      - by rewrite Hmk.
      - by rewrite Hwr.
      - rewrite Hmk in Hmk1. rewrite Hwr in Hwr1. by eexists _, _. }
    destruct (active !! serverId);
      (edestruct Hsave as (r & w1 & -> & ? & ? & ? & ? & ?); by eexists _, _).
  - destruct (mcpServers (currentConfigOf w)) as [active|]; [|by eexists _, _].
    destruct (active !! serverId);
      rewrite extension_save_no_workspace by done; by eexists _, _.
Qed.

Lemma currentConfigOf_eq (w w1 : World) :
  workspaceFolder w1 = workspaceFolder w → mcpFile w1 = mcpFile w →
  currentConfigOf w1 = currentConfigOf w.
Proof. unfold currentConfigOf. by intros -> ->. Qed.

Lemma currentConfigOf_holds (w : World) (config : McpConfig) :
  workspaceFolder w = true → mcpFile w = Holds config →
  currentConfigOf w = config.
Proof. unfold currentConfigOf. by intros -> ->. Qed.

(** C10. In a workspace whose writes succeed and whose environment file
    yields a variables mapping (or is missing or unparseable), for every
    initial document, every [serverId] and every server definition: after two
    toggles in a row the set of server keys on disk is the initial one; each
    of the two toggles leaves the membership of every other key as it was; and
    when there is a workspace folder and the document has an [mcpServers]
    mapping (or is missing or unparseable), each toggle flips the membership of
    [serverId]. *)
Theorem C10_toggle_twice (serverId : string) (server : McpServer) (w : World) :
  mkdirScript w = [] →
  writeScript w = [] →
  is_Some (variables (extensionEnvVars w)) →
  let w1 := (Extension.toggleServer serverId server w).2 in
  let w2 := (Extension.toggleServer serverId server w1).2 in
  persistedKeys (mcpFile w2) = persistedKeys (mcpFile w) ∧
  (∀ key, key ≠ serverId →
     (key ∈ persistedKeys (mcpFile w1) ↔ key ∈ persistedKeys (mcpFile w)) ∧
     (key ∈ persistedKeys (mcpFile w2) ↔ key ∈ persistedKeys (mcpFile w1))) ∧
  (workspaceFolder w = true → is_Some (mcpServers (currentConfigOf w)) →
     (serverId ∈ persistedKeys (mcpFile w1) ↔ serverId ∉ persistedKeys (mcpFile w)) ∧
     (serverId ∈ persistedKeys (mcpFile w2) ↔ serverId ∉ persistedKeys (mcpFile w1))).
Proof.
  intros Hmk Hwr [envVars Hvars]. cbv zeta.
  destruct (toggle_once serverId server envVars w Hmk Hwr Hvars)
    as (r1 & w1 & -> & Hmk1 & Hwr1 & Hws1 & Henv1 & Hfile1).
  cbn [snd].
  assert (variables (extensionEnvVars w1) = Some envVars) as Hvars1
    by (unfold extensionEnvVars in *; by rewrite Hws1, Henv1).
  destruct (toggle_once serverId server envVars w1 Hmk1 Hwr1 Hvars1)
    as (r2 & w2 & -> & _ & _ & _ & _ & Hfile2).
  cbn [snd]. rewrite Hws1 in Hfile2.
  destruct (workspaceFolder w) eqn:Hws.
  2:{ rewrite Hfile2, Hfile1. split; [done|]. split; [done|]. done. }
  rewrite (persistedKeys_current w Hws).
  destruct (mcpServers (currentConfigOf w)) as [active|] eqn:Hactive.
  2:{ rewrite (currentConfigOf_eq w w1), Hactive in Hfile2 by congruence.
      rewrite Hfile2, Hfile1, (persistedKeys_current w Hws).
      split; [done|]. split; [done|]. by intros _ [? [=]]. }
  rewrite (currentConfigOf_holds w1 _ Hws1 Hfile1) in Hfile2. cbn in Hfile2.
  rewrite Hfile1, Hfile2. cbn [persistedKeys].
  unfold configKeys. rewrite Hactive. cbn [mcpServers default from_option id].
  destruct (active !! serverId) as [present|] eqn:Hid.
  - rewrite lookup_delete_eq, dom_insert_L, dom_delete_L.
    assert (serverId ∈ dom active) by (apply elem_of_dom; eauto).
    split; [|split].
    + apply set_eq. intros key. rewrite elem_of_union, elem_of_difference,
        elem_of_singleton. destruct (decide (key = serverId)) as [->|]; tauto.
    + intros key Hne. rewrite elem_of_union, elem_of_difference, elem_of_singleton.
      tauto.
    + intros _ _. rewrite elem_of_union, elem_of_difference, elem_of_singleton.
      tauto.
  - rewrite lookup_insert_eq, dom_delete_L, dom_insert_L.
    assert (serverId ∉ dom active) by (by apply not_elem_of_dom).
    split; [|split].
    + apply set_eq. intros key. rewrite elem_of_difference, elem_of_union,
        elem_of_singleton. destruct (decide (key = serverId)) as [->|]; tauto.
    + intros key Hne. rewrite elem_of_difference, elem_of_union, elem_of_singleton.
      tauto.
    + intros _ _. rewrite elem_of_difference, elem_of_union, elem_of_singleton.
      tauto.
Qed.

Lemma C10_toggle_twice_witness :
  let w := workspaceWith (Holds (mcpConfigOf {["github" := github]})) [] in
  let w1 := (Extension.toggleServer "aws-docs" awsDocs w).2 in
  let w2 := (Extension.toggleServer "aws-docs" awsDocs w1).2 in
  persistedKeys (mcpFile w2) = persistedKeys (mcpFile w) ∧
  (∀ key, key ≠ "aws-docs" →
     (key ∈ persistedKeys (mcpFile w1) ↔ key ∈ persistedKeys (mcpFile w)) ∧
     (key ∈ persistedKeys (mcpFile w2) ↔ key ∈ persistedKeys (mcpFile w1))) ∧
  (workspaceFolder w = true → is_Some (mcpServers (currentConfigOf w)) →
     ("aws-docs" ∈ persistedKeys (mcpFile w1) ↔ "aws-docs" ∉ persistedKeys (mcpFile w)) ∧
     ("aws-docs" ∈ persistedKeys (mcpFile w2) ↔ "aws-docs" ∉ persistedKeys (mcpFile w1))).
Proof.
  exact (C10_toggle_twice "aws-docs" awsDocs
           (workspaceWith (Holds (mcpConfigOf {["github" := github]})) [])
           eq_refl eq_refl (ex_intro _ ∅ eq_refl)).
Defined.

Lemma group_load_fields (group : ServerGroup) (ctx : ExtensionContext) (w : World) :
  ∃ r w' evs,
    Extension.loadServerGroup group ctx w = (r, w') ∧
    workspaceFolder w' = workspaceFolder w ∧
    envVarsFile w' = envVarsFile w ∧
    events w' = evs ++ events w ∧
    (mkdirScript w = [] → mkdirScript w' = []) ∧
    (writeScript w = [] → writeScript w' = []) ∧
    (∀ c, c ∈ mcpWrites evs → configKeys c ⊆ dom (catalogOf ctx)) ∧
    (honest (writeScript w) →
     mcpFile w' = mcpFile w ∨ mcpFile w' = Corrupt ∨
     ∃ c, mcpFile w' = Holds c ∧ configKeys c ⊆ dom (catalogOf ctx)) ∧
    (r = Ok tt → writeLands (writeScript w) = true →
     ∃ c, mcpFile w' = Holds c ∧ configKeys c ⊆ dom (catalogOf ctx)).
Proof.
  rewrite group_load_run. unfold catalogOf.
  destruct (masterServersFile ctx) as [| |masterServers].
  1,2: eexists _, w, []; repeat split; try done; eauto;
    intros c Hc; by apply elem_of_nil in Hc.
  destruct (Extension.groupLoop _ _ _) as [built|errorMsg] eqn:Hloop.
  2: eexists _, w, []; repeat split; try done; eauto;
    intros c Hc; by apply elem_of_nil in Hc.
  apply groupLoop_keys in Hloop.
  destruct (Extension.saveWorkspaceMcpConfig (mcpConfigOf built) w) as [r w'] eqn:Hsave.
  apply extension_save_fields in Hsave as (Hws & Henv & evs & Hev & Hcase).
  exists r, w', evs. do 4 (split; [done|]).
  destruct (workspaceFolder w); cbn [negb] in Hcase.
  2:{ destruct Hcase as (Hthrown & Hf & Hmk & Hwr & Hw). rewrite Hw, Hmk, Hwr.
      repeat split; try done; eauto.
      - intros c Hc. by apply elem_of_nil in Hc.
      - intros ->. by destruct Hthrown. }
  destruct (mkdirSucceeds (mkdirScript w)); cbn [negb] in Hcase.
  2:{ destruct Hcase as (Hthrown & Hf & Hmk & Hwr & Hw). rewrite Hw, Hmk, Hwr.
      repeat split; try done; eauto.
      - by intros ->.
      - intros c Hc. by apply elem_of_nil in Hc.
      - intros ->. by destruct Hthrown. }
  destruct Hcase as (Hmk & Hwr & Hw & Hcase). rewrite Hw, Hmk, Hwr.
  split; [by intros ->|]. split; [by intros ->|].
  split; [by intros c ->%list_elem_of_singleton|].
  split.
  - intros Hhonest.
    destruct (writeScript w) as [|[|found|reason truncated] rest];
      destruct Hcase as [Hr ->]; eauto.
    + exfalso. apply (Hhonest found). left.
    + destruct truncated; eauto.
  - intros -> Hlands.
    destruct (writeScript w) as [|[|found|reason truncated] rest];
      destruct Hcase as [Hr ->]; eauto; done.
Qed.

(** C7. For every group and every catalog, in a workspace whose write
    succeeds: the document on disk after the load is the fresh build from the
    group's list, the catalog and the environment values read at that load,
    whatever the document held before. This is so for every prior world, and
    in particular after an earlier load of any group followed by an edit of
    the environment file. *)
Theorem C7_group_load_replaces (group : ServerGroup) (ctx : ExtensionContext)
    (catalog : gmap string McpServer) :
  masterServersFile ctx = Holds {| servers := Some catalog |} →
  (∀ (w : World) (envVars : gmap string string),
     workspaceFolder w = true →
     mkdirSucceeds (mkdirScript w) = true →
     writeLands (writeScript w) = true →
     variables (extensionEnvVars w) = Some envVars →
     ∃ w', Extension.loadServerGroup group ctx w = (Ok tt, w') ∧
           mcpFile w' =
             Holds (mcpConfigOf (freshBuild (groupServers group) catalog envVars)))
  ∧ (∀ (w : World) (previous : ServerGroup) (edited : File EnvVarsConfig)
       (envVars : gmap string string),
       workspaceFolder w = true →
       mkdirScript w = [] →
       writeScript w = [] →
       let w1 := setEnvVarsFile edited (Extension.loadServerGroup previous ctx w).2 in
       variables (extensionEnvVars w1) = Some envVars →
       ∃ w2, Extension.loadServerGroup group ctx w1 = (Ok tt, w2) ∧
             mcpFile w2 =
               Holds (mcpConfigOf (freshBuild (groupServers group) catalog envVars))).
Proof.
  intros Hctx.
  assert (∀ (w : World) (envVars : gmap string string),
     workspaceFolder w = true →
     mkdirSucceeds (mkdirScript w) = true →
     writeLands (writeScript w) = true →
     variables (extensionEnvVars w) = Some envVars →
     ∃ w', Extension.loadServerGroup group ctx w = (Ok tt, w') ∧
           mcpFile w' =
             Holds (mcpConfigOf (freshBuild (groupServers group) catalog envVars)))
    as Hone.
  { intros w envVars Hws Hmk Hwr Hvars.
    rewrite group_load_run, Hctx.
    rewrite (groupLoop_fresh _ catalog _ _ envVars) by done.
    destruct (extension_save_lands
                (mcpConfigOf (freshBuild (groupServers group) catalog envVars))
                w Hws Hmk Hwr) as (w' & -> & Hfile & _).
    by exists w'. }
  split; [exact Hone|].
  intros w previous edited envVars Hws Hmk Hwr w1 Hvars.
  destruct (group_load_fields previous ctx w)
    as (r0 & w0 & evs & Hrun & Hws0 & _ & _ & Hmk0 & Hwr0 & _).
  subst w1. rewrite Hrun in Hvars |- *. cbn [snd] in Hvars |- *.
  apply Hone; cbn; rewrite ?Hws0, ?Hmk0, ?Hwr0; done.
Qed.

Lemma C7_group_load_replaces_witness :
  let w := workspaceWith (Holds (mcpConfigOf {["github" := github]})) [] in
  ∃ w',
    Extension.loadServerGroup coreGroup sampleContext w = (Ok tt, w') ∧
    mcpFile w' =
      Holds (mcpConfigOf (freshBuild (groupServers coreGroup) sampleCatalog ∅)).
Proof.
  exact (proj1 (C7_group_load_replaces coreGroup sampleContext sampleCatalog eq_refl)
           (workspaceWith (Holds (mcpConfigOf {["github" := github]})) []) ∅
           eq_refl eq_refl eq_refl eq_refl).
Defined.

(** C4, as amended. For every catalog file and every world. A group load
    hands to [writeFile] only documents whose keys are catalog keys. A
    recommendation load hands to [writeFile] the new configuration, whose keys
    are catalog keys, and, only after the write step of the new configuration
    has failed, the snapshot it read before, whose keys are those that were on
    disk, catalog keys or not; when it succeeds the one document it wrote has
    catalog keys only. When either operation succeeds and its write leaves
    its text, every key on disk is a catalog key, whatever was there before.
    When no write is overtaken by foreign content, either operation preserves
    the invariant that every key on disk is a catalog key, whichever way it
    ends. *)
Theorem C4_written_keys_in_catalog (ctx : ExtensionContext) (w : World) :
  let known := dom (catalogOf ctx) in
  (∀ group,
     ∃ r w' evs,
       Extension.loadServerGroup group ctx w = (r, w') ∧
       events w' = evs ++ events w ∧
       (∀ c, c ∈ mcpWrites evs → configKeys c ⊆ known) ∧
       (r = Ok tt → writeLands (writeScript w) = true →
        persistedKeys (mcpFile w') ⊆ known) ∧
       (honest (writeScript w) → persistedKeys (mcpFile w) ⊆ known →
        persistedKeys (mcpFile w') ⊆ known))
  ∧ (∀ recs,
       ∃ n w' evs,
         ServerLoader.loadRecommendedServers recs ctx w = (Ok n, w') ∧
         events w' = evs ++ events w ∧
         (∀ c, c ∈ mcpWrites evs →
            configKeys c ⊆ known ∨ (writeStepFails w = true ∧ c = snapshotOf w)) ∧
         (∀ c, c ∈ mcpWrites evs →
            configKeys c ⊆ known ∪ persistedKeys (mcpFile w)) ∧
         (0 < n → ∀ c, c ∈ mcpWrites evs → configKeys c ⊆ known) ∧
         (0 < n → writeLands (writeScript w) = true →
          persistedKeys (mcpFile w') ⊆ known) ∧
         (honest (writeScript w) → persistedKeys (mcpFile w) ⊆ known →
          persistedKeys (mcpFile w') ⊆ known)).
Proof.
  cbv zeta. split.
  - intros group.
    destruct (group_load_fields group ctx w)
      as (r & w' & evs & Hrun & _ & _ & Hev & _ & _ & Hwrites & Hdisk & Hok).
    exists r, w', evs. do 3 (split; [done|]). split.
    + intros Hr Hl. by destruct (Hok Hr Hl) as (c & -> & Hc).
    + intros Hhonest Hbefore.
      destruct (Hdisk Hhonest) as [-> | [-> | (c & -> & Hc)]]; done.
  - intros recs.
    destruct (load_pipeline recs ctx w) as (pre & Hw & Hq & _ & Hload).
    pose proof (addEvents_fields pre w) as (Hws0 & _ & Hfile0 & Hmk0 & Hwr0 & Hev0).
    set (ids := validIdsOf recs (catalogOf ctx)) in *.
    set (built := ServerLoader.buildConfig ids (catalogOf ctx) (loaderVariables w)) in *.
    destruct (Nat.eqb (size built) 0) eqn:Hsize.
    { exists 0, (addEvents pre w), pre. rewrite Hfile0, Hw.
      split; [done|]. split; [done|].
      split; [intros c Hc; by apply elem_of_nil in Hc|].
      split; [intros c Hc; by apply elem_of_nil in Hc|].
      repeat split; try done; lia. }
    assert (configKeys (mcpConfigOf built) ⊆ dom (catalogOf ctx)) as Hbuilt.
    { intros id [_ Hid]%loader_buildConfig_dom. by apply elem_of_dom. }
    assert (snapshotOf (addEvents pre w) = snapshotOf w) as Hsnap
      by (unfold snapshotOf; by rewrite Hws0, Hfile0).
    assert (configKeys (snapshotOf w) ⊆ persistedKeys (mcpFile w)) as Hsnapkeys.
    { unfold snapshotOf, configKeys. cbn.
      destruct (workspaceFolder w); [|by rewrite dom_empty_L].
      destruct (mcpFile w); cbn; by rewrite ?dom_empty_L. }
    destruct (rollback_spec (mcpConfigOf built) _ (addEvents pre w) eq_refl)
      as (b & w2 & evs & Hroll & _ & _ & Hev & _ & Hwrites & Hb & Hlands & _ & Hdisk).
    rewrite Hroll in Hload. rewrite Hsnap in Hwrites, Hdisk.
    rewrite Hwr0 in Hlands, Hdisk. rewrite Hfile0 in Hdisk.
    rewrite Hws0, Hmk0, Hwr0 in Hb. fold (writeStepFails w) in Hb.
    assert (∀ c, c ∈ mcpWrites (evs ++ pre) →
                 c = mcpConfigOf built ∨ b = false ∧ c = snapshotOf w) as Hall.
    { intros c. rewrite mcpWrites_app, Hw, app_nil_r.
      destruct b.
      - rewrite Hwrites. intros ->%list_elem_of_singleton. by left.
      - destruct Hwrites as [-> | [-> | [-> | ->]]].
        + by intros ?%elem_of_nil.
        + intros ->%list_elem_of_singleton. by left.
        + intros ->%list_elem_of_singleton. by right.
        + intros [-> | ->%list_elem_of_singleton]%elem_of_cons; auto. }
    assert (∀ c, c ∈ mcpWrites (evs ++ pre) →
                 configKeys c ⊆ dom (catalogOf ctx)
                 ∨ (writeStepFails w = true ∧ c = snapshotOf w)) as Hwhich.
    { intros c [-> | [-> ->]]%Hall; [by left|]. right.
      split; [|done]. by destruct (writeStepFails w). }
    assert (∀ c, c ∈ mcpWrites (evs ++ pre) →
                 configKeys c ⊆ dom (catalogOf ctx) ∪ persistedKeys (mcpFile w))
      as Hkeys.
    { intros c [-> | [_ ->]]%Hall.
      - etransitivity; [exact Hbuilt|]. apply union_subseteq_l.
      - etransitivity; [exact Hsnapkeys|]. apply union_subseteq_r. }
    assert (honest (writeScript w) → persistedKeys (mcpFile w) ⊆ dom (catalogOf ctx) →
            persistedKeys (mcpFile w2) ⊆ dom (catalogOf ctx)) as Hkeep.
    { intros Hhonest Hbefore.
      destruct (Hdisk Hhonest) as [-> | [-> | [-> | ->]]]; try done.
      cbn. by etransitivity. }
    destruct b.
    + eexists _, _, (Notify LInfo (LoadedServers (length ids) ids) :: evs ++ pre).
      split; [exact Hload|]. cbn [record events mcpFile].
      rewrite Hev, Hev0. split; [cbn [app]; by rewrite <-app_assoc|].
      split; [exact Hwhich|].
      split; [exact Hkeys|]. split; [|split; [|done]].
      * intros _ c [-> | [[=] _]]%Hall. exact Hbuilt.
      * intros _ Hl. by rewrite (Hlands eq_refl Hl).
    + exists 0, w2, (evs ++ pre). split; [done|].
      rewrite Hev, Hev0. split; [by rewrite <-app_assoc|].
      split; [exact Hwhich|].
      split; [exact Hkeys|]. split; [lia|]. split; [lia|done].
Qed.

Lemma honest_nil : honest [].
Proof. intros found Hin. by apply elem_of_nil in Hin. Defined.

Lemma C4_written_keys_in_catalog_witness :
  let w := workspaceWith (Holds (mcpConfigOf {["github" := github]})) [] in
  let recs := JArr [recommend "aws-docs" "r1"; recommend "unknown-x" "r2"] in
  persistedKeys (mcpFile (ServerLoader.loadRecommendedServers recs sampleContext w).2)
    ⊆ dom (catalogOf sampleContext)
  ∧ persistedKeys (mcpFile (Extension.loadServerGroup coreGroup sampleContext w).2)
    ⊆ dom (catalogOf sampleContext).
Proof.
  cbv zeta.
  assert (persistedKeys
            (mcpFile (workspaceWith (Holds (mcpConfigOf {["github" := github]})) []))
          ⊆ dom (catalogOf sampleContext)) as Hbefore.
  { intros key Hkey. cbn in Hkey. unfold configKeys in Hkey. cbn in Hkey.
    rewrite dom_singleton_L in Hkey. apply elem_of_singleton in Hkey as ->.
    apply elem_of_dom. vm_compute. eauto. }
  destruct (C4_written_keys_in_catalog sampleContext
              (workspaceWith (Holds (mcpConfigOf {["github" := github]})) []))
    as [Hgroup Hrecs].
  split.
  - destruct (Hrecs (JArr [recommend "aws-docs" "r1"; recommend "unknown-x" "r2"]))
      as (n & w' & evs & -> & _ & _ & _ & _ & _ & Hkeep).
    exact (Hkeep honest_nil Hbefore).
  - destruct (Hgroup coreGroup) as (r & w' & evs & -> & _ & _ & _ & Hkeep).
    exact (Hkeep honest_nil Hbefore).
Defined.

(** C4, as the design document words it, fails. The workspace holds a
    configuration with the server [legacy], which is not in the catalog. A
    recommendation load for [github] finds the disk failing: the write of the
    new configuration empties the file and throws. The load then writes back
    the snapshot it read before, so that a document with the key [legacy] is
    handed to [writeFile] at a time when the catalog has no such server, and
    is the document on disk when the load has returned. *)
Lemma C4_counterexample :
  let before := mcpConfigOf {["legacy" := handMade]} in
  let w := workspaceWith (Holds before) [Rejects "EIO: i/o error" true] in
  let run := ServerLoader.loadRecommendedServers
               (JArr [recommend "github" "The design uses pull requests"])
               sampleContext w in
  ("legacy" ∉ dom (catalogOf sampleContext)) ∧
  run.1 = Ok 0 ∧
  head (mcpWrites (events run.2)) = Some before ∧
  "legacy" ∈ configKeys before ∧
  mcpFile run.2 = Holds before ∧
  ¬ persistedKeys (mcpFile run.2) ⊆ dom (catalogOf sampleContext).
Proof.
  cbv zeta.
  assert ("legacy" ∉ dom (catalogOf sampleContext)) as Hunknown.
  { apply not_elem_of_dom. vm_compute. reflexivity. }
  assert ("legacy" ∈ configKeys (mcpConfigOf {["legacy" := handMade]})) as Hkey.
  { unfold configKeys. cbn. rewrite dom_singleton_L. by apply elem_of_singleton. }
  assert (mcpFile (ServerLoader.loadRecommendedServers
                     (JArr [recommend "github" "The design uses pull requests"])
                     sampleContext
                     (workspaceWith (Holds (mcpConfigOf {["legacy" := handMade]}))
                        [Rejects "EIO: i/o error" true])).2
          = Holds (mcpConfigOf {["legacy" := handMade]})) as Hdisk
    by (vm_compute; reflexivity).
  split; [done|]. split; [vm_compute; reflexivity|].
  split; [vm_compute; reflexivity|]. split; [done|]. split; [done|].
  rewrite Hdisk. intros Hsub. apply Hunknown, Hsub. exact Hkey.
Qed.

(** ** The hook initializer (C8) *)

Import HookManager.

Ltac run_hook :=
  unfold bind, tryCatch, ret, throw, hemit, getWorld,
    HookManager.fsMkdir, fsWriteHook, fsWriteReference, fsReadHook, fsAccessHook; cbn.

Ltac hook_events_of w1 w :=
  lazymatch w1 with
  | w => constr:(@nil HookEvent)
  | hrecord ?e ?w' => let r := hook_events_of w' w in constr:(e :: r)
  end.

Lemma hookWrites_app (evs1 evs2 : list HookEvent) :
  hookWrites (evs1 ++ evs2) = hookWrites evs1 ++ hookWrites evs2.
Proof. apply omap_app. Qed.

Lemma generated_hook_valid : validateHookConfig createHookConfig = true.
Proof. vm_compute. reflexivity. Qed.

Lemma checkExistingHook_reads (w : HookWorld) :
  ∃ evs, checkExistingHook w = (Ok tt, addHookEvents evs w) ∧ hookWrites evs = [].
Proof.
  unfold checkExistingHook. run_hook.
  destruct (hookFile w) as [| |existing]; cbn.
  1,2: by eexists [_].
  destruct existing; cbn; try (by eexists [_]).
  all: destruct (_ || _); cbn; first [by eexists [_] | by exists []].
Qed.

Lemma ensureHook_existing (ctx : ExtensionContext) (w : HookWorld) :
  hookFile w ≠ Absent →
  ∃ evs, ensureHook ctx w = (Ok tt, addHookEvents evs w) ∧ hookWrites evs = [].
Proof.
  intros Hfile. unfold ensureHook.
  unfold bind at 1. unfold getWorld at 1. unfold tryCatch at 1.
  destruct (hookWorkspaceFolder w); cbn [negb].
  2: { run_hook. by eexists [_]. }
  unfold tryCatch at 1. unfold bind at 1. unfold fsAccessHook at 1.
  destruct (hookFile w) eqn:Hf; [done| |].
  all: unfold bind at 1; unfold hemit at 1.
  all: destruct (checkExistingHook (hrecord _ w)) as [r w'] eqn:Hcheck.
  all: destruct (checkExistingHook_reads
                   (hrecord (HookConsole LInfo "Agent hook already exists, skipping creation") w))
         as (evs & Hrun & Hw).
  all: rewrite Hrun in Hcheck; injection Hcheck as <- <-.
  all: exists (evs ++ [HookConsole LInfo "Agent hook already exists, skipping creation"]).
  all: unfold addHookEvents; rewrite foldr_app, hookWrites_app, Hw; by cbn.
Qed.

Ltac hook_new_events :=
  first [ exists (@nil HookEvent); split; [reflexivity|]
        | eexists [_]; split; [reflexivity|]
        | eexists [_; _]; split; [reflexivity|]
        | eexists [_; _; _]; split; [reflexivity|]
        | eexists [_; _; _; _]; split; [reflexivity|]
        | eexists [_; _; _; _; _]; split; [reflexivity|] ].

Lemma copy_leaves_hook (ctx : ExtensionContext) (w : HookWorld) :
  ∃ w',
    copyMasterServersToWorkspace ctx w = (Ok tt, w') ∧
    ∃ evs,
      hookEvents w' = evs ++ hookEvents w ∧
      hookWrites evs = [] ∧
      hookFile w' = hookFile w ∧
      hookWriteScript w' = hookWriteScript w ∧
      hookWorkspaceFolder w' = hookWorkspaceFolder w.
Proof.
  unfold copyMasterServersToWorkspace. run_hook.
  destruct (hookMkdirScript w) as [|[reason|] script]; cbn.
  2: eexists; (split; [reflexivity|]); cbn; by hook_new_events.
  all: destruct (masterServersFile ctx) as [| |parsed]; cbn.
  all: try (eexists; (split; [reflexivity|]); cbn; by hook_new_events).
  all: destruct (referenceWriteScript w) as [|[|found|reason truncated] rest]; cbn.
  all: try destruct truncated; cbn.
  all: eexists; (split; [reflexivity|]); cbn; by hook_new_events.
Qed.

Lemma verifyHook_reads (config : KiroHookConfig) (w : HookWorld) :
  ∃ r, verifyHook config w = (r, w).
Proof.
  unfold verifyHook. run_hook.
  destruct (hookFile w) as [| |parsed]; cbn; try by eexists.
  destruct parsed; cbn; try by eexists.
  all: destruct (Js.assoc _ _) as [[]|]; cbn; try by eexists.
  all: destruct (_ || _); by eexists.
Qed.

Lemma createHook_writes (config : KiroHookConfig) (w : HookWorld) :
  ∃ r w',
    createHook config w = (r, w') ∧
    ∃ evs,
      hookEvents w' = evs ++ hookEvents w ∧
      (hookWrites evs = [toJson config] ∨ hookWrites evs = [] ∧ hookFile w' = hookFile w).
Proof.
  unfold createHook. unfold tryCatch at 1. unfold bind at 1. unfold tryCatch at 1.
  unfold HookManager.fsMkdir.
  destruct (hookMkdirScript w) as [|[reason|] script]; cbn [fst snd].
  2: { run_hook. eexists _, _. split; [reflexivity|]. cbn.
       hook_new_events. by right. }
  all: unfold bind at 1; unfold tryCatch at 1; unfold fsWriteHook; cbn.
  all: destruct (hookWriteScript w) as [|[|found|reason truncated] rest]; cbn.
  all: try destruct truncated; cbn.
  all: try (run_hook; eexists _, _; (split; [reflexivity|]); cbn;
            hook_new_events; by left).
  all: unfold tryCatch at 1.
  all: lazymatch goal with
       | |- context [verifyHook ?c ?w1] =>
           destruct (verifyHook_reads c w1) as [r ->]
       end.
  all: destruct r; run_hook; eexists _, _; (split; [reflexivity|]); cbn;
         hook_new_events; by left.
Qed.

Lemma ensureHook_absent (ctx : ExtensionContext) (w : HookWorld) :
  hookWorkspaceFolder w = true →
  hookFile w = Absent →
  ∃ w1,
    ensureHook ctx w = (Ok tt, w1) ∧
    ∃ evs,
      hookEvents w1 = evs ++ hookEvents w ∧
      (hookWrites evs = [toJson createHookConfig]
       ∨ hookWrites evs = [] ∧ hookFile w1 = Absent).
Proof.
  intros Hws Hfile. unfold ensureHook.
  unfold bind at 1. unfold getWorld at 1. unfold tryCatch at 1.
  rewrite Hws. cbn [negb].
  unfold tryCatch at 1. unfold bind at 1. unfold fsAccessHook at 1.
  rewrite Hfile. rewrite generated_hook_valid. cbn [negb].
  unfold tryCatch at 1. unfold bind at 1. unfold hemit at 1.
  unfold bind at 1.
  destruct (copy_leaves_hook ctx
              (hrecord (HookConsole LInfo "Creating agent hook configuration") w))
    as (w0 & -> & evs0 & Hev0 & Hw0 & Hfile0 & _).
  unfold bind at 1.
  destruct (createHook_writes createHookConfig w0) as (r & w1 & -> & evs1 & Hev1 & Hw1).
  cbn in Hev0, Hfile0. rewrite Hfile in Hfile0.
  destruct r as [[]|errorMsg]; run_hook.
  all: eexists; (split; [reflexivity|]); cbn.
  all: rewrite Hev1, Hev0.
  - exists (HookNotify LInfo "MCP Design Analyzer hook created! Please reload the window to activate the hook."
            :: HookConsole LInfo "Agent hook created successfully at:"
            :: evs1 ++ evs0 ++ [HookConsole LInfo "Creating agent hook configuration"]).
    split; [cbn; by rewrite <-!app_assoc|].
    change (hookWrites (?a :: ?b :: ?l)) with (hookWrites l).
    rewrite !hookWrites_app, Hw0. cbn. rewrite app_nil_r.
    destruct Hw1 as [->|[-> ->]]; [by left|by right].
  - exists (HookConsole LError "Failed to create agent hook:"
            :: evs1 ++ evs0 ++ [HookConsole LInfo "Creating agent hook configuration"]).
    split; [cbn; by rewrite <-!app_assoc|].
    change (hookWrites (?a :: ?l)) with (hookWrites l).
    rewrite !hookWrites_app, Hw0. cbn. rewrite app_nil_r.
    destruct Hw1 as [->|[-> ->]]; [by left|by right].
Qed.

Lemma addHookEvents_fields (evs : list HookEvent) (w : HookWorld) :
  hookFile (addHookEvents evs w) = hookFile w ∧
  hookEvents (addHookEvents evs w) = evs ++ hookEvents w.
Proof.
  induction evs as [|e evs [IH1 IH2]]; [done|].
  cbn. split; [done|]. by f_equal.
Qed.

(** C8. For every state of the hook document and of the host. When the hook
    document exists, the initializer hands nothing to [writeFile] and leaves
    the document as it is; it only reads it for the shallow check. Hence, from
    a workspace without hook document, when the first call leaves a hook
    document behind, the two calls together hand exactly one document to
    [writeFile], the generated configuration, and the second call leaves the
    document of the first untouched. *)
Theorem C8_hook_written_once (ctx : ExtensionContext) (w : HookWorld) :
  (hookFile w ≠ Absent →
   ∃ evs,
     ensureHook ctx w = (Ok tt, addHookEvents evs w) ∧
     hookWrites evs = [] ∧
     hookFile (addHookEvents evs w) = hookFile w)
  ∧ (hookWorkspaceFolder w = true →
     hookFile w = Absent →
     let w1 := (ensureHook ctx w).2 in
     let w2 := (ensureHook ctx w1).2 in
     hookFile w1 ≠ Absent →
     ∃ evs1 evs2,
       hookEvents w1 = evs1 ++ hookEvents w ∧
       hookEvents w2 = evs2 ++ hookEvents w1 ∧
       hookWrites evs1 = [toJson createHookConfig] ∧
       hookWrites evs2 = [] ∧
       hookWrites (evs2 ++ evs1) = [toJson createHookConfig] ∧
       hookFile w2 = hookFile w1).
Proof.
  split.
  - intros Hfile.
    destruct (ensureHook_existing ctx w Hfile) as (evs & Hrun & Hw).
    exists evs. split; [done|]. split; [done|]. apply addHookEvents_fields.
  - intros Hws Hfile. cbv zeta.
    destruct (ensureHook_absent ctx w Hws Hfile) as (w1 & -> & evs1 & Hev1 & Hw1).
    cbn [snd]. intros Hcreated.
    destruct Hw1 as [Hw1|[_ Habsent]]; [|done].
    destruct (ensureHook_existing ctx w1 Hcreated) as (evs2 & -> & Hw2).
    cbn [snd]. destruct (addHookEvents_fields evs2 w1) as [Hf2 Hev2].
    exists evs1, evs2. rewrite hookWrites_app, Hw1, Hw2. by repeat split.
Qed.

Lemma C8_hook_written_once_witness :
  let w1 := (ensureHook sampleContext freshHookWorld).2 in
  let w2 := (ensureHook sampleContext w1).2 in
  ∃ evs1 evs2,
    hookEvents w1 = evs1 ++ hookEvents freshHookWorld ∧
    hookEvents w2 = evs2 ++ hookEvents w1 ∧
    hookWrites evs1 = [toJson createHookConfig] ∧
    hookWrites evs2 = [] ∧
    hookWrites (evs2 ++ evs1) = [toJson createHookConfig] ∧
    hookFile w2 = hookFile w1.
Proof.
  assert (hookFile (ensureHook sampleContext freshHookWorld).2 ≠ Absent) as Hcreated
    by (vm_compute; discriminate).
  exact (proj2 (C8_hook_written_once sampleContext freshHookWorld)
           eq_refl eq_refl Hcreated).
Defined.

(** * Further properties of the code *)

(** ** More on the recommendation loader *)

Lemma notices_app (evs1 evs2 : list Event) :
  notices (evs1 ++ evs2) = notices evs1 ++ notices evs2.
Proof. apply omap_app. Qed.

(** X1. [loadRecommendedServers] never throws: whatever the input, the
    catalog file and the workspace, it returns a count. The count is positive
    exactly when the success notification is shown, and exactly when some
    identifier is accepted and the write of the new configuration goes through
    (there is a workspace folder, [mkdir] succeeds and [writeFile] resolves);
    in every other case it is 0. *)
Theorem loader_count_reports_success (recs : Json) (ctx : ExtensionContext) (w : World) :
  ∃ n w' evs,
    ServerLoader.loadRecommendedServers recs ctx w = (Ok n, w') ∧
    events w' = evs ++ events w ∧
    (0 < n ↔ existsb isSuccessNotice evs = true) ∧
    (0 < n ↔ (∃ id, accepted recs (catalogOf ctx) id) ∧ writeStepFails w = false).
Proof.
  destruct (load_pipeline recs ctx w) as (pre & Hw & Hq & _ & Hload).
  pose proof (addEvents_fields pre w) as (Hws0 & _ & Hfile0 & Hmk0 & Hwr0 & Hev0).
  set (ids := validIdsOf recs (catalogOf ctx)) in *.
  set (built := ServerLoader.buildConfig ids (catalogOf ctx) (loaderVariables w)) in *.
  destruct (Nat.eqb (size built) 0) eqn:Hsize.
  - pose proof (proj1 (built_empty_iff recs (catalogOf ctx) (loaderVariables w)) Hsize)
      as Hnone.
    exists 0, (addEvents pre w), pre. split; [done|]. split; [done|].
    rewrite Hq. split; [split; [lia|done]|]. split; [lia|].
    intros [[id Hacc] _]. by destruct (Hnone id).
  - assert (∃ id, accepted recs (catalogOf ctx) id) as Hsome.
    { apply Nat.eqb_neq in Hsize.
      destruct (map_choose built) as (id & server & Hid).
      { intros Hempty. apply Hsize. rewrite Hempty. apply map_size_empty. }
      exists id. apply (built_dom _ _ (loaderVariables w)), elem_of_dom. eauto. }
    assert (0 < length ids) as Hpos.
    { destruct Hsome as [id [Hin _]%validIdsOf_accepted]. fold ids in Hin.
      destruct ids; [by apply elem_of_nil in Hin|cbn; lia]. }
    set (nc := mcpConfigOf built) in *.
    destruct (rollback_spec nc _ (addEvents pre w) eq_refl)
      as (b & w2 & evs & Hroll & _ & _ & Hev & Hquiet & _ & Hb & _).
    rewrite Hws0, Hmk0, Hwr0 in Hb. fold (writeStepFails w) in Hb.
    rewrite Hroll in Hload. rewrite Hev0 in Hev.
    destruct b.
    + eexists _, _, (Notify LInfo (LoadedServers (length ids) ids) :: evs ++ pre).
      split; [exact Hload|]. cbn [record events].
      rewrite Hev. split; [cbn [app]; by rewrite <-app_assoc|].
      split; [by cbn|]. split; [|done]. intros _. split; [done|].
      by destruct (writeStepFails w).
    + eexists _, _, (evs ++ pre). split; [exact Hload|].
      rewrite Hev. split; [by rewrite <-app_assoc|].
      rewrite existsb_app, Hquiet, Hq.
      split; [split; [lia|done]|]. split; [lia|].
      intros [_ Hfails]. by rewrite Hfails in Hb.
Qed.

Lemma size_list_to_set_le (l : list string) :
  size (list_to_set l : gset string) ≤ length l
  ∧ (size (list_to_set l : gset string) = length l ↔ NoDup l).
Proof.
  induction l as [|x l [IHle IHiff]]; cbn.
  - rewrite size_empty. split; [lia|]. split; [constructor|done].
  - destruct (decide (x ∈ l)) as [Hin|Hout].
    + assert (({[x]} ∪ list_to_set l : gset string) = list_to_set l) as ->.
      { apply subseteq_union_1_L, singleton_subseteq_l. by apply elem_of_list_to_set. }
      split; [lia|]. split; [lia|]. intros Hnd. by apply NoDup_cons in Hnd as [].
    + rewrite size_union
        by (apply disjoint_singleton_l; by rewrite elem_of_list_to_set).
      rewrite size_singleton. split; [lia|]. rewrite NoDup_cons. split.
      * intros Hsize. split; [done|]. apply IHiff. lia.
      * intros [_ Hnd]. apply IHiff in Hnd. lia.
Qed.

Lemma filter_keeps_all (f : string → bool) (l : list string) :
  length (List.filter f l) ≤ length l
  ∧ (length (List.filter f l) = length l → List.filter f l = l)
  ∧ (List.filter f l = l ↔ ∀ x, x ∈ l → f x = true).
Proof.
  induction l as [|x l (IHle & IHeq & IHall)]; cbn.
  - split; [lia|]. split; [done|]. split; [|done]. by intros _ x ?%elem_of_nil.
  - destruct (f x) eqn:Hx; cbn.
    + split; [lia|]. split.
      * intros Hlen. f_equal. apply IHeq. lia.
      * split.
        -- intros [= Hl] y [->|Hy]%elem_of_cons; [done|]. by apply IHall.
        -- intros Hall. f_equal. apply IHall. intros y Hy. apply Hall. by right.
    + split; [lia|]. split; [lia|]. split.
      * intros Hl. assert (length (List.filter f l) = S (length l)) by (by rewrite Hl).
        lia.
      * intros Hall. assert (f x = true) by (apply Hall; left). congruence.
Qed.

(** X2. The count [loadRecommendedServers] returns after a load that went
    through is the number of recommendation records that passed the
    validation, not the number of servers written. A record passes with an
    identifier that is a key of the catalog, and also with one that is a name
    every object inherits ([constructor], [toString], ...), for which the
    build loop then adds nothing. The document written has one entry per
    distinct identifier that is a key of the catalog, so the count is at least
    the number of entries, and equals it exactly when no identifier passed
    twice and every identifier that passed is a key of the catalog. *)
Theorem loader_count_counts_records (recs : Json) (ctx : ExtensionContext)
    (w : World) (n : nat) (w' : World) :
  ServerLoader.loadRecommendedServers recs ctx w = (Ok n, w') →
  0 < n →
  let catalog := catalogOf ctx in
  let ids :=
    List.filter (passesId catalog)
      (map ServerLoader.serverIdOf
         (List.filter ServerLoader.isValidRecommendation (itemsOf recs))) in
  n = length ids ∧
  ∃ m evs,
    events w' = evs ++ events w ∧
    mcpWrites evs = [mcpConfigOf m] ∧
    (∀ id, id ∈ dom m ↔ id ∈ ids ∧ is_Some (catalog !! id)) ∧
    size m ≤ n ∧
    (size m = n ↔ NoDup ids ∧ ∀ id, id ∈ ids → is_Some (catalog !! id)).
Proof.
  intros Hrun Hpos. cbv zeta.
  rewrite <-validateServerIds_valid. fold (validIdsOf recs (catalogOf ctx)).
  destruct (load_pipeline recs ctx w) as (pre & Hw & Hq & _ & Hload).
  pose proof (addEvents_fields pre w) as (_ & _ & _ & _ & _ & Hev0).
  rewrite Hrun in Hload.
  set (ids := validIdsOf recs (catalogOf ctx)) in *.
  set (built := ServerLoader.buildConfig ids (catalogOf ctx) (loaderVariables w)) in *.
  destruct (Nat.eqb (size built) 0) eqn:Hsize.
  { injection Hload as -> _. lia. }
  destruct (rollback_spec (mcpConfigOf built) _ (addEvents pre w) eq_refl)
    as (b & w2 & evs & Hroll & _ & _ & Hev & _ & Hwrites & _).
  rewrite Hroll in Hload. rewrite Hev0 in Hev.
  destruct b; [|injection Hload as -> _; lia].
  injection Hload as -> ->. split; [done|].
  exists built, (Notify LInfo (LoadedServers (length ids) ids) :: evs ++ pre).
  cbn [record events]. rewrite Hev.
  split; [cbn [app]; by rewrite <-app_assoc|].
  change (mcpWrites (?e :: evs ++ pre)) with (mcpWrites (evs ++ pre)).
  rewrite mcpWrites_app, Hw, Hwrites, app_nil_r. split; [done|].
  split; [intros id; apply loader_buildConfig_dom|].
  set (known := λ id : string, bool_decide (is_Some (catalogOf ctx !! id))).
  assert (dom built = list_to_set (List.filter known ids)) as Hdom.
  { apply set_eq. intros id.
    rewrite elem_of_list_to_set, list_elem_of_In, filter_In, <-list_elem_of_In.
    unfold known. rewrite bool_decide_eq_true. apply loader_buildConfig_dom. }
  destruct (filter_keeps_all known ids) as (Hle & Heq & Hall).
  destruct (size_list_to_set_le (List.filter known ids)) as [Hle' Hnodup].
  rewrite <-size_dom, Hdom. split; [lia|]. split.
  - intros Hsame.
    assert (List.filter known ids = ids) as Hids by (apply Heq; lia).
    rewrite Hids in Hnodup, Hsame. split; [by apply Hnodup|].
    intros id Hin. pose proof (proj1 Hall Hids id Hin) as Hkey.
    by apply bool_decide_eq_true in Hkey.
  - intros [Hnd Hkeys].
    assert (List.filter known ids = ids) as Hids.
    { apply (proj2 Hall). intros id Hin. unfold known.
      apply bool_decide_eq_true. by apply Hkeys. }
    rewrite Hids in Hnodup |- *. by apply Hnodup.
Qed.

Lemma loader_count_counts_records_witness :
  let recs := JArr [recommend "constructor" "objects"; recommend "github" "pull requests"] in
  let run := ServerLoader.loadRecommendedServers recs sampleContext
               (workspaceWith Absent []) in
  let catalog := catalogOf sampleContext in
  let ids :=
    List.filter (passesId catalog)
      (map ServerLoader.serverIdOf
         (List.filter ServerLoader.isValidRecommendation (itemsOf recs))) in
  2 = length ids ∧
  ∃ m evs,
    events run.2 = evs ++ [] ∧
    mcpWrites evs = [mcpConfigOf m] ∧
    (∀ id, id ∈ dom m ↔ id ∈ ids ∧ is_Some (catalog !! id)) ∧
    size m ≤ 2 ∧
    (size m = 2 ↔ NoDup ids ∧ ∀ id, id ∈ ids → is_Some (catalog !! id)).
Proof.
  assert (Hrun :
    ServerLoader.loadRecommendedServers
      (JArr [recommend "constructor" "objects"; recommend "github" "pull requests"])
      sampleContext (workspaceWith Absent [])
    = (Ok 2, (ServerLoader.loadRecommendedServers
                (JArr [recommend "constructor" "objects";
                       recommend "github" "pull requests"])
                sampleContext (workspaceWith Absent [])).2))
    by (vm_compute; reflexivity).
  apply (loader_count_counts_records _ _ _ _ _ Hrun). lia.
Defined.

Lemma loader_buildConfig_lookup (ids : list string)
    (catalog : gmap string McpServer) (envVars : gmap string string) (id : string) :
  ServerLoader.buildConfig ids catalog envVars !! id =
  if decide (id ∈ ids)
  then (λ entry, ServerLoader.mergeEnvironmentVariables entry envVars) <$> catalog !! id
  else None.
Proof.
  unfold ServerLoader.buildConfig.
  assert (Hloop : ∀ acc : gmap string McpServer,
    foldl (λ newServers serverId,
             match catalog !! serverId with
             | None => newServers
             | Some entry =>
                 <[serverId := ServerLoader.mergeEnvironmentVariables entry envVars]> newServers
             end) acc ids !! id =
    match (if decide (id ∈ ids) then catalog !! id else None) with
    | Some entry => Some (ServerLoader.mergeEnvironmentVariables entry envVars)
    | None => acc !! id
    end).
  { induction ids as [|first rest IH]; intros acc; [done|].
    cbn [foldl]. rewrite IH.
    destruct (decide (id ∈ rest)) as [Hin|Hout].
    - rewrite decide_True by (by right).
      destruct (catalog !! id) as [entry|] eqn:Hid; [done|].
      destruct (decide (id = first)) as [->|Hne]; [by rewrite Hid|].
      destruct (catalog !! first); [by rewrite lookup_insert_ne|done].
    - destruct (decide (id = first)) as [->|Hne].
      + rewrite decide_True by (by left).
        destruct (catalog !! first); [by rewrite lookup_insert_eq|done].
      + rewrite decide_False by (by intros [?|?]%elem_of_cons).
        destruct (catalog !! first); [by rewrite lookup_insert_ne|done]. }
  rewrite Hloop, lookup_empty.
  destruct (decide (id ∈ ids)); [|done]. by destruct (catalog !! id).
Qed.

(** X3. What the load hands to [writeFile]. For every input, catalog
    file and workspace, the load hands over at most two documents and no
    other than these: the new configuration, whose entries are the catalog
    definitions of the accepted identifiers merged with the workspace
    variables, and, only after the write step of the new configuration has
    failed, the snapshot of the configuration read before. After a load that
    returns a positive count the new configuration is the one document handed
    over. *)
Theorem loader_writes_new_then_snapshot (recs : Json) (ctx : ExtensionContext)
    (w : World) :
  let ids := validIdsOf recs (catalogOf ctx) in
  let new := ServerLoader.buildConfig ids (catalogOf ctx) (loaderVariables w) in
  (∀ id, new !! id =
         if decide (id ∈ ids)
         then (λ entry, ServerLoader.mergeEnvironmentVariables entry (loaderVariables w))
                <$> catalogOf ctx !! id
         else None) ∧
  ∃ n w' evs,
    ServerLoader.loadRecommendedServers recs ctx w = (Ok n, w') ∧
    events w' = evs ++ events w ∧
    (mcpWrites evs = [] ∨ mcpWrites evs = [mcpConfigOf new]
     ∨ (writeStepFails w = true ∧
        (mcpWrites evs = [snapshotOf w]
         ∨ mcpWrites evs = [snapshotOf w; mcpConfigOf new]))) ∧
    (0 < n → mcpWrites evs = [mcpConfigOf new]).
Proof.
  cbv zeta. split; [intros id; apply loader_buildConfig_lookup|].
  destruct (load_pipeline recs ctx w) as (pre & Hw & _ & _ & Hload).
  pose proof (addEvents_fields pre w) as (Hws0 & _ & Hfile0 & Hmk0 & Hwr0 & Hev0).
  set (ids := validIdsOf recs (catalogOf ctx)) in *.
  set (new := ServerLoader.buildConfig ids (catalogOf ctx) (loaderVariables w)) in *.
  destruct (Nat.eqb (size new) 0) eqn:Hsize.
  { exists 0, (addEvents pre w), pre. split; [done|]. split; [done|].
    split; [by left|lia]. }
  destruct (rollback_spec (mcpConfigOf new) _ (addEvents pre w) eq_refl)
    as (b & w2 & evs & Hroll & _ & _ & Hev & _ & Hwrites & Hb & _).
  rewrite Hws0, Hmk0, Hwr0 in Hb. fold (writeStepFails w) in Hb.
  assert (snapshotOf (addEvents pre w) = snapshotOf w) as Hsnap
    by (unfold snapshotOf; by rewrite Hws0, Hfile0).
  rewrite Hsnap in Hwrites. rewrite Hroll in Hload. rewrite Hev0 in Hev.
  destruct b.
  - eexists _, _, (Notify LInfo (LoadedServers (length ids) ids) :: evs ++ pre).
    split; [exact Hload|]. cbn [record events].
    rewrite Hev. split; [cbn [app]; by rewrite <-app_assoc|].
    change (mcpWrites (?e :: evs ++ pre)) with (mcpWrites (evs ++ pre)).
    rewrite mcpWrites_app, Hw, Hwrites, app_nil_r. split; [by right; left|done].
  - eexists _, _, (evs ++ pre). split; [exact Hload|].
    rewrite Hev. split; [by rewrite <-app_assoc|].
    rewrite mcpWrites_app, Hw, app_nil_r. split; [|lia].
    assert (writeStepFails w = true) as Hfails by (by destruct (writeStepFails w)).
    destruct Hwrites as [->|[->|[->| ->]]]; auto.
Qed.

(** X4. A catalog that cannot be used ends the load early. When at least
    one recommendation record is well-formed, the load returns 0 and writes
    nothing; if the catalog file is missing, does not parse or has no
    [servers] object, exactly one notification is shown, the error that
    [master-servers.json] could not be read; if the catalog parses to an
    empty [servers] object, no notification is shown at all and the only
    traces are console entries. *)
Theorem loader_unusable_catalog (recs : Json) (ctx : ExtensionContext) (w : World) :
  List.filter ServerLoader.isValidRecommendation (itemsOf recs) ≠ [] →
  ((∀ catalog, masterServersFile ctx ≠ Holds {| servers := Some catalog |}) →
   ∃ evs reason,
     ServerLoader.loadRecommendedServers recs ctx w = (Ok 0, addEvents evs w) ∧
     mcpWrites evs = [] ∧
     notices evs = [(LError, FileReadFailed "master-servers.json" reason)])
  ∧ (emptyCatalog ctx = true →
     ∃ evs,
       ServerLoader.loadRecommendedServers recs ctx w = (Ok 0, addEvents evs w) ∧
       mcpWrites evs = [] ∧
       notices evs = []).
Proof.
  intros Hvalid.
  destruct recs as [|[]|n|s|items|members]; try done.
  cbn [itemsOf] in Hvalid.
  unfold ServerLoader.loadRecommendedServers, ServerLoader.loadUsableMasterServers,
    ServerLoader.loadMasterServers, ServerLoader.showFileReadError,
    ServerLoader.showAgentAnalysisError, emptyCatalog.
  cbn [Js.truthy negb].
  assert (Nat.eqb (length items) 0 = false) as ->.
  { apply Nat.eqb_neq. intros Hnil%nil_length_inv. by subst items. }
  set (valid := List.filter ServerLoader.isValidRecommendation items) in *.
  assert (Nat.eqb (length valid) 0 = false) as ->.
  { apply Nat.eqb_neq. by intros Hnil%nil_length_inv. }
  split.
  - intros Hno.
    destruct (Nat.ltb (length valid) (length items));
      destruct (masterServersFile ctx) as [| |[[catalog|]]];
      try (by destruct (Hno catalog)); run_monad.
    all: lazymatch goal with
         | |- ∃ evs reason, (_, ?w1) = _ ∧ _ =>
             let evs := events_of w1 w in exists evs; by eexists
         end.
  - destruct (masterServersFile ctx) as [| |[[catalog|]]]; try done.
    intros Hsize. cbn in Hsize.
    destruct (Nat.ltb (length valid) (length items)); run_monad;
      repeat (rewrite Hsize; cbn).
    all: lazymatch goal with
         | |- ∃ evs, (_, ?w1) = _ ∧ _ =>
             let evs := events_of w1 w in by exists evs
         end.
Qed.

Lemma loader_unusable_catalog_witness :
  let recs := JArr [recommend "github" "pull requests"] in
  let w := workspaceWith Absent [] in
  (∃ evs reason,
     ServerLoader.loadRecommendedServers recs {| masterServersFile := Corrupt |} w
       = (Ok 0, addEvents evs w) ∧
     mcpWrites evs = [] ∧
     notices evs = [(LError, FileReadFailed "master-servers.json" reason)])
  ∧ (∃ evs,
       ServerLoader.loadRecommendedServers recs
         {| masterServersFile := Holds {| servers := Some ∅ |} |} w
         = (Ok 0, addEvents evs w) ∧
       mcpWrites evs = [] ∧
       notices evs = []).
Proof.
  assert (Hvalid : List.filter ServerLoader.isValidRecommendation
                     (itemsOf (JArr [recommend "github" "pull requests"])) ≠ [])
    by (vm_compute; discriminate).
  split.
  - apply (proj1 (loader_unusable_catalog _ {| masterServersFile := Corrupt |}
                    (workspaceWith Absent []) Hvalid)).
    intros catalog. discriminate.
  - apply (proj2 (loader_unusable_catalog _
                    {| masterServersFile := Holds {| servers := Some ∅ |} |}
                    (workspaceWith Absent []) Hvalid)).
    reflexivity.
Defined.

(** X5. Every failure of the writer of [serverLoader.ts] is reported.
    Whenever [saveWorkspaceMcpConfig] throws, the last thing it did was to
    show an error notification that the configuration write failed, with the
    reason in its text, and the message it throws carries the same reason; it
    never shows a success notification. Without a workspace folder the error
    is shown twice, once for the missing folder and once by the handler, and
    the document is left as it was. *)
Theorem loader_writer_failure_reported (config : McpConfig) (w : World)
    (errorMsg : string) (w' : World) :
  ServerLoader.saveWorkspaceMcpConfig config w = (Thrown errorMsg, w') →
  ∃ reason evs,
    errorMsg = "Failed to write mcp.json: " +:+ reason ∧
    events w' =
      Notify LError
        (ConfigWriteFailed ("Failed to write mcp.json: " +:+ reason
                            +:+ ". Check file permissions and disk space."))
      :: Console LError "Failed to save MCP config:" :: evs ++ events w ∧
    existsb isSuccessNotice evs = false ∧
    (is_Some (mcpServers config) → workspaceFolder w = false →
     evs = [Notify LError
              (ConfigWriteFailed
                 "No workspace folder found. Please open a workspace to save MCP configuration.")] ∧
     mcpFile w' = mcpFile w).
Proof.
  unfold ServerLoader.saveWorkspaceMcpConfig, ServerLoader.verifyWritten,
    ServerLoader.showConfigWriteError.
  destruct (mcpServers config) as [expected|] eqn:Hm; run_monad.
  2: { intros [= <- <-]. eexists _, [].
       split; [done|]. split; [done|]. split; [done|]. by intros [? [=]]. }
  destruct (workspaceFolder w) eqn:Hws; cbn.
  2: { intros [= <- <-]. eexists _, [_]. by repeat split. }
  destruct (mkdirScript w) as [|[reason|] ms]; cbn.
  2: { intros [= <- <-]. eexists _, []. by repeat split. }
  all: destruct (writeScript w) as [|[|found|reason truncated] ws]; cbn.
  all: rewrite ?Hm; cbn; rewrite ?Nat.eqb_refl; cbn; try done.
  all: try (destruct found as [| |parsed]; cbn;
            [| |destruct (mcpServers parsed) as [written|]; cbn;
                [destruct (Nat.eqb (size written) (size expected)); cbn|]]; done).
  all: destruct truncated; cbn; intros [= <- <-]; eexists _, [_; _]; by repeat split.
Qed.

Lemma loader_writer_failure_reported_witness :
  let config := mcpConfigOf {["github" := github]} in
  let w := workspaceWith Absent [Rejects "EACCES: permission denied" false] in
  ∃ reason evs,
    "Failed to write mcp.json: Failed to write MCP configuration file: EACCES: permission denied"
      = "Failed to write mcp.json: " +:+ reason ∧
    events (ServerLoader.saveWorkspaceMcpConfig config w).2 =
      Notify LError
        (ConfigWriteFailed ("Failed to write mcp.json: " +:+ reason
                            +:+ ". Check file permissions and disk space."))
      :: Console LError "Failed to save MCP config:" :: evs ++ events w ∧
    existsb isSuccessNotice evs = false ∧
    (is_Some (mcpServers config) → workspaceFolder w = false →
     evs = [Notify LError
              (ConfigWriteFailed
                 "No workspace folder found. Please open a workspace to save MCP configuration.")] ∧
     mcpFile (ServerLoader.saveWorkspaceMcpConfig config w).2 = mcpFile w).
Proof.
  apply (loader_writer_failure_reported
           (mcpConfigOf {["github" := github]})
           (workspaceWith Absent [Rejects "EACCES: permission denied" false])).
  vm_compute. reflexivity.
Defined.

(** ** The two merges of environment variables *)

Lemma loader_merge_effective (server : McpServer) (envVars : gmap string string) :
  (∀ declared, env server = Some declared → declared !! "" = None) →
  ServerLoader.mergeEnvironmentVariables server envVars = effectiveServer server envVars.
Proof.
  intros Hkeys. unfold ServerLoader.mergeEnvironmentVariables, effectiveServer.
  destruct (env server) as [declared|] eqn:Henv; [|done].
  specialize (Hkeys declared eq_refl).
  destruct (Nat.eqb (size declared) 0) eqn:Hsz.
  - apply Nat.eqb_eq, map_size_empty_inv in Hsz. subst declared.
    rewrite map_imap_empty. by rewrite withEnv_same.
  - f_equal. apply map_eq. intros key.
    change (foldl _ declared (map_to_list declared))
      with (foldl (mergeStep (ServerLoader.mergedValue envVars) JsString.isEmpty)
              declared (map_to_list declared)).
    rewrite merge_entries_lookup, map_lookup_imap.
    destruct (declared !! key) as [d|] eqn:Hkey; [|done].
    cbn. rewrite loader_mergedValue.
    destruct (JsString.isEmpty key) eqn:Hempty; [|done].
    apply isEmpty_true in Hempty. subst key. congruence.
Qed.

Lemma foldl_pointwise {A B} (f g : A → B → A) (l : list B) (a : A) :
  (∀ a b, f a b = g a b) → foldl f a l = foldl g a l.
Proof.
  intros Hfg. revert a. induction l as [|b l IH]; intros a; [done|].
  cbn. by rewrite Hfg, IH.
Qed.

Lemma foldl_thrown {A B} (f : Result A → B → Result A) (l : list B) (errorMsg : string) :
  (∀ e x, f (Thrown e) x = Thrown e) →
  foldl f (Thrown errorMsg) l = Thrown errorMsg.
Proof. intros Hf. induction l as [|x l IH]; [done|]. cbn. by rewrite Hf. Qed.

Lemma stringsOf_lookup (envVars : gmap string Json) (key : string) :
  stringsOf envVars !! key =
  match envVars !! key with
  | Some (JStr text) => Some text
  | _ => None
  end.
Proof.
  unfold stringsOf. rewrite lookup_omap. by destruct (envVars !! key) as [[]|].
Qed.

Lemma loaderValue_strings (envVars : gmap string Json) (key d : string) :
  Unchecked.loaderValue envVars key d
  = ServerLoader.mergedValue (stringsOf envVars) key d.
Proof.
  unfold Unchecked.loaderValue, Unchecked.lookup, ServerLoader.mergedValue.
  rewrite stringsOf_lookup.
  destruct (envVars !! key) as [[]|]; try done. by destruct (Js.inherited key).
Qed.

Lemma loaderMerge_strings (server : McpServer) (envVars : gmap string Json) :
  Unchecked.loaderMerge server envVars
  = ServerLoader.mergeEnvironmentVariables server (stringsOf envVars).
Proof.
  unfold Unchecked.loaderMerge, ServerLoader.mergeEnvironmentVariables.
  destruct (env server) as [declared|]; [|done].
  destruct (Nat.eqb (size declared) 0); [done|].
  f_equal. apply foldl_pointwise. intros acc [key d].
  by rewrite loaderValue_strings.
Qed.

Lemma extensionValue_trimmable (envVars : gmap string Json) (key d : string) :
  untrimmable envVars key = false →
  Unchecked.extensionValue envVars key d
  = Ok (Extension.mergedValue (stringsOf envVars) key d).
Proof.
  unfold untrimmable, Unchecked.extensionValue, Unchecked.lookup,
    Extension.mergedValue.
  rewrite stringsOf_lookup.
  destruct (envVars !! key) as [[]|]; cbn; try done.
  all: try by intros ->.
  by destruct (Js.inherited key).
Qed.

Lemma extensionValue_untrimmable (envVars : gmap string Json) (key d : string) :
  untrimmable envVars key = true →
  isThrown (Unchecked.extensionValue envVars key d).
Proof.
  unfold untrimmable, Unchecked.extensionValue, Unchecked.lookup.
  destruct (envVars !! key) as [[]|]; cbn; try done.
  all: try by intros ->.
  by destruct (Js.inherited key).
Qed.

Lemma extension_loop_trimmable (envVars : gmap string Json)
    (l : list (string * string)) (acc : gmap string string) :
  (∀ key d, (key, d) ∈ l → untrimmable envVars key = false) →
  foldl (Unchecked.extensionStep envVars) (Ok acc) l
  = Ok (foldl (mergeStep (Extension.mergedValue (stringsOf envVars)) (λ _, false))
          acc l).
Proof.
  revert acc. induction l as [|[key d] l IH]; intros acc Hl; [done|].
  cbn [foldl]. unfold Unchecked.extensionStep at 2. cbn [fst snd].
  rewrite extensionValue_trimmable by (apply (Hl key d); left).
  apply IH. intros key' d' Hin. apply (Hl key' d'). by right.
Qed.

Lemma extension_loop_untrimmable (envVars : gmap string Json)
    (l : list (string * string)) (state : Result (gmap string string))
    (key d : string) :
  (key, d) ∈ l → untrimmable envVars key = true →
  isThrown (foldl (Unchecked.extensionStep envVars) state l).
Proof.
  intros Hin Hbad. revert state.
  induction l as [|[key' d'] l IH]; intros state.
  - by apply elem_of_nil in Hin.
  - cbn [foldl]. apply elem_of_cons in Hin as [[= <- <-]|Hin]; [|by apply IH].
    assert (∃ errorMsg,
              Unchecked.extensionStep envVars state (key, d) = Thrown errorMsg)
      as [errorMsg ->].
    { destruct state as [mergedEnv|errorMsg]; cbn; [|by eexists].
      pose proof (extensionValue_untrimmable envVars key d Hbad) as Hthrown.
      destruct (Unchecked.extensionValue envVars key d); [done|by eexists]. }
    by rewrite foldl_thrown.
Qed.

(** X6. The two merges on the [variables] object as it was parsed, whose
    values are of any JSON type. The merge of [serverLoader.ts] never throws:
    it reads a value that is no string as if it were absent, and so returns
    what it returns on the members that are strings. The merge of
    [extension.ts] throws as soon as the object gives, for a variable the
    server declares, a truthy value that is no string: a number, [true], an
    array, an object, or, with no member of that name, what every object
    inherits under it. When no declared variable is given such a value it
    returns what it returns on the members that are strings, and this is the
    definition the merge of [serverLoader.ts] returns, provided the server
    declares no variable whose name is the empty string (an entry
    [serverLoader.ts] skips and [extension.ts] cleans). *)
Theorem merges_on_unchecked_variables (server : McpServer)
    (envVars : gmap string Json) :
  Unchecked.loaderMerge server envVars
    = ServerLoader.mergeEnvironmentVariables server (stringsOf envVars)
  ∧ ((∃ key, declares server key ∧ untrimmable envVars key = true) →
     isThrown (Unchecked.extensionMerge server envVars))
  ∧ ((∀ key, declares server key → untrimmable envVars key = false) →
     Unchecked.extensionMerge server envVars
       = Extension.mergeEnvironmentVariables server (Some (stringsOf envVars))
     ∧ (¬ declares server "" →
        Unchecked.extensionMerge server envVars
          = Ok (Unchecked.loaderMerge server envVars))).
Proof.
  split; [apply loaderMerge_strings|]. split.
  - intros (key & (declared & Henv & [d Hkey]) & Hbad).
    unfold Unchecked.extensionMerge. rewrite Henv.
    destruct (Nat.eqb (size declared) 0) eqn:Hsize.
    { apply Nat.eqb_eq, map_size_empty_inv in Hsize. subst declared.
      by rewrite lookup_empty in Hkey. }
    pose proof (extension_loop_untrimmable envVars (map_to_list declared)
                  (Ok declared) key d) as Hloop.
    destruct (foldl _ _ _); [|done].
    apply Hloop; [by apply elem_of_map_to_list|done].
  - intros Hfine.
    assert (Unchecked.extensionMerge server envVars
            = Extension.mergeEnvironmentVariables server (Some (stringsOf envVars)))
      as Htyped.
    { unfold Unchecked.extensionMerge, Extension.mergeEnvironmentVariables.
      destruct (env server) as [declared|] eqn:Henv; [|done].
      destruct (Nat.eqb (size declared) 0); [done|].
      rewrite extension_loop_trimmable; [done|].
      intros key d Hin%elem_of_map_to_list. apply Hfine.
      exists declared. eauto. }
    split; [done|]. intros Hnamed.
    rewrite Htyped, loaderMerge_strings, extension_merge_effective.
    rewrite loader_merge_effective; [done|].
    intros declared Henv. apply eq_None_not_Some. intros Hkey.
    apply Hnamed. by exists declared.
Qed.

Lemma merges_on_unchecked_variables_witness :
  isThrown (Unchecked.extensionMerge awsDocs {["FASTMCP_LOG_LEVEL" := JNum 5]})
  ∧ Unchecked.extensionMerge awsDocs {["FASTMCP_LOG_LEVEL" := JStr "DEBUG"]}
    = Ok (Unchecked.loaderMerge awsDocs {["FASTMCP_LOG_LEVEL" := JStr "DEBUG"]}).
Proof.
  split.
  - apply (proj1 (proj2 (merges_on_unchecked_variables awsDocs
                           {["FASTMCP_LOG_LEVEL" := JNum 5]}))).
    exists "FASTMCP_LOG_LEVEL". split; [|vm_compute; reflexivity].
    eexists. split; [reflexivity|]. vm_compute. eauto.
  - apply (proj2 (proj2 (merges_on_unchecked_variables awsDocs
                           {["FASTMCP_LOG_LEVEL" := JStr "DEBUG"]}))).
    + intros key (declared & [= <-] & [d Hkey]).
      destruct (decide (key = "FASTMCP_LOG_LEVEL")) as [->|Hne];
        [vm_compute; reflexivity|].
      rewrite lookup_singleton_ne in Hkey by done. discriminate.
    + intros (declared & [= <-] & [d Hkey]). vm_compute in Hkey. discriminate.
Defined.

(** X7. Neither merge changes the shape of a server definition: the
    command, the arguments, the description, the tags, the URL and the headers
    are those of the catalog entry, and the merged [env] has exactly the
    variable names the entry declares (none is added, none is dropped); an
    entry without [env] comes back as it is. *)
Theorem merge_keeps_shape (server : McpServer) (envVars : gmap string string) :
  sameShape (ServerLoader.mergeEnvironmentVariables server envVars) server
  ∧ (env server = None →
     ServerLoader.mergeEnvironmentVariables server envVars = server)
  ∧ ∃ fromExtension,
      Extension.mergeEnvironmentVariables server (Some envVars) = Ok fromExtension ∧
      sameShape fromExtension server ∧
      (env server = None → fromExtension = server).
Proof.
  unfold sameShape.
  destruct (env server) as [declared|] eqn:Henv.
  - destruct (loader_merge_env server envVars declared Henv)
      as (fromLoader & HenvL & HdomL & _).
    destruct (extension_merge_env server envVars declared Henv)
      as (fromExt & HrunE & HdomE & _).
    split; [|split; [done|]].
    + unfold ServerLoader.mergeEnvironmentVariables in *. rewrite Henv in *.
      destruct (Nat.eqb (size declared) 0); cbn in *.
      * rewrite Henv. by repeat split.
      * injection HenvL as <-. rewrite HdomL. by repeat split.
    + eexists. split; [exact HrunE|]. split; [|done].
      destruct (Nat.eqb (size declared) 0); cbn.
      * rewrite Henv. by repeat split.
      * rewrite HdomE. by repeat split.
  - unfold Extension.mergeEnvironmentVariables,
      ServerLoader.mergeEnvironmentVariables. rewrite Henv.
    split; [by rewrite Henv|]. split; [done|].
    exists server. by rewrite Henv.
Qed.

(** ** More on the group load and the toggle *)

(** X8. One toggle changes one entry of the document and nothing else.
    In a workspace whose document has an [mcpServers] object (or has no
    readable document), when the file operations succeed and the environment
    file yields a [variables] mapping, [toggleServer] returns normally and the
    document it leaves has the other top-level members and every other server
    entry exactly as before; the entry of the toggled identifier is removed
    when it was there, and is otherwise the definition passed in with its
    environment variables merged. *)
Theorem toggle_changes_one_entry (serverId : string) (server : McpServer)
    (w : World) (active : gmap string McpServer) (envVars : gmap string string) :
  workspaceFolder w = true →
  mkdirSucceeds (mkdirScript w) = true →
  writeLands (writeScript w) = true →
  mcpServers (currentConfigOf w) = Some active →
  variables (extensionEnvVars w) = Some envVars →
  ∃ w1 after,
    Extension.toggleServer serverId server w = (Ok tt, w1) ∧
    mcpFile w1 = Holds {| mcpServers := Some after;
                          otherMembers := otherMembers (currentConfigOf w) |} ∧
    (∀ key, key ≠ serverId → after !! key = active !! key) ∧
    after !! serverId =
      match active !! serverId with
      | Some _ => None
      | None => Some (effectiveServer server envVars)
      end.
Proof.
  intros Hws Hmk Hwr Hactive Hvars.
  rewrite toggle_run, Hactive.
  destruct (active !! serverId) as [present|] eqn:Hid.
  - edestruct (extension_save_lands
                 {| mcpServers := Some (delete serverId active);
                    otherMembers := otherMembers (currentConfigOf w) |} w Hws Hmk Hwr)
      as (w1 & -> & Hfile & _).
    exists w1, (delete serverId active). split; [done|]. split; [done|].
    split; [intros key Hne; by rewrite lookup_delete_ne|by rewrite lookup_delete_eq].
  - rewrite Hvars, extension_merge_effective.
    edestruct (extension_save_lands
                 {| mcpServers := Some (<[serverId := effectiveServer server envVars]> active);
                    otherMembers := otherMembers (currentConfigOf w) |} w Hws Hmk Hwr)
      as (w1 & -> & Hfile & _).
    exists w1, (<[serverId := effectiveServer server envVars]> active).
    split; [done|]. split; [done|].
    split; [intros key Hne; by rewrite lookup_insert_ne|by rewrite lookup_insert_eq].
Qed.

Lemma toggle_changes_one_entry_witness :
  let w := workspaceWith (Holds (mcpConfigOf {["github" := github]})) [] in
  ∃ w1 after,
    Extension.toggleServer "aws-docs" awsDocs w = (Ok tt, w1) ∧
    mcpFile w1 = Holds {| mcpServers := Some after;
                          otherMembers := otherMembers (currentConfigOf w) |} ∧
    (∀ key, key ≠ "aws-docs" →
       after !! key = ({["github" := github]} : gmap string McpServer) !! key) ∧
    after !! "aws-docs" =
      match ({["github" := github]} : gmap string McpServer) !! "aws-docs" with
      | Some _ => None
      | None => Some (effectiveServer awsDocs ∅)
      end.
Proof.
  exact (toggle_changes_one_entry "aws-docs" awsDocs
           (workspaceWith (Holds (mcpConfigOf {["github" := github]})) [])
           {["github" := github]} ∅ eq_refl eq_refl eq_refl eq_refl eq_refl).
Defined.

(** X9. A workspace document that parses but has no [mcpServers] object
    cannot be toggled: for every server, [toggleServer] throws before anything
    is handed to [mkdir] or [writeFile], and leaves the workspace exactly as
    it was. *)
Theorem toggle_without_mcpServers (serverId : string) (server : McpServer)
    (w : World) (parsed : McpConfig) :
  workspaceFolder w = true →
  mcpFile w = Holds parsed →
  mcpServers parsed = None →
  ∃ errorMsg, Extension.toggleServer serverId server w = (Thrown errorMsg, w).
Proof.
  intros Hws Hfile Hnone. rewrite toggle_run.
  rewrite (currentConfigOf_holds w parsed Hws Hfile), Hnone. by eexists.
Qed.

Lemma toggle_without_mcpServers_witness :
  let w := workspaceWith (Holds {| mcpServers := None; otherMembers := ∅ |}) [] in
  ∃ errorMsg, Extension.toggleServer "github" github w = (Thrown errorMsg, w).
Proof.
  exact (toggle_without_mcpServers "github" github
           (workspaceWith (Holds {| mcpServers := None; otherMembers := ∅ |}) [])
           {| mcpServers := None; otherMembers := ∅ |} eq_refl eq_refl eq_refl).
Defined.

Lemma freshBuild_unknown (serverIds : list string) (catalog : gmap string McpServer)
    (envVars : gmap string string) :
  (∀ id, id ∈ serverIds → catalog !! id = None) →
  freshBuild serverIds catalog envVars = ∅.
Proof.
  intros Hunknown. unfold freshBuild. apply map_eq. intros key.
  rewrite lookup_fmap, lookup_empty.
  destruct (filter _ catalog !! key) as [definition|] eqn:Hkey; [|done].
  apply map_lookup_filter_Some in Hkey as [Hentry Hin]. cbn in Hin.
  rewrite (Hunknown key Hin) in Hentry. done.
Qed.

(** X10. Loading a group none of whose identifiers is in the catalog (an
    empty group included) is not refused: when the load completes, the
    document on disk is [{ mcpServers: {} }], whatever servers were configured
    before. *)
Theorem group_load_unknown_clears (group : ServerGroup) (ctx : ExtensionContext)
    (catalog : gmap string McpServer) (envVars : gmap string string) (w : World) :
  masterServersFile ctx = Holds {| servers := Some catalog |} →
  (∀ id, id ∈ groupServers group → catalog !! id = None) →
  workspaceFolder w = true →
  mkdirSucceeds (mkdirScript w) = true →
  writeLands (writeScript w) = true →
  variables (extensionEnvVars w) = Some envVars →
  ∃ w', Extension.loadServerGroup group ctx w = (Ok tt, w') ∧
        mcpFile w' = Holds (mcpConfigOf ∅).
Proof.
  intros Hctx Hunknown Hws Hmk Hwr Hvars.
  rewrite group_load_run, Hctx.
  rewrite (groupLoop_fresh _ catalog {| servers := Some catalog |} _ envVars eq_refl Hvars).
  rewrite freshBuild_unknown by done.
  destruct (extension_save_lands (mcpConfigOf ∅) w Hws Hmk Hwr) as (w' & -> & Hfile & _).
  by exists w'.
Qed.

Lemma group_load_unknown_clears_witness :
  let group := {| groupName := "Old"; groupDescription := "Renamed servers";
                  groupServers := ["aws-documentation"]; icon := "package" |} in
  let w := workspaceWith (Holds (mcpConfigOf {["github" := github]})) [] in
  ∃ w', Extension.loadServerGroup group sampleContext w = (Ok tt, w') ∧
        mcpFile w' = Holds (mcpConfigOf ∅).
Proof.
  apply (group_load_unknown_clears
           {| groupName := "Old"; groupDescription := "Renamed servers";
              groupServers := ["aws-documentation"]; icon := "package" |}
           sampleContext sampleCatalog ∅
           (workspaceWith (Holds (mcpConfigOf {["github" := github]})) []));
    try reflexivity.
  intros id ->%list_elem_of_singleton. vm_compute. reflexivity.
Defined.

(** A loop that an exception has left does nothing more. *)
Lemma groupLoop_needs_variables (serverIds : list string) (catalog : gmap string McpServer)
    (envVars : EnvVarsConfig) (id : string) (server : McpServer)
    (declared : gmap string string) :
  variables envVars = None →
  id ∈ serverIds →
  catalog !! id = Some server →
  env server = Some declared →
  declared ≠ ∅ →
  ∃ errorMsg,
    Extension.groupLoop serverIds {| servers := Some catalog |} envVars = Thrown errorMsg.
Proof.
  intros Hvars Hin Hentry Henv Hne. unfold Extension.groupLoop.
  generalize (∅ : gmap string McpServer) as acc.
  induction serverIds as [|first rest IH]; intros acc.
  - by apply elem_of_nil in Hin.
  - cbn [foldl servers].
    destruct (catalog !! first) as [definition|] eqn:Hfirst.
    + destruct (Extension.mergeEnvironmentVariables definition (variables envVars))
        as [merged|errorMsg] eqn:Hmerge.
      * apply elem_of_cons in Hin as [->|Hin]; [|by apply IH].
        rewrite Hentry in Hfirst. injection Hfirst as <-.
        unfold Extension.mergeEnvironmentVariables in Hmerge.
        rewrite Henv, Hvars in Hmerge.
        destruct (Nat.eqb (size declared) 0) eqn:Hsize; [|done].
        by apply Nat.eqb_eq, map_size_empty_inv in Hsize.
      * exists errorMsg. by apply foldl_thrown.
    + apply elem_of_cons in Hin as [->|Hin]; [congruence|by apply IH].
Qed.

(** X11. An [env-vars.json] that parses but has no [variables] object
    makes a group load fail as soon as the group names one catalog server that
    declares environment variables: [loadServerGroup] throws before anything
    is handed to [mkdir] or [writeFile], and the workspace is left exactly as
    it was. (The loader of [serverLoader.ts] reads the same file as an empty
    mapping.) *)
Theorem group_load_needs_variables (group : ServerGroup) (ctx : ExtensionContext)
    (catalog : gmap string McpServer) (w : World)
    (id : string) (server : McpServer) (declared : gmap string string) :
  masterServersFile ctx = Holds {| servers := Some catalog |} →
  variables (extensionEnvVars w) = None →
  id ∈ groupServers group →
  catalog !! id = Some server →
  env server = Some declared →
  declared ≠ ∅ →
  (∃ errorMsg, Extension.loadServerGroup group ctx w = (Thrown errorMsg, w))
  ∧ loaderVariables w = ∅.
Proof.
  intros Hctx Hvars Hin Hentry Henv Hne. split.
  - rewrite group_load_run, Hctx.
    destruct (groupLoop_needs_variables (groupServers group) catalog
                (extensionEnvVars w) id server declared Hvars Hin Hentry Henv Hne)
      as [errorMsg ->].
    by exists errorMsg.
  - unfold extensionEnvVars in Hvars. unfold loaderVariables.
    destruct (workspaceFolder w); [|done].
    destruct (envVarsFile w) as [| |parsed]; try done. cbn in Hvars. by rewrite Hvars.
Qed.

Lemma group_load_needs_variables_witness :
  let w := {| workspaceFolder := true;
              envVarsFile := Holds {| version := "1.0.0"; envDescription := "";
                                      variables := None; notes := None |};
              mcpFile := Holds (mcpConfigOf {["github" := github]});
              mkdirScript := []; writeScript := []; events := [] |} in
  (∃ errorMsg, Extension.loadServerGroup coreGroup sampleContext w = (Thrown errorMsg, w))
  ∧ loaderVariables w = ∅.
Proof.
  apply (group_load_needs_variables coreGroup sampleContext sampleCatalog _
           "aws-docs" awsDocs {["FASTMCP_LOG_LEVEL" := "Default: ERROR" +:+ CR]}).
  - reflexivity.
  - reflexivity.
  - apply elem_of_cons. by left.
  - vm_compute. reflexivity.
  - reflexivity.
  - intros Hempty. apply (f_equal (λ m : gmap string string, m !! "FASTMCP_LOG_LEVEL")) in Hempty.
    vm_compute in Hempty. discriminate.
Defined.

(** ** More on the hook initializer *)

Lemma hookNotices_app (evs1 evs2 : list HookEvent) :
  hookNotices (evs1 ++ evs2) = hookNotices evs1 ++ hookNotices evs2.
Proof. apply omap_app. Qed.

(** The copy of the catalog: whatever happens, it returns normally, shows
    nothing and uses up one entry of the [mkdir] script. *)
Lemma copy_quiet (ctx : ExtensionContext) (w : HookWorld) :
  ∃ w' evs,
    copyMasterServersToWorkspace ctx w = (Ok tt, w') ∧
    hookEvents w' = evs ++ hookEvents w ∧
    hookWrites evs = [] ∧
    hookNotices evs = [] ∧
    hookFile w' = hookFile w ∧
    hookWriteScript w' = hookWriteScript w ∧
    hookMkdirScript w' = tail (hookMkdirScript w) ∧
    hookWorkspaceFolder w' = hookWorkspaceFolder w.
Proof.
  unfold copyMasterServersToWorkspace. run_hook.
  destruct (hookMkdirScript w) as [|[reason|] script] eqn:Hmk; cbn.
  2: by eexists _, [_].
  all: destruct (masterServersFile ctx) as [| |parsed]; cbn.
  all: try (eexists _, [_; _]; (split; [reflexivity|]); cbn; by rewrite ?Hmk).
  all: destruct (referenceWriteScript w) as [|[|found|reason truncated] rest]; cbn.
  all: try destruct truncated; cbn.
  all: eexists _, [_; _; _]; (split; [reflexivity|]); cbn; by rewrite ?Hmk.
Qed.

(** [createHook], by the outcome of [mkdir] and of [writeFile]: it throws
    exactly when one of the two fails, and shows nothing. *)
Lemma createHook_spec (config : KiroHookConfig) (w : HookWorld) :
  ∃ r w' evs,
    createHook config w = (r, w') ∧
    hookEvents w' = evs ++ hookEvents w ∧
    hookNotices evs = [] ∧
    hookWorkspaceFolder w' = hookWorkspaceFolder w ∧
    if negb (mkdirSucceeds (hookMkdirScript w)) then
      isThrown r ∧ hookWrites evs = [] ∧ hookFile w' = hookFile w
    else
      hookWrites evs = [toJson config] ∧
      match hookWriteScript w with
      | [] | HookLands :: _ => r = Ok tt ∧ hookFile w' = Holds (toJson config)
      | HookLandsAs found :: _ => r = Ok tt ∧ hookFile w' = found
      | HookRejects _ truncated :: _ =>
          isThrown r ∧ hookFile w' = if truncated then Corrupt else hookFile w
      end.
Proof.
  unfold createHook. unfold tryCatch at 1. unfold bind at 1. unfold tryCatch at 1.
  unfold HookManager.fsMkdir.
  destruct (hookMkdirScript w) as [|[reason|] script]; cbn [fst snd mkdirSucceeds negb].
  2: { run_hook. by eexists _, _, [_]. }
  all: unfold bind at 1; unfold tryCatch at 1; unfold fsWriteHook; cbn.
  all: destruct (hookWriteScript w) as [|[|found|reason truncated] rest]; cbn.
  all: try destruct truncated; cbn.
  all: try (run_hook; by eexists _, _, [_; _; _]).
  all: unfold tryCatch at 1.
  all: lazymatch goal with
       | |- context [verifyHook ?c ?w1] =>
           destruct (verifyHook_reads c w1) as [r ->]
       end.
  all: destruct r as [[]|errorMsg]; run_hook;
         first [by eexists _, _, [_; _] | by eexists _, _, [_; _; _]].
Qed.

Lemma checkExistingHook_quiet (w : HookWorld) :
  ∃ evs, checkExistingHook w = (Ok tt, addHookEvents evs w) ∧
         hookWrites evs = [] ∧ hookNotices evs = [].
Proof.
  unfold checkExistingHook. run_hook.
  destruct (hookFile w) as [| |existing]; cbn.
  1,2: by eexists [_].
  destruct existing; cbn; try (by eexists [_]).
  all: destruct (_ || _); cbn; first [by eexists [_] | by exists []].
Qed.

#[local] Arguments createHook : simpl never.
#[local] Arguments copyMasterServersToWorkspace : simpl never.

(** [ensureHook], by the state of the workspace. *)
Lemma ensureHook_run (ctx : ExtensionContext) (w : HookWorld) :
  ensureHook ctx w =
  if negb (hookWorkspaceFolder w) then
    (Ok tt, hrecord (HookConsole LInfo "No workspace folder found, skipping hook creation") w)
  else
    match hookFile w with
    | Absent =>
        match copyMasterServersToWorkspace ctx
                (hrecord (HookConsole LInfo "Creating agent hook configuration") w) with
        | (Ok _, w0) =>
            match createHook createHookConfig w0 with
            | (Ok _, w1) =>
                (Ok tt,
                 hrecord (HookNotify LInfo "MCP Design Analyzer hook created! Please reload the window to activate the hook.")
                   (hrecord (HookConsole LInfo "Agent hook created successfully at:") w1))
            | (Thrown _, w1) =>
                (Ok tt, hrecord (HookConsole LError "Failed to create agent hook:") w1)
            end
        | (Thrown _, w0) =>
            (Ok tt, hrecord (HookConsole LError "Failed to create agent hook:") w0)
        end
    | _ =>
        checkExistingHook
          (hrecord (HookConsole LInfo "Agent hook already exists, skipping creation") w)
    end.
Proof.
  unfold ensureHook.
  unfold bind at 1. unfold getWorld at 1. unfold tryCatch at 1.
  destruct (hookWorkspaceFolder w); cbn [negb]; [|done].
  unfold tryCatch at 1. unfold bind at 1. unfold fsAccessHook at 1.
  destruct (hookFile w) eqn:Hfile.
  - rewrite generated_hook_valid. cbn [negb].
    unfold tryCatch at 1. unfold bind at 1. unfold hemit at 1. unfold bind at 1.
    destruct (copyMasterServersToWorkspace ctx _) as [[[]|e0] w0]; [|done].
    unfold bind at 1.
    destruct (createHook createHookConfig w0) as [[[]|e1] w1]; [|done].
    by run_hook.
  - unfold bind at 1. unfold hemit at 1.
    by destruct (checkExistingHook_quiet
                   (hrecord (HookConsole LInfo "Agent hook already exists, skipping creation") w))
      as (evs & -> & _).
  - unfold bind at 1. unfold hemit at 1.
    by destruct (checkExistingHook_quiet
                   (hrecord (HookConsole LInfo "Agent hook already exists, skipping creation") w))
      as (evs & -> & _).
Qed.

Lemma addHookEvents_all (evs : list HookEvent) (w : HookWorld) :
  hookWorkspaceFolder (addHookEvents evs w) = hookWorkspaceFolder w ∧
  hookFile (addHookEvents evs w) = hookFile w ∧
  referenceFile (addHookEvents evs w) = referenceFile w ∧
  hookEvents (addHookEvents evs w) = evs ++ hookEvents w.
Proof.
  induction evs as [|e evs (IH1 & IH2 & IH3 & IH4)]; [done|].
  cbn. repeat split; try done. by f_equal.
Qed.

(** X12. [ensureHook] never throws, so activation is never held up by the
    hook, and it never shows an error: the only notification it can show is
    the one of a created hook, and it shows it only after the generated
    configuration was handed to [writeFile]. Without a workspace folder it
    leaves a console entry and touches neither the hook document nor the copy
    of the catalog. *)
Theorem hook_never_blocks_activation (ctx : ExtensionContext) (w : HookWorld) :
  ∃ w' evs,
    ensureHook ctx w = (Ok tt, w') ∧
    hookEvents w' = evs ++ hookEvents w ∧
    (hookNotices evs = []
     ∨ hookNotices evs = [hookCreatedNotice] ∧
       hookWrites evs = [toJson createHookConfig]) ∧
    (hookWorkspaceFolder w = false →
     hookWrites evs = [] ∧ hookNotices evs = [] ∧
     hookFile w' = hookFile w ∧ referenceFile w' = referenceFile w).
Proof.
  rewrite ensureHook_run.
  destruct (hookWorkspaceFolder w) eqn:Hws; cbn [negb].
  2: { eexists _, [_]. split; [reflexivity|]. split; [reflexivity|]. split; [by left|].
       by intros _. }
  assert (Hexisting :
    ∃ w' evs,
      checkExistingHook
        (hrecord (HookConsole LInfo "Agent hook already exists, skipping creation") w)
        = (Ok tt, w') ∧
      hookEvents w' = evs ++ hookEvents w ∧
      (hookNotices evs = []
       ∨ hookNotices evs = [hookCreatedNotice] ∧
         hookWrites evs = [toJson createHookConfig]) ∧
      (true = false →
       hookWrites evs = [] ∧ hookNotices evs = [] ∧
       hookFile w' = hookFile w ∧ referenceFile w' = referenceFile w)).
  { destruct (checkExistingHook_quiet
                (hrecord (HookConsole LInfo "Agent hook already exists, skipping creation") w))
      as (evs & -> & Hw & Hn).
    destruct (addHookEvents_all evs
                (hrecord (HookConsole LInfo "Agent hook already exists, skipping creation") w))
      as (_ & _ & _ & Hev).
    eexists _, (evs ++ [_]). split; [reflexivity|].
    split; [rewrite Hev; cbn; by rewrite <-app_assoc|].
    split; [|done]. left. by rewrite hookNotices_app, Hn. }
  destruct (hookFile w) eqn:Hfile; [|exact Hexisting|exact Hexisting].
  clear Hexisting.
  destruct (copy_quiet ctx
              (hrecord (HookConsole LInfo "Creating agent hook configuration") w))
    as (w0 & evs0 & -> & Hev0 & Hw0 & Hn0 & _).
  destruct (createHook_spec createHookConfig w0)
    as (r & w1 & evs1 & -> & Hev1 & Hn1 & _ & Hcase).
  cbn in Hev0.
  destruct r as [[]|errorMsg].
  - eexists _, (_ :: _ :: evs1 ++ evs0 ++ [_]).
    split; [reflexivity|]. cbn [hrecord hookEvents].
    rewrite Hev1, Hev0. split; [cbn; by rewrite <-!app_assoc|].
    split; [|done]. right.
    change (hookNotices (?a :: ?b :: ?l)) with (hookCreatedNotice :: hookNotices l).
    change (hookWrites (?a :: ?b :: ?l)) with (hookWrites l).
    rewrite !hookNotices_app, !hookWrites_app, Hn1, Hn0, Hw0. cbn. split; [done|].
    rewrite app_nil_r.
    destruct (negb (mkdirSucceeds (hookMkdirScript w0))); [by destruct Hcase as [[] _]|].
    by destruct Hcase as [-> _].
  - eexists _, (_ :: evs1 ++ evs0 ++ [_]).
    split; [reflexivity|]. cbn [hrecord hookEvents].
    rewrite Hev1, Hev0. split; [cbn; by rewrite <-!app_assoc|].
    split; [|done]. left.
    change (hookNotices (?a :: ?l)) with (hookNotices l).
    by rewrite !hookNotices_app, Hn1, Hn0.
Qed.

(** The creation branch of [ensureHook], after the copy of the catalog. *)
Lemma ensureHook_creates (ctx : ExtensionContext) (w : HookWorld) :
  hookWorkspaceFolder w = true →
  hookFile w = Absent →
  mkdirSucceeds (tail (hookMkdirScript w)) = true →
  ∃ w' evs,
    ensureHook ctx w = (Ok tt, w') ∧
    hookEvents w' = evs ++ hookEvents w ∧
    hookWrites evs = [toJson createHookConfig] ∧
    match hookWriteScript w with
    | [] | HookLands :: _ =>
        hookFile w' = Holds (toJson createHookConfig) ∧ hookNotices evs = [hookCreatedNotice]
    | HookLandsAs found :: _ =>
        hookFile w' = found ∧ hookNotices evs = [hookCreatedNotice]
    | HookRejects _ truncated :: _ =>
        hookFile w' = (if truncated then Corrupt else Absent) ∧ hookNotices evs = []
    end.
Proof.
  intros Hws Hfile Hmk. rewrite ensureHook_run, Hws, Hfile. cbn [negb].
  destruct (copy_quiet ctx
              (hrecord (HookConsole LInfo "Creating agent hook configuration") w))
    as (w0 & evs0 & -> & Hev0 & Hw0 & Hn0 & Hfile0 & Hscript0 & Hmk0 & _).
  cbn in Hev0, Hfile0, Hscript0, Hmk0.
  destruct (createHook_spec createHookConfig w0)
    as (r & w1 & evs1 & -> & Hev1 & Hn1 & _ & Hcase).
  rewrite Hmk0, Hmk, Hscript0, Hfile0, Hfile in Hcase. cbn [negb] in Hcase.
  destruct Hcase as [Hw1 Hcase].
  assert (Hevents : ∀ extra,
            hookEvents w1 = evs1 ++ evs0 ++ HookConsole LInfo "Creating agent hook configuration"
                                             :: hookEvents w →
            extra ++ hookEvents w1
            = (extra ++ evs1 ++ evs0 ++ [HookConsole LInfo "Creating agent hook configuration"])
              ++ hookEvents w).
  { intros extra ->. by rewrite <-!app_assoc. }
  rewrite Hev0 in Hev1.
  destruct (hookWriteScript w) as [|[|found|reason truncated] rest];
    destruct Hcase as [Hr Hfile1].
  1,2,3: subst r; eexists _, ([_; _] ++ evs1 ++ evs0 ++ [_]);
    (split; [reflexivity|]); (split; [exact (Hevents [_; _] Hev1)|]);
    change (hookWrites ([?a; ?b] ++ ?l)) with (hookWrites l);
    change (hookNotices ([?a; ?b] ++ ?l)) with (hookCreatedNotice :: hookNotices l);
    rewrite !hookWrites_app, !hookNotices_app, Hw0, Hn0, Hw1, Hn1; by cbn.
  destruct r as [[]|errorMsg]; [done|].
  eexists _, ([_] ++ evs1 ++ evs0 ++ [_]).
  split; [reflexivity|]. split; [exact (Hevents [_] Hev1)|].
  change (hookWrites ([?a] ++ ?l)) with (hookWrites l).
  change (hookNotices ([?a] ++ ?l)) with (hookNotices l).
  rewrite !hookWrites_app, !hookNotices_app, Hw0, Hn0, Hw1, Hn1. by cbn.
Qed.

(** X13. The hook does not depend on the copy of the catalog. In a
    workspace without hook document, whatever the state of the bundled
    catalog and whatever happens to its copy into the workspace (the
    directory cannot be made, the catalog cannot be read, the copy cannot be
    written), when the hooks directory can be made and the write of the hook
    goes through, [ensureHook] leaves the generated hook on disk and shows the
    notification of a created hook. *)
Theorem hook_created_whatever_the_copy (ctx : ExtensionContext) (w : HookWorld) :
  hookWorkspaceFolder w = true →
  hookFile w = Absent →
  mkdirSucceeds (tail (hookMkdirScript w)) = true →
  hookWriteLands (hookWriteScript w) = true →
  ∃ w' evs,
    ensureHook ctx w = (Ok tt, w') ∧
    hookEvents w' = evs ++ hookEvents w ∧
    hookFile w' = Holds (toJson createHookConfig) ∧
    hookWrites evs = [toJson createHookConfig] ∧
    hookNotices evs = [hookCreatedNotice].
Proof.
  intros Hws Hfile Hmk Hlands.
  destruct (ensureHook_creates ctx w Hws Hfile Hmk) as (w' & evs & Hrun & Hev & Hw & Hcase).
  exists w', evs. do 2 (split; [done|]).
  destruct (hookWriteScript w) as [|[|found|reason truncated] rest]; try done.
  all: by destruct Hcase.
Qed.

Lemma hook_created_whatever_the_copy_witness :
  let ctx := {| masterServersFile := Absent |} in
  let w := {| hookWorkspaceFolder := true; hookFile := Absent; referenceFile := Absent;
              hookMkdirScript := [Some "EACCES: permission denied"];
              referenceWriteScript := []; hookWriteScript := []; hookEvents := [] |} in
  ∃ w' evs,
    ensureHook ctx w = (Ok tt, w') ∧
    hookEvents w' = evs ++ hookEvents w ∧
    hookFile w' = Holds (toJson createHookConfig) ∧
    hookWrites evs = [toJson createHookConfig] ∧
    hookNotices evs = [hookCreatedNotice].
Proof.
  exact (hook_created_whatever_the_copy {| masterServersFile := Absent |}
           {| hookWorkspaceFolder := true; hookFile := Absent; referenceFile := Absent;
              hookMkdirScript := [Some "EACCES: permission denied"];
              referenceWriteScript := []; hookWriteScript := []; hookEvents := [] |}
           eq_refl eq_refl eq_refl eq_refl).
Defined.

(** X14. The read-back of a written hook decides nothing. When the write
    of the hook resolves, [ensureHook] reports the hook as created whatever
    the read-back finds: the document on disk may be anything (unparseable,
    missing, a document with another name), the notification of a created
    hook is shown all the same and nothing is thrown. *)
Theorem hook_readback_not_fatal (ctx : ExtensionContext) (w : HookWorld)
    (found : File Json) (rest : list (HookWriteOutcome Json)) :
  hookWorkspaceFolder w = true →
  hookFile w = Absent →
  mkdirSucceeds (tail (hookMkdirScript w)) = true →
  hookWriteScript w = HookLandsAs found :: rest →
  ∃ w' evs,
    ensureHook ctx w = (Ok tt, w') ∧
    hookEvents w' = evs ++ hookEvents w ∧
    hookFile w' = found ∧
    hookWrites evs = [toJson createHookConfig] ∧
    hookNotices evs = [hookCreatedNotice].
Proof.
  intros Hws Hfile Hmk Hscript.
  destruct (ensureHook_creates ctx w Hws Hfile Hmk) as (w' & evs & Hrun & Hev & Hw & Hcase).
  exists w', evs. do 2 (split; [done|]).
  rewrite Hscript in Hcase. by destruct Hcase.
Qed.

Lemma hook_readback_not_fatal_witness :
  let w := {| hookWorkspaceFolder := true; hookFile := Absent; referenceFile := Absent;
              hookMkdirScript := []; referenceWriteScript := [];
              hookWriteScript := [HookLandsAs Corrupt]; hookEvents := [] |} in
  ∃ w' evs,
    ensureHook sampleContext w = (Ok tt, w') ∧
    hookEvents w' = evs ++ hookEvents w ∧
    hookFile w' = Corrupt ∧
    hookWrites evs = [toJson createHookConfig] ∧
    hookNotices evs = [hookCreatedNotice].
Proof.
  exact (hook_readback_not_fatal sampleContext
           {| hookWorkspaceFolder := true; hookFile := Absent; referenceFile := Absent;
              hookMkdirScript := []; referenceWriteScript := [];
              hookWriteScript := [HookLandsAs Corrupt]; hookEvents := [] |}
           Corrupt [] eq_refl eq_refl eq_refl eq_refl).
Defined.

(** X15. What [validateHookConfig] accepts passes the later checks. For
    every hook configuration the validation accepts, the document
    [JSON.stringify] makes of it passes the read-back of [createHook] and the
    shallow check [ensureHook] applies to an existing hook: both return
    normally without a console entry. *)
Theorem accepted_hook_passes_later_checks (config : KiroHookConfig) (w : HookWorld) :
  validateHookConfig config = true →
  hookFile w = Holds (toJson config) →
  verifyHook config w = (Ok tt, w) ∧ checkExistingHook w = (Ok tt, w).
Proof.
  intros Hvalid Hfile.
  assert (JsString.isEmpty (name config) = false) as Hname.
  { unfold validateHookConfig in Hvalid.
    destruct (JsString.isEmpty (name config)); [done|done]. }
  unfold verifyHook, checkExistingHook, Js.memberTruthy. run_hook.
  rewrite Hfile. cbn. rewrite Hname, String.eqb_refl. by cbn.
Qed.

Lemma accepted_hook_passes_later_checks_witness :
  let w := {| hookWorkspaceFolder := true; hookFile := Holds (toJson createHookConfig);
              referenceFile := Absent; hookMkdirScript := [];
              referenceWriteScript := []; hookWriteScript := []; hookEvents := [] |} in
  verifyHook createHookConfig w = (Ok tt, w) ∧ checkExistingHook w = (Ok tt, w).
Proof.
  apply (accepted_hook_passes_later_checks createHookConfig
           {| hookWorkspaceFolder := true; hookFile := Holds (toJson createHookConfig);
              referenceFile := Absent; hookMkdirScript := [];
              referenceWriteScript := []; hookWriteScript := []; hookEvents := [] |}).
  - vm_compute. reflexivity.
  - reflexivity.
Defined.

#[local] Arguments String.eqb : simpl never.

(** ** The command handlers *)

#[local] Arguments Extension.loadServerGroup : simpl never.
#[local] Arguments Extension.toggleServer : simpl never.
#[local] Arguments ServerLoader.loadRecommendedServers : simpl never.

Ltac run_command :=
  unfold bind, tryCatch, ret, throw, Commands.cemit, Commands.refreshViews,
    Commands.onHost, Commands.ask; cbn.

(** X16. The command that loads a group does nothing without an explicit
    confirmation, and tells of a success only after one. Unless the answer to
    its question is [Yes, Load Group], the workspace is left as it was and
    nothing but the question is shown. After that answer the workspace is what
    [loadServerGroup] leaves; the views are refreshed and the success message
    is shown when [loadServerGroup] returned normally, and when it threw the
    command throws the same error, refreshes nothing and shows no message. *)
Theorem load_group_command_confirmed (group : ServerGroup) (ctx : ExtensionContext)
    (w : Commands.CommandWorld) :
  let question := Commands.Asked
                    (Commands.AskLoadGroup (groupName group) (groupServers group)) in
  let load := Extension.loadServerGroup group ctx (Commands.host w) in
  ∃ r w',
    Commands.loadGroupCommand group ctx w = (r, w') ∧
    (head (Commands.replies w) ≠ Some (Some "Yes, Load Group") →
     r = Ok tt ∧ Commands.host w' = Commands.host w ∧
     Commands.shown w' = question :: Commands.shown w) ∧
    (head (Commands.replies w) = Some (Some "Yes, Load Group") →
     Commands.host w' = load.2 ∧
     match load.1 with
     | Ok _ =>
         r = Ok tt ∧
         Commands.shown w' =
           [Commands.Shown LInfo (Commands.GroupLoaded (groupName group));
            Commands.RefreshServers; Commands.RefreshGrouped; question]
           ++ Commands.shown w
     | Thrown errorMsg =>
         r = Thrown errorMsg ∧ Commands.shown w' = question :: Commands.shown w
     end).
Proof.
  cbv zeta. unfold Commands.loadGroupCommand. run_command.
  destruct (Commands.replies w) as [|[button|] rest]; cbn.
  1,3: eexists _, _; (split; [reflexivity|]); by split.
  destruct (String.eqb_spec button "Yes, Load Group") as [->|Hne]; cbn.
  - destruct (Extension.loadServerGroup group ctx (Commands.host w)) as [[[]|errorMsg] h];
      cbn; eexists _, _; (split; [reflexivity|]); by split.
  - eexists _, _. split; [reflexivity|]. split; [done|]. intros [= ->]. done.
Qed.

(** X17. The message of the toggle command repeats the item, not the
    document. When the toggle goes through, the command refreshes the views
    and tells that the server was [removed] if the item it was given says
    active, and [added] otherwise; what happened to the document depends on
    the document alone: the identifier is a key afterwards exactly when it was
    not one before. The two agree when the item is in step with the document,
    as the items of a fresh view are. *)
Theorem toggle_command_message (item : McpServersProvider.ServerItem)
    (w : Commands.CommandWorld) (active : gmap string McpServer)
    (envVars : gmap string string) :
  workspaceFolder (Commands.host w) = true →
  mkdirSucceeds (mkdirScript (Commands.host w)) = true →
  writeLands (writeScript (Commands.host w)) = true →
  mcpServers (currentConfigOf (Commands.host w)) = Some active →
  variables (extensionEnvVars (Commands.host w)) = Some envVars →
  ∃ w',
    Commands.toggleServerCommand item w = (Ok tt, w') ∧
    Commands.shown w' =
      [Commands.Shown LInfo
         (Commands.ServerToggled (McpServersProvider.serverId item)
            (if McpServersProvider.isActive item then "removed" else "added"));
       Commands.RefreshServers; Commands.RefreshGrouped]
      ++ Commands.shown w ∧
    (McpServersProvider.serverId item ∈ persistedKeys (mcpFile (Commands.host w')) ↔
     McpServersProvider.serverId item ∉ dom active).
Proof.
  intros Hws Hmk Hwr Hactive Hvars.
  unfold Commands.toggleServerCommand. run_command.
  rewrite toggle_run, Hactive.
  set (id := McpServersProvider.serverId item).
  destruct (active !! id) as [present|] eqn:Hid.
  - edestruct (extension_save_lands
                 {| mcpServers := Some (delete id active);
                    otherMembers := otherMembers (currentConfigOf (Commands.host w)) |}
                 (Commands.host w) Hws Hmk Hwr)
      as (h & -> & Hfile & _).
    cbn. eexists. split; [reflexivity|]. split; [done|]. cbn. rewrite Hfile. cbn.
    unfold configKeys. cbn. rewrite dom_delete_L.
    split.
    + intros [_ Hother]%elem_of_difference. destruct Hother. by apply elem_of_singleton.
    + intros Hout. destruct Hout. apply elem_of_dom. eauto.
  - rewrite Hvars, extension_merge_effective.
    edestruct (extension_save_lands
                 {| mcpServers :=
                      Some (<[id := effectiveServer (McpServersProvider.server item) envVars]>
                              active);
                    otherMembers := otherMembers (currentConfigOf (Commands.host w)) |}
                 (Commands.host w) Hws Hmk Hwr)
      as (h & -> & Hfile & _).
    cbn. eexists. split; [reflexivity|]. split; [done|]. cbn. rewrite Hfile. cbn.
    unfold configKeys. cbn. rewrite dom_insert_L.
    split; [intros _; by apply not_elem_of_dom|].
    intros _. apply elem_of_union. left. by apply elem_of_singleton.
Qed.

Lemma toggle_command_message_witness :
  let stale := {| McpServersProvider.serverId := "github";
                  McpServersProvider.server := github;
                  McpServersProvider.isActive := false |} in
  let w := commandHost (workspaceWith (Holds (mcpConfigOf {["github" := github]})) []) [] in
  ∃ w',
    Commands.toggleServerCommand stale w = (Ok tt, w') ∧
    Commands.shown w' =
      [Commands.Shown LInfo (Commands.ServerToggled "github" "added");
       Commands.RefreshServers; Commands.RefreshGrouped]
      ++ Commands.shown w ∧
    ("github" ∈ persistedKeys (mcpFile (Commands.host w')) ↔
     "github" ∉ dom ({["github" := github]} : gmap string McpServer)).
Proof.
  exact (toggle_command_message
           {| McpServersProvider.serverId := "github";
              McpServersProvider.server := github;
              McpServersProvider.isActive := false |}
           (commandHost (workspaceWith (Holds (mcpConfigOf {["github" := github]})) []) [])
           {["github" := github]} ∅ eq_refl eq_refl eq_refl eq_refl eq_refl).
Defined.



(** ** Strings: [split], [includes], [toLowerCase] *)

Lemma append_cons (x : ascii) (a b : string) :
  String x a +:+ b = String x (a +:+ b).
Proof. reflexivity. Qed.

Lemma append_nil_l (b : string) : "" +:+ b = b.
Proof. reflexivity. Qed.

Lemma append_assoc (a b c : string) : (a +:+ b) +:+ c = a +:+ b +:+ c.
Proof. induction a as [|x a IH]; [done|]. by rewrite !append_cons, IH. Qed.

Lemma split_nonempty (separator : ascii) (s : string) :
  JsString.split separator s ≠ [].
Proof.
  destruct s as [|c s]; [done|]. cbn.
  destruct (Ascii.eqb c separator); [done|].
  by destruct (JsString.split separator s).
Qed.

(** The pieces of a text that has a separator in the middle are the pieces
    of what is before it, followed by the pieces of what is after it. *)
Lemma split_app (separator : ascii) (a b : string) :
  JsString.split separator (a +:+ String separator b)
  = JsString.split separator a ++ JsString.split separator b.
Proof.
  induction a as [|c a IH]; [rewrite append_nil_l; cbn; by rewrite Ascii.eqb_refl|].
  rewrite append_cons. cbn.
  - destruct (Ascii.eqb c separator); [by rewrite IH|].
    rewrite IH.
    pose proof (split_nonempty separator a) as Hne.
    by destruct (JsString.split separator a).
Qed.

Lemma startsWith_spec (part s : string) :
  JsString.startsWith part s = true ↔ ∃ after, s = part +:+ after.
Proof.
  unfold JsString.startsWith. revert s.
  induction part as [|c part IH]; intros s; cbn.
  - split; [by exists s|done].
  - destruct s as [|d s].
    + split; [done|]. intros [after Hs]. by rewrite append_cons in Hs.
    + destruct (Ascii.eqb_spec c d) as [->|Hne].
      * rewrite IH. split; intros [after Hs]; exists after;
          rewrite ?append_cons in *; congruence.
      * split; [done|]. intros [after Hs]. rewrite append_cons in Hs. congruence.
Qed.

Lemma includes_spec (part s : string) :
  JsString.includes part s = true ↔ occursIn part s.
Proof.
  unfold occursIn. induction s as [|d s IH]; cbn.
  - rewrite orb_false_r, startsWith_spec. split.
    + intros [after Hs]. by exists "", after.
    + intros (before & after & Hs). destruct before; [by exists after|done].
  - rewrite orb_true_iff, startsWith_spec, IH. split.
    + intros [[after Hs]|(before & after & Hs)].
      * by exists "", after.
      * exists (String d before), after. by rewrite append_cons, Hs.
    + intros (before & after & Hs). destruct before as [|c before].
      * left. by exists after.
      * right. exists before, after. rewrite append_cons in Hs. congruence.
Qed.

Lemma endsWith_spec (suffix s : string) :
  JsString.endsWith suffix s = true ↔ ∃ before, s = before +:+ suffix.
Proof.
  induction s as [|d s IH]; cbn [JsString.endsWith].
  - rewrite orb_false_r, String.eqb_eq. split.
    + intros <-. by exists "".
    + intros [before Hs]. destruct before; [done|discriminate].
  - rewrite orb_true_iff, String.eqb_eq, IH. split.
    + intros [<-|[before ->]]; [by exists ""|by exists (String d before)].
    + intros [before Hs]. destruct before as [|c before].
      * by left.
      * right. exists before. rewrite append_cons in Hs. congruence.
Qed.

Lemma toLowerCase_app (a b : string) :
  JsString.toLowerCase (a +:+ b)
  = JsString.toLowerCase a +:+ JsString.toLowerCase b.
Proof. induction a as [|c a IH]; [done|]. rewrite !append_cons. cbn. by rewrite IH. Qed.

(** ** The server view *)

Lemma occursIn_toLowerCase (part s : string) :
  occursIn part s → occursIn (JsString.toLowerCase part) (JsString.toLowerCase s).
Proof.
  intros (before & after & ->).
  exists (JsString.toLowerCase before), (JsString.toLowerCase after).
  by rewrite !toLowerCase_app.
Qed.

Lemma occursIn_empty (part : string) : occursIn part "" → part = "".
Proof.
  intros (before & after & Hs).
  destruct before; [|done]. rewrite append_nil_l in Hs. by destruct part.
Qed.

Lemma toLowerCase_empty (s : string) : JsString.toLowerCase s = "" ↔ s = "".
Proof. by destruct s. Qed.

(** The text filter, for a filter text that is not empty. *)
Lemma matchesText_spec (text : string) (item : McpServersProvider.ServerItem) :
  text ≠ "" →
  McpServersProvider.matchesText (JsString.toLowerCase text) item = true ↔
  mentions text (McpServersProvider.serverId item) (McpServersProvider.server item).
Proof.
  intros Htext. unfold McpServersProvider.matchesText, mentions.
  rewrite !orb_true_iff, includes_spec. split.
  - intros [[Hid|Hdesc]|Htags].
    + by left.
    + right. left.
      destruct (description (McpServersProvider.server item)) as [about|]; [|done].
      apply andb_true_iff in Hdesc as [_ Hdesc%includes_spec]. by exists about.
    + right. right.
      destruct (tags (McpServersProvider.server item)) as [labels|]; [|done].
      apply existsb_exists in Htags as (tag & Hin%list_elem_of_In & Htag%includes_spec).
      by exists labels, tag.
  - intros [Hid|[(about & -> & Hdesc)|(labels & tag & -> & Hin & Htag)]].
    + by left; left.
    + left. right. apply andb_true_iff. split; [|by apply includes_spec].
      apply negb_true_iff, isEmpty_false. intros ->.
      apply occursIn_empty in Hdesc. by apply (proj1 (toLowerCase_empty _)) in Hdesc.
    + right. apply existsb_exists. exists tag.
      split; [by apply list_elem_of_In|by apply includes_spec].
Qed.

Lemma itemOf_elem (active catalog : gmap string McpServer)
    (item : McpServersProvider.ServerItem) :
  item ∈ map (McpServersProvider.itemOf active) (map_to_list catalog) ↔
  catalog !! McpServersProvider.serverId item = Some (McpServersProvider.server item) ∧
  McpServersProvider.isActive item
    = bool_decide (McpServersProvider.serverId item ∈ dom active).
Proof.
  rewrite list_elem_of_fmap. split.
  - intros ([id definition] & -> & Hin%elem_of_map_to_list). by cbn.
  - intros [Hentry Hactive].
    exists (McpServersProvider.serverId item, McpServersProvider.server item).
    split; [|by apply elem_of_map_to_list].
    destruct item as [id definition flag]. cbn in *. by rewrite Hactive.
Qed.

Lemma itemOf_NoDup (active catalog : gmap string McpServer) :
  NoDup (map McpServersProvider.serverId
           (map (McpServersProvider.itemOf active) (map_to_list catalog))).
Proof.
  rewrite map_map. cbn.
  change (map (λ x, x.1) (map_to_list catalog)) with ((map_to_list catalog).*1).
  apply NoDup_fst_map_to_list.
Qed.

(** The items of the view for the filters [this]. *)
Lemma filtered_elem (this : McpServersProvider.State)
    (items : list McpServersProvider.ServerItem) (item : McpServersProvider.ServerItem) :
  let activeItems :=
    if McpServersProvider.showActiveOnly this
    then List.filter McpServersProvider.isActive items else items in
  item ∈ (if JsString.isEmpty (McpServersProvider.filterText this) then activeItems
          else List.filter (McpServersProvider.matchesText (McpServersProvider.filterText this))
                 activeItems) ↔
  item ∈ items ∧
  (McpServersProvider.showActiveOnly this = true → McpServersProvider.isActive item = true) ∧
  (McpServersProvider.filterText this ≠ "" →
   McpServersProvider.matchesText (McpServersProvider.filterText this) item = true).
Proof.
  cbv zeta.
  destruct (JsString.isEmpty (McpServersProvider.filterText this)) eqn:Hft;
    [apply isEmpty_true in Hft|apply isEmpty_false in Hft].
  all: destruct (McpServersProvider.showActiveOnly this).
  all: rewrite !list_elem_of_In, ?filter_In, ?filter_In.
  all: intuition congruence.
Qed.

#[local] Arguments McpServersProvider.matchesText : simpl never.

(** [getChildren], by the state of the two files. *)
Lemma getChildren_run (this : McpServersProvider.State) (ctx : ExtensionContext)
    (w : World) :
  McpServersProvider.getChildren this ctx w =
  let failed := (Ok [], record (Console LError "Error loading servers:") w) in
  let shown items :=
    let activeItems :=
      if McpServersProvider.showActiveOnly this
      then List.filter McpServersProvider.isActive items else items in
    if JsString.isEmpty (McpServersProvider.filterText this) then activeItems
    else List.filter (McpServersProvider.matchesText (McpServersProvider.filterText this))
           activeItems in
  match masterServersFile ctx with
  | Holds masterServers =>
      match servers masterServers with
      | Some catalog =>
          match mcpServers (currentConfigOf w) with
          | Some active =>
              (Ok (shown (map (McpServersProvider.itemOf active) (map_to_list catalog))), w)
          | None => if Nat.eqb (size catalog) 0 then (Ok (shown []), w) else failed
          end
      | None => failed
      end
  | _ => failed
  end.
Proof.
  unfold McpServersProvider.getChildren, Extension.loadMasterServers,
    Extension.loadWorkspaceMcpConfig, currentConfigOf.
  run_monad.
  destruct (masterServersFile ctx) as [| |masterServers]; cbn; try done.
  destruct (workspaceFolder w); cbn.
  - destruct (mcpFile w) as [| |parsed]; cbn.
    1,2: by destruct (servers masterServers).
    destruct (servers masterServers) as [catalog|]; cbn; [|done].
    destruct (mcpServers parsed); cbn; [done|].
    by destruct (Nat.eqb (size catalog) 0).
  - by destruct (servers masterServers).
Qed.

(** X19. The server view as first shown (no filter text, all servers).
    When the catalog is readable and the workspace document has an
    [mcpServers] object (or there is no readable document), the view lists
    every server of the catalog exactly once, with its catalog definition, and
    marks it active exactly when its identifier is a key of [mcpServers];
    nothing is logged or changed. *)
Theorem servers_view_lists_catalog (ctx : ExtensionContext) (w : World)
    (catalog active : gmap string McpServer) :
  masterServersFile ctx = Holds {| servers := Some catalog |} →
  mcpServers (currentConfigOf w) = Some active →
  ∃ items,
    McpServersProvider.getChildren McpServersProvider.initial ctx w = (Ok items, w) ∧
    NoDup (map McpServersProvider.serverId items) ∧
    ∀ item, item ∈ items ↔
      catalog !! McpServersProvider.serverId item = Some (McpServersProvider.server item) ∧
      McpServersProvider.isActive item
        = bool_decide (McpServersProvider.serverId item ∈ dom active).
Proof.
  intros Hctx Hactive. rewrite getChildren_run, Hctx. cbn. rewrite Hactive.
  eexists. split; [reflexivity|]. split; [apply itemOf_NoDup|apply itemOf_elem].
Qed.

Lemma servers_view_lists_catalog_witness :
  let w := workspaceWith (Holds (mcpConfigOf {["github" := github]})) [] in
  ∃ items,
    McpServersProvider.getChildren McpServersProvider.initial sampleContext w
      = (Ok items, w) ∧
    NoDup (map McpServersProvider.serverId items) ∧
    ∀ item, item ∈ items ↔
      sampleCatalog !! McpServersProvider.serverId item
        = Some (McpServersProvider.server item) ∧
      McpServersProvider.isActive item
        = bool_decide (McpServersProvider.serverId item
                         ∈ dom ({["github" := github]} : gmap string McpServer)).
Proof.
  exact (servers_view_lists_catalog sampleContext
           (workspaceWith (Holds (mcpConfigOf {["github" := github]})) [])
           sampleCatalog {["github" := github]} eq_refl eq_refl).
Defined.

(** X20. The server view restricted to active servers (no filter text)
    lists exactly the identifiers that are both in the catalog and keys of
    [mcpServers] of the workspace document. A server that is configured in the
    workspace but is not in the catalog is therefore never listed. *)
Theorem servers_view_active_only (this : McpServersProvider.State)
    (ctx : ExtensionContext) (w : World) (catalog active : gmap string McpServer) :
  masterServersFile ctx = Holds {| servers := Some catalog |} →
  mcpServers (currentConfigOf w) = Some active →
  McpServersProvider.filterText this = "" →
  ∃ items,
    McpServersProvider.getChildren
      (McpServersProvider.setActiveOnlyFilter true this) ctx w = (Ok items, w) ∧
    ∀ id, id ∈ map McpServersProvider.serverId items ↔ id ∈ dom catalog ∧ id ∈ dom active.
Proof.
  intros Hctx Hactive Htext. rewrite getChildren_run, Hctx. cbn. rewrite Hactive, Htext.
  eexists. split; [reflexivity|]. intros id. cbn.
  rewrite list_elem_of_fmap. split.
  - intros (item & -> & Hin). apply list_elem_of_In, filter_In in Hin as [Hin Hflag].
    apply list_elem_of_In, itemOf_elem in Hin as [Hentry Hact].
    rewrite Hact in Hflag. apply bool_decide_eq_true in Hflag.
    split; [|done]. apply elem_of_dom. eauto.
  - intros [[definition Hentry]%elem_of_dom Hin].
    exists (McpServersProvider.itemOf active (id, definition)). split; [done|].
    apply list_elem_of_In, filter_In. split.
    + apply list_elem_of_In, itemOf_elem. by cbn.
    + cbn. by apply bool_decide_eq_true.
Qed.

Lemma servers_view_active_only_witness :
  let w := workspaceWith
             (Holds (mcpConfigOf {["github" := github; "legacy" := awsDocs]})) [] in
  ∃ items,
    McpServersProvider.getChildren
      (McpServersProvider.setActiveOnlyFilter true McpServersProvider.initial)
      sampleContext w = (Ok items, w) ∧
    ∀ id, id ∈ map McpServersProvider.serverId items ↔
          id ∈ dom sampleCatalog ∧
          id ∈ dom ({["github" := github; "legacy" := awsDocs]} : gmap string McpServer).
Proof.
  exact (servers_view_active_only McpServersProvider.initial sampleContext
           (workspaceWith
              (Holds (mcpConfigOf {["github" := github; "legacy" := awsDocs]})) [])
           sampleCatalog {["github" := github; "legacy" := awsDocs]}
           eq_refl eq_refl eq_refl).
Defined.

(** X21. The text filter of the server view ignores the case of the
    letters and looks at three places. After [setFilter text] with a text that
    is not empty, the view lists exactly the catalog servers (the active ones
    when the view is restricted to them) for which the lower-cased text occurs
    in the lower-cased identifier, description or one of the tags; in
    particular a server whose identifier contains the text as typed is listed
    when the view is not restricted to active servers. *)
Theorem servers_view_text_filter (this : McpServersProvider.State) (text : string)
    (ctx : ExtensionContext) (w : World) (catalog active : gmap string McpServer) :
  masterServersFile ctx = Holds {| servers := Some catalog |} →
  mcpServers (currentConfigOf w) = Some active →
  text ≠ "" →
  ∃ items,
    McpServersProvider.getChildren (McpServersProvider.setFilter text this) ctx w
      = (Ok items, w) ∧
    (∀ item, item ∈ items ↔
       catalog !! McpServersProvider.serverId item = Some (McpServersProvider.server item) ∧
       McpServersProvider.isActive item
         = bool_decide (McpServersProvider.serverId item ∈ dom active) ∧
       (McpServersProvider.showActiveOnly this = true →
        McpServersProvider.serverId item ∈ dom active) ∧
       mentions text (McpServersProvider.serverId item) (McpServersProvider.server item)) ∧
    (McpServersProvider.showActiveOnly this = false →
     ∀ id definition, catalog !! id = Some definition → occursIn text id →
       id ∈ map McpServersProvider.serverId items).
Proof.
  intros Hctx Hactive Htext. rewrite getChildren_run, Hctx. cbn. rewrite Hactive.
  eexists. split; [reflexivity|].
  assert (Hlower : JsString.toLowerCase text ≠ "")
    by (intros Hempty; by apply Htext, (proj1 (toLowerCase_empty text))).
  assert (Hitems : ∀ item,
    item ∈ (let activeItems :=
              if McpServersProvider.showActiveOnly this
              then List.filter McpServersProvider.isActive
                     (map (McpServersProvider.itemOf active) (map_to_list catalog))
              else map (McpServersProvider.itemOf active) (map_to_list catalog) in
            if JsString.isEmpty (JsString.toLowerCase text) then activeItems
            else List.filter (McpServersProvider.matchesText (JsString.toLowerCase text))
                   activeItems) ↔
    catalog !! McpServersProvider.serverId item = Some (McpServersProvider.server item) ∧
    McpServersProvider.isActive item
      = bool_decide (McpServersProvider.serverId item ∈ dom active) ∧
    (McpServersProvider.showActiveOnly this = true →
     McpServersProvider.serverId item ∈ dom active) ∧
    mentions text (McpServersProvider.serverId item) (McpServersProvider.server item)).
  { intros item.
    rewrite (filtered_elem
               {| McpServersProvider.filterText := JsString.toLowerCase text;
                  McpServersProvider.showActiveOnly := McpServersProvider.showActiveOnly this |}).
    cbn. rewrite itemOf_elem, <-(matchesText_spec text item Htext). split.
    - intros ([Hentry Hact] & Hflag & Hmatch). repeat split; try done.
      + intros Hshow. specialize (Hflag Hshow). rewrite Hact in Hflag.
        by apply bool_decide_eq_true in Hflag.
      + by apply Hmatch.
    - intros (Hentry & Hact & Hflag & Hmatch). repeat split; try done.
      intros Hshow. rewrite Hact. by apply bool_decide_eq_true, Hflag. }
  split; [exact Hitems|].
  intros Hall id definition Hentry Hoccurs.
  apply list_elem_of_fmap.
  exists (McpServersProvider.itemOf active (id, definition)). split; [done|].
  apply Hitems. cbn. repeat split; try done.
  - intros Hshow. congruence.
  - left. by apply occursIn_toLowerCase.
Qed.

Lemma servers_view_text_filter_witness :
  let w := workspaceWith (Holds (mcpConfigOf {["github" := github]})) [] in
  ∃ items,
    McpServersProvider.getChildren
      (McpServersProvider.setFilter "Docs" McpServersProvider.initial) sampleContext w
      = (Ok items, w) ∧
    (∀ item, item ∈ items ↔
       sampleCatalog !! McpServersProvider.serverId item
         = Some (McpServersProvider.server item) ∧
       McpServersProvider.isActive item
         = bool_decide (McpServersProvider.serverId item
                          ∈ dom ({["github" := github]} : gmap string McpServer)) ∧
       (McpServersProvider.showActiveOnly McpServersProvider.initial = true →
        McpServersProvider.serverId item
          ∈ dom ({["github" := github]} : gmap string McpServer)) ∧
       mentions "Docs" (McpServersProvider.serverId item) (McpServersProvider.server item)) ∧
    (McpServersProvider.showActiveOnly McpServersProvider.initial = false →
     ∀ id definition, sampleCatalog !! id = Some definition → occursIn "Docs" id →
       id ∈ map McpServersProvider.serverId items).
Proof.
  apply (servers_view_text_filter McpServersProvider.initial "Docs" sampleContext
           (workspaceWith (Holds (mcpConfigOf {["github" := github]})) [])
           sampleCatalog {["github" := github]} eq_refl eq_refl).
  discriminate.
Defined.

(** X22. The server view never throws and never writes. When the catalog
    cannot be read or has no [servers] object, and also when the workspace
    document parses but has no [mcpServers] object, the view is empty: no
    server of the catalog is listed. *)
Theorem servers_view_never_throws (this : McpServersProvider.State)
    (ctx : ExtensionContext) (w : World) :
  ∃ items w' evs,
    McpServersProvider.getChildren this ctx w = (Ok items, w') ∧
    w' = addEvents evs w ∧
    mcpWrites evs = [] ∧
    ((∀ catalog, masterServersFile ctx ≠ Holds {| servers := Some catalog |}) → items = []) ∧
    (mcpServers (currentConfigOf w) = None → items = []).
Proof.
  rewrite getChildren_run. cbv zeta.
  destruct (masterServersFile ctx) as [| |[[catalog|]]]; cbn [servers].
  1,2,4: by eexists _, _, [_].
  destruct (mcpServers (currentConfigOf w)) as [active|].
  - eexists _, _, []. repeat split; try done. intros Hno. by destruct (Hno catalog).
  - destruct (Nat.eqb (size catalog) 0).
    + eexists _, _, []. split; [reflexivity|]. repeat split; try done.
      * intros Hno. by destruct (Hno catalog).
      * intros _. cbn. by destruct (McpServersProvider.showActiveOnly this),
          (JsString.isEmpty (McpServersProvider.filterText this)).
    + eexists _, _, [_]. repeat split; try done.
Qed.

(** ** The environment file of the workspace *)

Ltac run_env :=
  unfold bind, tryCatch, ret, throw, getWorld, EnvVarsFile.eemit,
    EnvVarsFile.fsMkdir, EnvVarsFile.fsWriteEnvVars, EnvVarsFile.fsAccessEnvVars,
    EnvVarsFile.loadEnvVarsTemplate, EnvVarsFile.openEnvVars; cbn.

(** X23. [ensureEnvVarsConfig] never throws, and it never touches an
    [env-vars.json] that exists, parseable or not. Without a workspace folder
    it does nothing at all. When the bundled template cannot be read and
    parsed, no directory is made and nothing is written: the only trace is a
    console entry. *)
Theorem env_file_never_overwritten (w : EnvVarsFile.EnvWorld) :
  ∃ w' evs,
    EnvVarsFile.ensureEnvVarsConfig w = (Ok tt, w') ∧
    EnvVarsFile.envEvents w' = evs ++ EnvVarsFile.envEvents w ∧
    EnvVarsFile.templateFile w' = EnvVarsFile.templateFile w ∧
    (EnvVarsFile.workspaceEnvVars w ≠ Absent → w' = w) ∧
    (EnvVarsFile.envWorkspaceFolder w = false → w' = w) ∧
    ((∀ template, EnvVarsFile.templateFile w ≠ Holds template) →
     envWrites evs = [] ∧ envMkdirs evs = 0 ∧
     EnvVarsFile.workspaceEnvVars w' = EnvVarsFile.workspaceEnvVars w).
Proof.
  unfold EnvVarsFile.ensureEnvVarsConfig, EnvVarsFile.saveWorkspaceEnvVars. run_env.
  destruct (EnvVarsFile.envWorkspaceFolder w) eqn:Hws; cbn.
  2: { exists w, []. by repeat split. }
  destruct (EnvVarsFile.workspaceEnvVars w) as [| |existing] eqn:Hfile; cbn.
  2,3: exists w, []; by repeat split.
  destruct (EnvVarsFile.templateFile w) as [| |template] eqn:Htemplate; cbn.
  1,2: eexists _, [_]; repeat split; try done; by cbn.
  rewrite Hws; cbn.
  assert (Hholds : ¬ ∀ other, Holds template ≠ Holds other)
    by (intros Hno; by destruct (Hno template)).
  destruct (EnvVarsFile.envMkdirScript w) as [|[reason|] mkdirs]; cbn.
  2: { eexists _, [_; _].
       split; [reflexivity|]. split; [reflexivity|]. split; [done|].
       split; [done|]. split; [done|]. intros Hno. by destruct Hholds. }
  all: destruct (EnvVarsFile.envWriteScript w) as [|[|reason truncated] writes]; cbn.
  all: try destruct truncated; cbn.
  all: first [ eexists _, [_; _; _]; split; [reflexivity|]; split; [reflexivity|]
             | eexists _, [_; _; _; _]; split; [reflexivity|]; split; [reflexivity|] ].
  all: split; [done|]; split; [done|]; split; [done|].
  all: intros Hno; by destruct Hholds.
Qed.

(** X24. In a workspace without [env-vars.json], when the bundled template
    parses, the directory can be made and the write goes through,
    [ensureEnvVarsConfig] writes the template, once, and [env-vars.json] then
    holds it; a second call right after changes nothing. *)
Theorem env_file_created_from_template (w : EnvVarsFile.EnvWorld)
    (template : EnvVarsConfig) :
  EnvVarsFile.envWorkspaceFolder w = true →
  EnvVarsFile.workspaceEnvVars w = Absent →
  EnvVarsFile.templateFile w = Holds template →
  mkdirSucceeds (EnvVarsFile.envMkdirScript w) = true →
  plainWriteLands (EnvVarsFile.envWriteScript w) = true →
  ∃ w' evs,
    EnvVarsFile.ensureEnvVarsConfig w = (Ok tt, w') ∧
    EnvVarsFile.envEvents w' = evs ++ EnvVarsFile.envEvents w ∧
    envWrites evs = [template] ∧
    EnvVarsFile.workspaceEnvVars w' = Holds template ∧
    EnvVarsFile.ensureEnvVarsConfig w' = (Ok tt, w').
Proof.
  intros Hws Hfile Htemplate Hmkdir Hwrite.
  unfold EnvVarsFile.ensureEnvVarsConfig, EnvVarsFile.saveWorkspaceEnvVars. run_env.
  rewrite Hws; cbn. rewrite Hfile; cbn. rewrite Htemplate; cbn. rewrite Hws; cbn.
  destruct (EnvVarsFile.envMkdirScript w) as [|[reason|] mkdirs]; [|done|]; cbn.
  all: destruct (EnvVarsFile.envWriteScript w) as [|[|reason truncated] writes];
         [| |done]; cbn.
  all: eexists _, [_; _; _]; (split; [reflexivity|]); cbn; rewrite Hws; by cbn.
Qed.

Lemma env_file_created_from_template_witness :
  ∃ w' evs,
    EnvVarsFile.ensureEnvVarsConfig (freshEnvWorld (Holds defaultEnvVarsConfig))
      = (Ok tt, w') ∧
    EnvVarsFile.envEvents w' = evs ++ [] ∧
    envWrites evs = [defaultEnvVarsConfig] ∧
    EnvVarsFile.workspaceEnvVars w' = Holds defaultEnvVarsConfig ∧
    EnvVarsFile.ensureEnvVarsConfig w' = (Ok tt, w').
Proof.
  exact (env_file_created_from_template (freshEnvWorld (Holds defaultEnvVarsConfig))
           defaultEnvVarsConfig eq_refl eq_refl eq_refl eq_refl eq_refl).
Defined.

(** X25. The command that opens the environment file never throws and
    never rewrites an existing [env-vars.json]. It opens the file in the
    editor exactly when there is a workspace folder and the file exists or
    could be created from the bundled template (the template parses, the
    directory can be made, the write goes through); in every other case it
    opens nothing and shows one error message. *)
Theorem manage_env_vars_opens_or_reports (w : EnvVarsFile.EnvWorld) :
  let available :=
    EnvVarsFile.envWorkspaceFolder w
    && match EnvVarsFile.workspaceEnvVars w with
       | Absent =>
           match EnvVarsFile.templateFile w with
           | Holds _ =>
               mkdirSucceeds (EnvVarsFile.envMkdirScript w)
               && plainWriteLands (EnvVarsFile.envWriteScript w)
           | _ => false
           end
       | _ => true
       end in
  ∃ w' evs,
    EnvVarsFile.manageEnvVarsCommand w = (Ok tt, w') ∧
    EnvVarsFile.envEvents w' = evs ++ EnvVarsFile.envEvents w ∧
    (EnvVarsFile.workspaceEnvVars w ≠ Absent →
     envWrites evs = [] ∧
     EnvVarsFile.workspaceEnvVars w' = EnvVarsFile.workspaceEnvVars w) ∧
    if available
    then envOpened evs = 1 ∧ ∃ text, envNotices evs = [(LInfo, text)]
    else envOpened evs = 0 ∧ ∃ text, envNotices evs = [(LError, text)].
Proof.
  cbv zeta.
  unfold EnvVarsFile.manageEnvVarsCommand, EnvVarsFile.saveWorkspaceEnvVars. run_env.
  destruct (EnvVarsFile.envWorkspaceFolder w) eqn:Hws; cbn.
  2: { eexists _, [_]. split; [reflexivity|]. split; [reflexivity|].
       split; [done|]. split; [done|]. by eexists. }
  destruct (EnvVarsFile.workspaceEnvVars w) as [| |existing] eqn:Hfile; cbn.
  2,3: rewrite Hfile; cbn; eexists _, [_; _]; (split; [reflexivity|]);
       (split; [reflexivity|]); (split; [done|]); split; [done|by eexists].
  destruct (EnvVarsFile.templateFile w) as [| |template] eqn:Htemplate; cbn.
  1,2: eexists _, [_]; (split; [reflexivity|]); (split; [reflexivity|]);
       (split; [done|]); split; [done|by eexists].
  rewrite Hws; cbn.
  destruct (EnvVarsFile.envMkdirScript w) as [|[reason|] mkdirs]; cbn.
  2: { eexists _, [_; _]. split; [reflexivity|]. split; [reflexivity|].
       split; [done|]. split; [done|]. by eexists. }
  all: destruct (EnvVarsFile.envWriteScript w) as [|[|reason truncated] writes]; cbn.
  all: try destruct truncated; cbn.
  all: first [ eexists _, [_; _; _; _]; split; [reflexivity|]; split; [reflexivity|]
             | eexists _, [_; _; _; _; _]; split; [reflexivity|]; split; [reflexivity|] ].
  all: split; [done|]; split; [done|by eexists].
Qed.

(** ** The check of [.gitignore] *)

#[local] Arguments Gitignore.hasEnvVarsIgnore : simpl never.
#[local] Arguments Gitignore.hasMcpIgnore : simpl never.
#[local] Arguments Gitignore.linesOf : simpl never.
#[local] Arguments Gitignore.appendedContent : simpl never.
#[local] Arguments Gitignore.createdContent : simpl never.
#[local] Arguments Gitignore.fsWriteGitignore : simpl never.
#[local] Arguments Gitignore.offerToCreate : simpl never.

Ltac run_git :=
  unfold bind, tryCatch, ret, throw, getWorld,
    Gitignore.showWarningMessage, Gitignore.showInformationMessage,
    Gitignore.createGitignore, Gitignore.addToGitignore,
    Gitignore.fsAccessGitignore, Gitignore.fsReadGitignore,
    Gitignore.fsWriteGitignore; cbn.

Lemma protected_false (content : string) :
  protected content = false ↔
  negb (Gitignore.hasEnvVarsIgnore (Gitignore.linesOf content))
  || negb (Gitignore.hasMcpIgnore (Gitignore.linesOf content)) = true.
Proof.
  unfold protected.
  destruct (Gitignore.hasEnvVarsIgnore _), (Gitignore.hasMcpIgnore _); cbn; split; done.
Qed.

(** A line that names the settings folder passes both tests. *)
Lemma folder_line_protects (content line : string) :
  line ∈ JsString.split "010" content →
  JsString.trim line ∈ [".kiro/settings"; ".kiro/settings/"; ".kiro/settings/*"] →
  protected content = true.
Proof.
  intros Hline Hform. unfold protected, Gitignore.hasEnvVarsIgnore, Gitignore.hasMcpIgnore.
  apply andb_true_iff. split; apply existsb_exists; exists (JsString.trim line).
  all: split; [apply list_elem_of_In, list_elem_of_fmap; by exists line|].
  all: repeat (apply elem_of_cons in Hform as [->|Hform]; [reflexivity|]).
  all: by apply elem_of_nil in Hform.
Qed.

(** What [addToGitignore] appends starts on a line of its own. *)
Lemma appendedContent_shape (content entry : string) :
  ∃ gap,
    (gap = "" ∨ gap = Gitignore.LF) ∧
    Gitignore.appendedContent content entry =
      content +:+ String "010"
        (gap +:+ "# Kiro MCP Manager - Sensitive configuration files"
         +:+ String "010" (entry +:+ "/" +:+ Gitignore.LF)).
Proof.
  unfold Gitignore.appendedContent.
  destruct (JsString.endsWith Gitignore.LF content) eqn:Hend.
  - exists "". split; [by left|]. done.
  - exists Gitignore.LF. split; [by right|]. by rewrite append_assoc.
Qed.

Lemma appendedContent_lines (content : string) :
  ∃ gap,
    JsString.split "010" (Gitignore.appendedContent content Gitignore.settingsFolder)
    = JsString.split "010" content
      ++ gap ++ ["# Kiro MCP Manager - Sensitive configuration files";
                 ".kiro/settings/"; ""].
Proof.
  destruct (appendedContent_shape content Gitignore.settingsFolder)
    as (gap & [->| ->] & ->); rewrite split_app.
  - by exists [].
  - by exists [""].
Qed.

Lemma appendedContent_protected (content : string) :
  protected (Gitignore.appendedContent content Gitignore.settingsFolder) = true.
Proof.
  destruct (appendedContent_lines content) as (gap & Hlines).
  apply (folder_line_protects _ ".kiro/settings/").
  - rewrite Hlines. rewrite !elem_of_app. right. right.
    apply elem_of_cons. right. apply elem_of_cons. by left.
  - apply elem_of_cons. right. apply elem_of_cons. by left.
Qed.

Lemma createdContent_protected : protected Gitignore.createdContent = true.
Proof. vm_compute. reflexivity. Qed.

(** The offer to create the file, by the answer and the outcome of the
    write. *)
Lemma offerToCreate_run (w : Gitignore.GitWorld) :
  Gitignore.offerToCreate w =
  let w1 := Gitignore.grecord (Gitignore.GitNotify LWarning Gitignore.NoGitignoreFound) w in
  match Gitignore.answers w with
  | Some button :: rest =>
      if String.eqb button "Create .gitignore" then
        match Gitignore.fsWriteGitignore Gitignore.createdContent
                (Gitignore.setAnswers rest w1) with
        | (Ok _, w2) =>
            (Ok tt, Gitignore.grecord (Gitignore.GitNotify LInfo Gitignore.CreatedGitignore) w2)
        | (Thrown errorMsg, w2) => (Thrown errorMsg, w2)
        end
      else (Ok tt, Gitignore.setAnswers rest w1)
  | None :: rest => (Ok tt, Gitignore.setAnswers rest w1)
  | [] => (Ok tt, w1)
  end.
Proof.
  unfold Gitignore.offerToCreate, Gitignore.createGitignore.
  unfold bind, ret, Gitignore.showWarningMessage, Gitignore.showInformationMessage.
  cbn. destruct (Gitignore.answers w) as [|[button|] rest]; cbn; try done.
  destruct (String.eqb button "Create .gitignore"); cbn; [|done].
  by destruct (Gitignore.fsWriteGitignore _ _) as [[[]|errorMsg] w2].
Qed.

#[local] Arguments Gitignore.checkGitignoreSecurity : simpl never.

(** The check, by the state of the file, the answer and the outcome of the
    write. *)
Lemma check_run (w : Gitignore.GitWorld) :
  Gitignore.checkGitignoreSecurity w =
  if negb (Gitignore.gitWorkspaceFolder w) then (Ok tt, w)
  else
    match Gitignore.gitignoreFile w with
    | None => Gitignore.offerToCreate w
    | Some content =>
        if protected content then (Ok tt, w)
        else
          let w1 :=
            Gitignore.grecord (Gitignore.GitNotify LWarning Gitignore.SettingsNotIgnored) w in
          match Gitignore.answers w with
          | Some button :: rest =>
              if String.eqb button "Add to .gitignore" then
                match Gitignore.fsWriteGitignore
                        (Gitignore.appendedContent content Gitignore.settingsFolder)
                        (Gitignore.setAnswers rest w1) with
                | (Ok _, w2) =>
                    (Ok tt,
                     Gitignore.grecord (Gitignore.GitNotify LInfo Gitignore.AddedToGitignore) w2)
                | (Thrown _, w2) => Gitignore.offerToCreate w2
                end
              else (Ok tt, Gitignore.setAnswers rest w1)
          | None :: rest => (Ok tt, Gitignore.setAnswers rest w1)
          | [] => (Ok tt, w1)
          end
    end.
Proof.
  unfold Gitignore.checkGitignoreSecurity.
  unfold bind at 1. unfold getWorld at 1.
  destruct (Gitignore.gitWorkspaceFolder w); cbn [negb]; [|done].
  unfold tryCatch at 1. unfold bind at 1. unfold Gitignore.fsAccessGitignore at 1.
  destruct (Gitignore.gitignoreFile w) as [content|] eqn:Hfile; [|done].
  unfold bind at 1. unfold Gitignore.fsReadGitignore at 1. rewrite Hfile.
  unfold protected.
  destruct (Gitignore.hasEnvVarsIgnore _), (Gitignore.hasMcpIgnore _); cbn [negb orb andb].
  1: done.
  all: unfold bind at 1; unfold Gitignore.showWarningMessage at 1; cbn.
  all: destruct (Gitignore.answers w) as [|[button|] rest]; cbn; try done.
  all: destruct (String.eqb button "Add to .gitignore"); cbn; [|done].
  all: unfold Gitignore.addToGitignore, bind, Gitignore.fsReadGitignore,
         Gitignore.showInformationMessage; cbn; rewrite Hfile.
  all: by destruct (Gitignore.fsWriteGitignore _ _) as [[[]|errorMsg] w2].
Qed.

Lemma fsWriteGitignore_lands (content : string) (w : Gitignore.GitWorld) :
  plainWriteLands (Gitignore.gitWriteScript w) = true →
  ∃ w', Gitignore.fsWriteGitignore content w = (Ok tt, w') ∧
        Gitignore.gitignoreFile w' = Some content ∧
        Gitignore.gitWorkspaceFolder w' = Gitignore.gitWorkspaceFolder w ∧
        Gitignore.answers w' = Gitignore.answers w ∧
        Gitignore.gitEvents w' = Gitignore.WriteGitignore content :: Gitignore.gitEvents w.
Proof.
  unfold Gitignore.fsWriteGitignore. cbn.
  destruct (Gitignore.gitWriteScript w) as [|[|reason truncated] script]; [| |done].
  all: intros _; by eexists.
Qed.

(** X26. When the user accepts what the check of [.gitignore] offers
    ([Add to .gitignore] for a file that does not exclude the settings,
    [Create .gitignore] when there is no file) and the write goes through,
    the check ends normally, the file then passes both tests of the check,
    and a check run right after shows nothing and changes nothing. *)
Theorem gitignore_accepted_offer_settles (w : Gitignore.GitWorld)
    (rest : list (option string)) :
  Gitignore.gitWorkspaceFolder w = true →
  Gitignore.answers w = Some (acceptingButton w) :: rest →
  plainWriteLands (Gitignore.gitWriteScript w) = true →
  ∃ w1 content,
    Gitignore.checkGitignoreSecurity w = (Ok tt, w1) ∧
    Gitignore.gitignoreFile w1 = Some content ∧
    protected content = true ∧
    Gitignore.checkGitignoreSecurity w1 = (Ok tt, w1).
Proof.
  intros Hws Hans Hscript. rewrite check_run, Hws. cbn [negb].
  unfold acceptingButton in Hans.
  assert (Hagain : ∀ w1 content,
            Gitignore.gitWorkspaceFolder w1 = true →
            Gitignore.gitignoreFile w1 = Some content →
            protected content = true →
            Gitignore.checkGitignoreSecurity w1 = (Ok tt, w1)).
  { intros w1 content H1 H2 H3. by rewrite check_run, H1, H2, H3. }
  destruct (Gitignore.gitignoreFile w) as [content|] eqn:Hfile.
  - destruct (protected content) eqn:Hprot.
    + exists w, content. repeat split; try done. by apply (Hagain w content).
    + cbv zeta. rewrite Hans. cbn.
      edestruct (fsWriteGitignore_lands
                   (Gitignore.appendedContent content Gitignore.settingsFolder))
        as (w2 & -> & Hf2 & Hws2 & _); [exact Hscript|].
      eexists _, _. split; [reflexivity|]. cbn. split; [exact Hf2|].
      split; [apply appendedContent_protected|].
      apply Hagain with (content := Gitignore.appendedContent content Gitignore.settingsFolder);
        [cbn; by rewrite Hws2|done|apply appendedContent_protected].
  - rewrite offerToCreate_run. cbv zeta. rewrite Hans. cbn.
    edestruct (fsWriteGitignore_lands Gitignore.createdContent)
      as (w2 & -> & Hf2 & Hws2 & _); [exact Hscript|].
    eexists _, _. split; [reflexivity|]. cbn. split; [exact Hf2|].
    split; [apply createdContent_protected|].
    apply Hagain with (content := Gitignore.createdContent);
      [cbn; by rewrite Hws2|done|apply createdContent_protected].
Qed.

Lemma gitignore_accepted_offer_settles_witness :
  ∃ w1 content,
    Gitignore.checkGitignoreSecurity
      (gitWorkspace (Some "node_modules") [Some "Add to .gitignore"] []) = (Ok tt, w1) ∧
    Gitignore.gitignoreFile w1 = Some content ∧
    protected content = true ∧
    Gitignore.checkGitignoreSecurity w1 = (Ok tt, w1).
Proof.
  exact (gitignore_accepted_offer_settles
           (gitWorkspace (Some "node_modules") [Some "Add to .gitignore"] []) []
           eq_refl eq_refl eq_refl).
Defined.

(** X27. The check of [.gitignore] writes nothing the user did not ask for:
    when the answer to its warning is neither [Add to .gitignore] nor
    [Create .gitignore] (the warning is dismissed, or [Ignore Warning] is
    chosen) or no warning is due, the check ends normally, hands nothing to
    [writeFile] and leaves [.gitignore] as it was. *)
Theorem gitignore_no_write_without_consent (w : Gitignore.GitWorld) :
  head (Gitignore.answers w) ≠ Some (Some "Add to .gitignore") →
  head (Gitignore.answers w) ≠ Some (Some "Create .gitignore") →
  ∃ w' evs,
    Gitignore.checkGitignoreSecurity w = (Ok tt, w') ∧
    Gitignore.gitEvents w' = evs ++ Gitignore.gitEvents w ∧
    gitWrites evs = [] ∧
    Gitignore.gitignoreFile w' = Gitignore.gitignoreFile w ∧
    Gitignore.gitWriteScript w' = Gitignore.gitWriteScript w.
Proof.
  intros Hadd Hcreate. rewrite check_run.
  destruct (Gitignore.gitWorkspaceFolder w); cbn [negb]; [|by exists w, []].
  destruct (Gitignore.gitignoreFile w) as [content|] eqn:Hfile.
  - destruct (protected content); [by exists w, []|]. cbv zeta.
    destruct (Gitignore.answers w) as [|[button|] rest]; cbn in Hadd, Hcreate.
    2: destruct (String.eqb_spec button "Add to .gitignore") as [->|Hne]; [done|].
    all: eexists _, [_]; (split; [reflexivity|]); by cbn.
  - rewrite offerToCreate_run. cbv zeta.
    destruct (Gitignore.answers w) as [|[button|] rest]; cbn in Hadd, Hcreate.
    2: destruct (String.eqb_spec button "Create .gitignore") as [->|Hne]; [done|].
    all: eexists _, [_]; (split; [reflexivity|]); by cbn.
Qed.

Lemma gitignore_no_write_without_consent_witness :
  ∃ w' evs,
    Gitignore.checkGitignoreSecurity
      (gitWorkspace (Some "node_modules") [Some "Ignore Warning"] []) = (Ok tt, w') ∧
    Gitignore.gitEvents w' = evs ++ [] ∧
    gitWrites evs = [] ∧
    Gitignore.gitignoreFile w' = Some "node_modules" ∧
    Gitignore.gitWriteScript w' = [].
Proof.
  apply (gitignore_no_write_without_consent
           (gitWorkspace (Some "node_modules") [Some "Ignore Warning"] [])).
  - cbn. discriminate.
  - cbn. discriminate.
Defined.

(** X28. Adding the settings folder to an existing [.gitignore] only
    appends: the text written is the text read followed by an addition, every
    line of the old file is a line of the new one, in the same order and
    before the added lines, and the added lines hold the entry
    [.kiro/settings/] on a line of its own, also when the old text did not end
    with a line feed. *)
Theorem gitignore_add_keeps_lines (w : Gitignore.GitWorld) (content : string)
    (rest : list (option string)) :
  Gitignore.gitWorkspaceFolder w = true →
  Gitignore.gitignoreFile w = Some content →
  protected content = false →
  Gitignore.answers w = Some "Add to .gitignore" :: rest →
  plainWriteLands (Gitignore.gitWriteScript w) = true →
  ∃ w' added addedLines,
    Gitignore.checkGitignoreSecurity w = (Ok tt, w') ∧
    Gitignore.gitignoreFile w' = Some (content +:+ added) ∧
    JsString.split "010" (content +:+ added)
      = JsString.split "010" content ++ addedLines ∧
    ".kiro/settings/" ∈ addedLines ∧
    Gitignore.gitEvents w' =
      [Gitignore.GitNotify LInfo Gitignore.AddedToGitignore;
       Gitignore.WriteGitignore (content +:+ added);
       Gitignore.GitNotify LWarning Gitignore.SettingsNotIgnored]
      ++ Gitignore.gitEvents w.
Proof.
  intros Hws Hfile Hprot Hans Hscript.
  rewrite check_run, Hws, Hfile, Hprot. cbn [negb]. cbv zeta. rewrite Hans. cbn.
  edestruct (fsWriteGitignore_lands
               (Gitignore.appendedContent content Gitignore.settingsFolder))
    as (w2 & -> & Hf2 & _ & _ & Hev2); [exact Hscript|].
  destruct (appendedContent_shape content Gitignore.settingsFolder)
    as (gap & Hgap & Hshape).
  destruct (appendedContent_lines content) as (gapLines & Hlines).
  rewrite Hshape in Hf2, Hev2, Hlines.
  eexists _, _, _. split; [reflexivity|]. split; [exact Hf2|].
  split; [exact Hlines|]. split.
  - rewrite elem_of_app. right. apply elem_of_cons. right. apply elem_of_cons. by left.
  - cbn. by rewrite Hev2.
Qed.

Lemma gitignore_add_keeps_lines_witness :
  ∃ w' added addedLines,
    Gitignore.checkGitignoreSecurity
      (gitWorkspace (Some "node_modules") [Some "Add to .gitignore"] []) = (Ok tt, w') ∧
    Gitignore.gitignoreFile w' = Some ("node_modules" +:+ added) ∧
    JsString.split "010" ("node_modules" +:+ added)
      = JsString.split "010" "node_modules" ++ addedLines ∧
    ".kiro/settings/" ∈ addedLines ∧
    Gitignore.gitEvents w' =
      [Gitignore.GitNotify LInfo Gitignore.AddedToGitignore;
       Gitignore.WriteGitignore ("node_modules" +:+ added);
       Gitignore.GitNotify LWarning Gitignore.SettingsNotIgnored]
      ++ [].
Proof.
  exact (gitignore_add_keeps_lines
           (gitWorkspace (Some "node_modules") [Some "Add to .gitignore"] [])
           "node_modules" [] eq_refl eq_refl eq_refl eq_refl eq_refl).
Defined.

(** X29. A failure while adding to an existing [.gitignore] is handled as a
    missing file. When the file does not exclude the settings, the user
    chooses [Add to .gitignore] and that write is rejected, the warning that
    no [.gitignore] was found is shown although the file exists; when the user
    then chooses [Create .gitignore] and the write goes through, the file
    holds the two generated lines only, whatever it held before. *)
Theorem gitignore_failed_add_offers_create (w : Gitignore.GitWorld)
    (content reason : string) (truncated : bool)
    (script : list PlainWrite) (rest : list (option string)) :
  Gitignore.gitWorkspaceFolder w = true →
  Gitignore.gitignoreFile w = Some content →
  protected content = false →
  Gitignore.answers w = Some "Add to .gitignore" :: Some "Create .gitignore" :: rest →
  Gitignore.gitWriteScript w = Refused reason truncated :: script →
  plainWriteLands script = true →
  ∃ w',
    Gitignore.checkGitignoreSecurity w = (Ok tt, w') ∧
    Gitignore.gitignoreFile w' = Some Gitignore.createdContent ∧
    Gitignore.gitEvents w' =
      [Gitignore.GitNotify LInfo Gitignore.CreatedGitignore;
       Gitignore.WriteGitignore Gitignore.createdContent;
       Gitignore.GitNotify LWarning Gitignore.NoGitignoreFound;
       Gitignore.WriteGitignore
         (Gitignore.appendedContent content Gitignore.settingsFolder);
       Gitignore.GitNotify LWarning Gitignore.SettingsNotIgnored]
      ++ Gitignore.gitEvents w.
Proof.
  intros Hws Hfile Hprot Hans Hscript Hlands.
  rewrite check_run, Hws, Hfile, Hprot. cbn [negb]. cbv zeta. rewrite Hans. cbn.
  unfold Gitignore.fsWriteGitignore at 1. cbn. rewrite Hscript.
  rewrite offerToCreate_run. cbv zeta.
  destruct truncated; cbn.
  all: unfold Gitignore.fsWriteGitignore; cbn.
  all: destruct script as [|[|reason' truncated'] script']; [| |done].
  all: by eexists.
Qed.

Lemma gitignore_failed_add_offers_create_witness :
  ∃ w',
    Gitignore.checkGitignoreSecurity
      (gitWorkspace (Some "node_modules")
         [Some "Add to .gitignore"; Some "Create .gitignore"]
         [Refused "EBUSY: resource busy or locked" false]) = (Ok tt, w') ∧
    Gitignore.gitignoreFile w' = Some Gitignore.createdContent ∧
    Gitignore.gitEvents w' =
      [Gitignore.GitNotify LInfo Gitignore.CreatedGitignore;
       Gitignore.WriteGitignore Gitignore.createdContent;
       Gitignore.GitNotify LWarning Gitignore.NoGitignoreFound;
       Gitignore.WriteGitignore
         (Gitignore.appendedContent "node_modules" Gitignore.settingsFolder);
       Gitignore.GitNotify LWarning Gitignore.SettingsNotIgnored]
      ++ [].
Proof.
  exact (gitignore_failed_add_offers_create
           (gitWorkspace (Some "node_modules")
              [Some "Add to .gitignore"; Some "Create .gitignore"]
              [Refused "EBUSY: resource busy or locked" false])
           "node_modules" "EBUSY: resource busy or locked" false [] []
           eq_refl eq_refl eq_refl eq_refl eq_refl eq_refl).
Defined.

(** X30. One line of [.gitignore] that reads [.kiro/settings],
    [.kiro/settings/] or [.kiro/settings/*] once the white space around it
    (the carriage return of a CRLF line ending included) is removed is enough
    for the check: no warning is shown and nothing is written. *)
Theorem gitignore_folder_line_silences (w : Gitignore.GitWorld)
    (content line : string) :
  Gitignore.gitignoreFile w = Some content →
  line ∈ JsString.split "010" content →
  JsString.trim line ∈ [".kiro/settings"; ".kiro/settings/"; ".kiro/settings/*"] →
  Gitignore.checkGitignoreSecurity w = (Ok tt, w).
Proof.
  intros Hfile Hline Hform. rewrite check_run, Hfile.
  rewrite (folder_line_protects content line Hline Hform).
  by destruct (Gitignore.gitWorkspaceFolder w).
Qed.

Lemma gitignore_folder_line_silences_witness :
  let w := gitWorkspace (Some ("dist" +:+ CR +:+ Gitignore.LF +:+ " .kiro/settings/*" +:+ CR))
             [] [] in
  Gitignore.checkGitignoreSecurity w = (Ok tt, w).
Proof.
  apply (gitignore_folder_line_silences _
           ("dist" +:+ CR +:+ Gitignore.LF +:+ " .kiro/settings/*" +:+ CR)
           (" .kiro/settings/*" +:+ CR)).
  - reflexivity.
  - vm_compute. apply elem_of_cons. right. apply elem_of_cons. by left.
  - vm_compute. apply elem_of_cons. right. apply elem_of_cons. right.
    apply elem_of_cons. by left.
Defined.
